(** * claude-session-manager: the WebDAV synchronisation engine

    A shallow embedding of [src/sync/WebDavClient.ts], [src/sync/SyncManifest.ts]
    and [src/sync/SyncService.ts], with the properties of the design document
    proved about it.

    Conventions of the embedding.
    - A JavaScript string is a Rocq [string] (its UTF-8 bytes).  Every
      delimiter the code looks at (["/"], the line feed, [".jsonl"],
      ["agent-"]) is ASCII, so splitting and prefix tests agree on both views.
    - JavaScript numbers that hold byte counts and millisecond time stamps are
      integers of [Z].
    - What [JSON.parse] leaves in the properties of a history line is a
      [JsValue]: the property may be missing, and it may hold any JSON value.
    - A [Map] is an insertion-ordered association list ([JsMap]); a plain
      object used as a dictionary is a [gmap].
    - [async] methods are functions in a state-and-exception monad; the
      transport ([fetch]) answers from a script held in the state, and every
      request and timer is recorded in a trace. *)

From Stdlib Require Import ZArith Lia Ascii String List Sorted Permutation.
From stdpp Require Import base option list gmap strings.

Local Open Scope Z_scope.

(** ** JavaScript strings *)

Module Js.

(** [s.startsWith(p)] *)
Fixpoint startsWith (p s : string) : bool :=
  match p, s with
  | EmptyString, _ => true
  | String a p', String b s' => if Ascii.eqb a b then startsWith p' s' else false
  | String _ _, EmptyString => false
  end.

(** [s.endsWith(p)]: some tail of [s] is [p]. *)
Fixpoint endsWith (p s : string) : bool :=
  String.eqb s p ||
  match s with
  | EmptyString => false
  | String _ s' => endsWith p s'
  end.

(** [s.split(c)] for a one-character separator: never the empty array. *)
Fixpoint split (c : ascii) (s : string) : list string :=
  match s with
  | EmptyString => [EmptyString]
  | String a s' =>
      if Ascii.eqb a c then EmptyString :: split c s'
      else match split c s' with
           | h :: t => String a h :: t
           | [] => [String a EmptyString]
           end
  end.

(** [ls.join(sep)] *)
Definition join (sep : string) (ls : list string) : string := String.concat sep ls.

(** [!s.trim()]: the string holds white space only. *)
Fixpoint isBlank (s : string) : bool :=
  match s with
  | EmptyString => true
  | String a s' => Ascii.is_space a && isBlank s'
  end.

(** [s.replace(/\/$/, '')]: drops one trailing slash. *)
Fixpoint stripTrailingSlash (s : string) : string :=
  match s with
  | EmptyString => EmptyString
  | String a EmptyString => if Ascii.eqb a "/"%char then EmptyString else s
  | String a s' => String a (stripTrailingSlash s')
  end.

(** [s.replace(/\\/g, '/')] *)
Fixpoint backslashToSlash (s : string) : string :=
  match s with
  | EmptyString => EmptyString
  | String a s' => String (if Ascii.eqb a "\"%char then "/"%char else a) (backslashToSlash s')
  end.

(** [s.split('/').filter(p => p)]: the non-empty segments. *)
Definition segments (s : string) : list string :=
  List.filter (fun p => negb (String.eqb p "")) (split "/"%char s).

(** [parts[parts.length - k]] inside a template literal: a missing element
    prints as ["undefined"]. *)
Definition fromEnd (k : nat) (parts : list string) : string :=
  nth (k - 1) (rev parts) "undefined".

(** The character [c] does not occur in [s]. *)
Fixpoint lacks (c : ascii) (s : string) : bool :=
  match s with
  | EmptyString => true
  | String a s' => negb (Ascii.eqb a c) && lacks c s'
  end.

End Js.

(** ** Insertion-ordered maps ([Map<string, V>]) *)

Module JsMap.

Section Defs.
Context {V : Type}.

Definition t := list (string * V).

Fixpoint get (k : string) (m : list (string * V)) : option V :=
  match m with
  | [] => None
  | (k', v) :: m' => if String.eqb k k' then Some v else get k m'
  end.

(** [m.set(k, v)]: an existing key keeps its position, a new key goes last. *)
Fixpoint set (k : string) (v : V) (m : list (string * V)) : list (string * V) :=
  match m with
  | [] => [(k, v)]
  | (k', v') :: m' =>
      if String.eqb k k' then (k, v) :: m' else (k', v') :: set k v m'
  end.

Definition keys (m : list (string * V)) : list string := map fst m.
Definition values (m : list (string * V)) : list V := map snd m.

End Defs.

End JsMap.

(** ** Values of JSON documents *)

(** What [JSON.parse] leaves in a property.  A number is an integer (see the
    conventions).  An array or an object counts by reference: [JSON.parse]
    makes a new one at each call, so no two of them are the same key of a
    [Map]. *)
Inductive JsValue :=
| JsUndefined                 (* the property is missing *)
| JsNull
| JsBool (b : bool)
| JsNumber (n : Z)
| JsString (s : string)
| JsObject (ref : nat).       (* an array or an object *)

#[global] Instance JsValue_eq_dec : EqDecision JsValue.
Proof. solve_decision. Defined.

(** ** Insertion-ordered maps with any keys ([Map<any, V>]) *)

Module JsAnyMap.

Section Defs.
Context {V : Type}.

(** Keys are compared as [Map] compares them: primitives by value,
    references by identity. *)
Fixpoint get (k : JsValue) (m : list (JsValue * V)) : option V :=
  match m with
  | [] => None
  | (k', v) :: m' => if decide (k = k') then Some v else get k m'
  end.

Fixpoint set (k : JsValue) (v : V) (m : list (JsValue * V)) : list (JsValue * V) :=
  match m with
  | [] => [(k, v)]
  | (k', v') :: m' =>
      if decide (k = k') then (k, v) :: m' else (k', v') :: set k v m'
  end.

Definition keys (m : list (JsValue * V)) : list JsValue := map fst m.
Definition values (m : list (JsValue * V)) : list V := map snd m.

End Defs.

End JsAnyMap.

(** ** Asynchronous code: state and exceptions *)

(** What a [throw] carries. *)
Inductive JsError :=
| HttpError (what : string) (status : Z) (statusText : string)
| Error (msg : string).

Inductive Outcome (A : Type) :=
| Ok (a : A)
| Throw (e : JsError).
Arguments Ok {A} a.
Arguments Throw {A} e.

Definition M (S A : Type) : Type := S -> Outcome A * S.

Definition ret {S A} (a : A) : M S A := fun s => (Ok a, s).

Definition throw {S A} (e : JsError) : M S A := fun s => (Throw e, s).

Definition bind {S A B} (m : M S A) (k : A -> M S B) : M S B :=
  fun s => match m s with
           | (Ok a, s') => k a s'
           | (Throw e, s') => (Throw e, s')
           end.

(** [try { m } catch (err) { h err }]: the state reached at the throw is kept. *)
Definition tryCatch {S A} (m : M S A) (h : JsError -> M S A) : M S A :=
  fun s => match m s with
           | (Ok a, s') => (Ok a, s')
           | (Throw e, s') => h e s'
           end.

Definition gets {S A} (f : S -> A) : M S A := fun s => (Ok (f s), s).

(** A call of a function that does not touch the state and may throw. *)
Definition outcome {S A} (o : Outcome A) : M S A := fun s => (o, s).

Definition modify {S} (f : S -> S) : M S unit := fun s => (Ok tt, f s).

Notation "'let!' x ':=' m 'in' k" := (bind m (fun x => k))
  (at level 10, x pattern, m at level 100, k at level 200).
Notation "m ';;' k" := (bind m (fun _ => k))
  (at level 100, k at level 200, right associativity).

(** [for (const x of xs) { body x }] *)
Fixpoint forOf {S A} (xs : list A) (body : A -> M S unit) : M S unit :=
  match xs with
  | [] => ret tt
  | x :: xs' => body x ;; forOf xs' body
  end.

Definition when {S} (b : bool) (m : M S unit) : M S unit :=
  if b then m else ret tt.

(** State after running [m]. *)
Definition exec {S A} (m : M S A) (s : S) : S := snd (m s).
(** Result of running [m]. *)
Definition result {S A} (m : M S A) (s : S) : Outcome A := fst (m s).

(** ** The remote store client ([WebDavClient.ts]) *)

Record WebDavFileInfo := {
  path : string;
  size : Z;
  lastModified : option Z;   (* [Date.getTime()]; [None] is an invalid date (NaN) *)
  etag : option string;
  isDirectory : bool
}.

Module WebDavClient.

Inductive Method := PROPFIND | MKCOL | PUT | GET | DELETE.

Record Request := {
  method : Method;
  remotePath : string;                (* fetched at [baseUrl + encodeURI(remotePath)] *)
  headers : list (string * string);
  body : option string
}.

Record Response := {
  status : Z;
  statusText : string;
  text : string
}.

(** What [fetch] does with a request: it resolves with a response or rejects. *)
Inductive FetchResult :=
| Answer (r : Response)
| Rejected (e : JsError).

Inductive Event :=
| Sleep (ms : Z)                              (* [setTimeout(r, ms)] awaited *)
| Fetch (rq : Request) (res : FetchResult).

(** The client object together with the clock and the transport it talks to. *)
Record State := {
  now : Z;                          (* [Date.now()], advanced by timers *)
  network : list FetchResult;       (* what the transport will answer, in order *)
  trace : list Event;               (* oldest first *)
  authHeader : string;
  lastRequestTime : Z;
  minInterval : Z;
  knownDirs : gset string
}.

Definition set_now (f : Z -> Z) (s : State) : State :=
  {| now := f (now s); network := network s; trace := trace s;
     authHeader := authHeader s; lastRequestTime := lastRequestTime s;
     minInterval := minInterval s; knownDirs := knownDirs s |}.
Definition set_network (f : list FetchResult -> list FetchResult) (s : State) : State :=
  {| now := now s; network := f (network s); trace := trace s;
     authHeader := authHeader s; lastRequestTime := lastRequestTime s;
     minInterval := minInterval s; knownDirs := knownDirs s |}.
Definition set_trace (f : list Event -> list Event) (s : State) : State :=
  {| now := now s; network := network s; trace := f (trace s);
     authHeader := authHeader s; lastRequestTime := lastRequestTime s;
     minInterval := minInterval s; knownDirs := knownDirs s |}.
Definition set_lastRequestTime (f : Z -> Z) (s : State) : State :=
  {| now := now s; network := network s; trace := trace s;
     authHeader := authHeader s; lastRequestTime := f (lastRequestTime s);
     minInterval := minInterval s; knownDirs := knownDirs s |}.
Definition set_minInterval (f : Z -> Z) (s : State) : State :=
  {| now := now s; network := network s; trace := trace s;
     authHeader := authHeader s; lastRequestTime := lastRequestTime s;
     minInterval := f (minInterval s); knownDirs := knownDirs s |}.
Definition set_knownDirs (f : gset string -> gset string) (s : State) : State :=
  {| now := now s; network := network s; trace := trace s;
     authHeader := authHeader s; lastRequestTime := lastRequestTime s;
     minInterval := minInterval s; knownDirs := f (knownDirs s) |}.

(** [new WebDavClient(config)] *)
Definition create (auth : string) (clock : Z) (net : list FetchResult)
    (tr : list Event) : State :=
  {| now := clock; network := net; trace := tr; authHeader := auth;
     lastRequestTime := 0; minInterval := 1500; knownDirs := ∅ |}.

(** [await new Promise(r => setTimeout(r, ms))] *)
Definition sleep (ms : Z) : M State unit :=
  modify (fun s => set_trace (fun t => t ++ [Sleep ms]) (set_now (fun n => n + ms) s)).

(** [await fetch(url, {method, headers, body})]: the next scripted answer; a
    transport with nothing left to say rejects. *)
Definition fetch (rq : Request) : M State Response :=
  fun s =>
    match network s with
    | [] =>
        let e := Error "fetch failed" in
        (Throw e, set_trace (fun t => t ++ [Fetch rq (Rejected e)]) s)
    | Answer r :: rest =>
        (Ok r, set_trace (fun t => t ++ [Fetch rq (Answer r)])
                 (set_network (fun _ => rest) s))
    | Rejected e :: rest =>
        (Throw e, set_trace (fun t => t ++ [Fetch rq (Rejected e)])
                    (set_network (fun _ => rest) s))
    end.

Definition throttle : M State unit :=
  let! t := gets now in
  let! last := gets lastRequestTime in
  let! interval := gets minInterval in
  let elapsed := t - last in
  when (elapsed <? interval) (sleep (interval - elapsed)) ;;
  let! t' := gets now in
  modify (set_lastRequestTime (fun _ => t')).

(** The path part of [fullUrl]. *)
Definition clean (remotePath : string) : string :=
  if Js.startsWith "/" remotePath then remotePath else "/" +:+ remotePath.

Record Options := {
  opt_body : option string;
  opt_headers : list (string * string);
  opt_retries : option nat
}.

Definition noOptions : Options :=
  {| opt_body := None; opt_headers := []; opt_retries := None |}.

(** The body of [for (let attempt = 0; attempt <= maxRetries; attempt++)]:
    [remaining] counts the iterations left, [maxRetries + 1 - attempt]. *)
Fixpoint requestLoop (m : Method) (remotePath : string) (options : Options)
    (maxRetries remaining attempt : nat) : M State Response :=
  match remaining with
  | O => throw (Error "Request failed after retries")
  | S remaining' =>
      throttle ;;
      let! auth := gets authHeader in
      let! resp := fetch {| method := m; remotePath := clean remotePath;
                            headers := ("Authorization", auth) :: opt_headers options;
                            body := opt_body options |} in
      if (status resp =? 503) && (attempt <? maxRetries)%nat then
        modify (set_minInterval (fun i => Z.min (i * 2) 10000)) ;;
        sleep (Z.min (3000 * 2 ^ Z.of_nat attempt) 30000) ;;
        requestLoop m remotePath options maxRetries remaining' (S attempt)
      else ret resp
  end.

Definition request (m : Method) (remotePath : string) (options : Options)
    : M State Response :=
  let maxRetries := default 3%nat (opt_retries options) in
  requestLoop m remotePath options maxRetries (S maxRetries) 0.

Definition depth0 : Options :=
  {| opt_body := None; opt_headers := [("Depth", "0")]; opt_retries := None |}.

Definition testConnection : M State bool :=
  tryCatch
    (let! resp := request PROPFIND "/" depth0 in
     ret ((status resp =? 207) || (status resp =? 200)))
    (fun _ => ret false).

Definition exists_ (remotePath : string) : M State bool :=
  tryCatch
    (let! resp := request PROPFIND remotePath depth0 in
     ret ((status resp =? 207) || (status resp =? 200)))
    (fun _ => ret false).

Definition mkdir (remotePath : string) : M State unit :=
  let! resp := request MKCOL remotePath noOptions in
  if negb (status resp =? 201) && negb (status resp =? 405) then
    if status resp >=? 400 then
      throw (HttpError "mkdir failed" (status resp) (statusText resp))
    else ret tt
  else ret tt.

Definition delete (remotePath : string) : M State unit :=
  let! resp := request DELETE remotePath noOptions in
  if (status resp >=? 400) && negb (status resp =? 404) then
    throw (HttpError "delete failed" (status resp) (statusText resp))
  else ret tt.

(** The loop of [mkdirp] over the remaining segments, [current] being the
    prefix built so far. *)
Fixpoint mkdirpLoop (parts : list string) (current : string) : M State unit :=
  match parts with
  | [] => ret tt
  | part :: parts' =>
      let current := current +:+ "/" +:+ part in
      let! known := gets knownDirs in
      if decide (current ∈ known) then mkdirpLoop parts' current
      else
        mkdir current ;;
        modify (set_knownDirs (fun k => k ∪ {[current]})) ;;
        mkdirpLoop parts' current
  end.

Definition mkdirp (remotePath : string) : M State unit :=
  mkdirpLoop (Js.segments remotePath) "".

Definition upload (remotePath : string) (content : string) : M State unit :=
  let! resp := request PUT remotePath
                 {| opt_body := Some content;
                    opt_headers := [("Content-Type", "application/octet-stream")];
                    opt_retries := None |} in
  if status resp >=? 400 then
    throw (HttpError "upload failed" (status resp) (statusText resp))
  else ret tt.

Definition download (remotePath : string) : M State string :=
  let! resp := request GET remotePath noOptions in
  if status resp =? 404 then throw (Error ("File not found: " +:+ remotePath))
  else if status resp >=? 400 then
    throw (HttpError "download failed" (status resp) (statusText resp))
  else ret (text resp).

Section Listing.

(** [parsePropfind(xml, basePath)], the regular-expression scan of a
    multi-status body, is taken as given. *)
Variable parsePropfind : string -> string -> list WebDavFileInfo.

Definition list_ (remotePath : string) : M State (list WebDavFileInfo) :=
  let p := if Js.endsWith "/" remotePath then remotePath else remotePath +:+ "/" in
  let! resp := request PROPFIND p
                 {| opt_body := None; opt_headers := [("Depth", "1")];
                    opt_retries := None |} in
  if status resp =? 404 then ret []
  else if negb (status resp =? 207) then
    throw (HttpError "list failed" (status resp) (statusText resp))
  else ret (parsePropfind (text resp) p).

Definition getFileInfo (remotePath : string) : M State (option WebDavFileInfo) :=
  tryCatch
    (let! resp := request PROPFIND remotePath depth0 in
     if status resp =? 404 then ret None
     else if negb (status resp =? 207) then ret None
     else ret (head (parsePropfind (text resp) remotePath)))
    (fun _ => ret None).

End Listing.

End WebDavClient.

(** ** The manifest ([SyncManifest.ts]) *)

Record ManifestEntry := {
  me_size : Z;
  me_mtimeMs : Z;
  me_syncedAt : Z
}.

Record ManifestData := {
  lastSyncTime : Z;
  files : gmap string ManifestEntry
}.

(** [files] is a plain object.  The service reads and assigns it at relative
    paths only, all of which begin with [hosts/]; a plain object inherits no
    property of such a name, and at these keys it is a finite map.  What it
    does at the names it inherits ([constructor], [__proto__] and the like)
    is not modelled. *)
Module SyncManifest.

Definition empty : ManifestData := {| lastSyncTime := 0; files := ∅ |}.

Definition getEntry (relativePath : string) (d : ManifestData) : option ManifestEntry :=
  files d !! relativePath.

Definition setEntry (relativePath : string) (entry : ManifestEntry) (d : ManifestData)
    : ManifestData :=
  {| lastSyncTime := lastSyncTime d; files := <[relativePath := entry]> (files d) |}.

Definition removeEntry (relativePath : string) (d : ManifestData) : ManifestData :=
  {| lastSyncTime := lastSyncTime d; files := base.delete relativePath (files d) |}.

Definition setLastSyncTime (time : Z) (d : ManifestData) : ManifestData :=
  {| lastSyncTime := time; files := files d |}.

End SyncManifest.

(** ** The local file system, as [fs] shows it *)

Inductive Node :=
| File (content : string) (mtimeMs : Z)
| Dir (names : list string).          (* what [readdirSync] returns *)

Record Stats := {
  st_isDirectory : bool;
  st_size : Z;
  st_mtimeMs : Z
}.

Module Fs.

Definition t := gmap string Node.

Definition enoent : JsError := Error "ENOENT".

Definition existsSync (fs : gmap string Node) (p : string) : bool :=
  bool_decide (is_Some (fs !! p)).

Definition statSync {S} (fs : gmap string Node) (p : string) : M S Stats :=
  match fs !! p with
  | Some (File content m) =>
      ret {| st_isDirectory := false;
             st_size := Z.of_nat (String.length content); st_mtimeMs := m |}
  | Some (Dir _) => ret {| st_isDirectory := true; st_size := 0; st_mtimeMs := 0 |}
  | None => throw enoent
  end.

Definition readdirSync {S} (fs : gmap string Node) (p : string) : M S (list string) :=
  match fs !! p with
  | Some (Dir names) => ret names
  | Some (File _ _) => throw (Error "ENOTDIR")
  | None => throw enoent
  end.

Definition readFileSync {S} (fs : gmap string Node) (p : string) : M S string :=
  match fs !! p with
  | Some (File content _) => ret content
  | Some (Dir _) => throw (Error "EISDIR")
  | None => throw enoent
  end.

(** The file system after [writeFileSync(p, content)] at time [t]; [None]
    when the call throws. *)
Definition writeFile (p content : string) (t : Z) (fs : gmap string Node)
    : option (gmap string Node) :=
  match fs !! p with
  | Some (Dir _) => None
  | _ => Some (<[p := File content t]> fs)
  end.

(** [mkdirSync(p, { recursive: true })] *)
Definition mkdir (p : string) (fs : gmap string Node) : option (gmap string Node) :=
  match fs !! p with
  | Some (File _ _) => None
  | Some (Dir _) => Some fs
  | None => Some (<[p := Dir []]> fs)
  end.

Definition unlink (p : string) (fs : gmap string Node) : option (gmap string Node) :=
  match fs !! p with
  | Some (File _ _) => Some (base.delete p fs)
  | Some (Dir _) => None
  | None => None
  end.

End Fs.

(** [xs.filter(x => await-free body that may throw)] *)
Fixpoint filterM {S A} (f : A -> M S bool) (xs : list A) : M S (list A) :=
  match xs with
  | [] => ret []
  | x :: xs' =>
      let! keep := f x in
      let! rest := filterM f xs' in
      ret (if keep then x :: rest else rest)
  end.

(** A method's local variable of type [L] that loops and [catch] blocks
    mutate: it rides in the state while the body runs. *)
Definition liftL {W L A} (m : M W A) : M (W * L) A :=
  fun s => let '(r, w') := m (fst s) in (r, (w', snd s)).

Definition withLocal {W L} (init : L) (m : M (W * L) unit) : M W L :=
  fun w => match m (w, init) with
           | (Ok _, (w', l)) => (Ok l, w')
           | (Throw e, (w', _)) => (Throw e, w')
           end.

Definition modifyL {W L} (f : L -> L) : M (W * L) unit :=
  modify (fun s => (fst s, f (snd s))).

(** ** The orchestrator ([SyncService.ts]) *)

Record LocalFile := {
  fullPath : string;
  lf_size : Z;
  lf_mtimeMs : Z
}.

Inductive Action := upload | download.

Record FileChange := {
  relativePath : string;
  localPath : option string;
  action : Action;
  localMtime : option Z;
  remoteMtime : option Z;     (* [None] also stands for NaN: both are falsy *)
  fc_size : option Z
}.

Record MachineDescriptor := {
  md_name : string;
  md_platform : string;
  md_hostname : string;
  md_projectDirs : list string;
  md_lastSeen : Z
}.

(** A line of [history.jsonl] after [JSON.parse]: the two properties that
    [mergeHistoryFiles] reads of it, whatever they hold.  Both are missing
    when the line parses to a number, a string, a boolean or an array. *)
Record HistoryEntry := {
  sessionId : JsValue;
  timestamp : JsValue
}.

(** A value of the [entries] map of [mergeHistoryFiles]: [{ line, timestamp }]. *)
Record KeptLine := {
  kept_line : string;
  kept_timestamp : JsValue
}.

Record ClaudeDir := {
  dir : string;
  name : option string
}.

Inductive SyncStatus := Idle | Syncing | Failed | Disabled.

(** What the orchestrator is given: the host it runs on and the library
    functions it calls. *)
Record Env := {
  hostname : string;                                  (* [os.hostname()] *)
  platform : string;                                  (* [os.platform()] *)
  cacheDir : string;
  claudeDirs : list ClaudeDir;                        (* [parser.getClaudeDirs()] *)
  credentials : option string;                        (* configured and a password stored *)
  path_join : string -> string -> string;
  path_dirname : string -> string;
  parsePropfind : string -> string -> list WebDavFileInfo;
  (* [JSON.parse(line)]; [None]: it throws, or gives [null], whose properties
     cannot be read *)
  parseHistoryLine : string -> option HistoryEntry;
  (* [a > b] where an operand is a string, an array or an object: the
     conversion of text to numbers, of objects to primitives and the order of
     strings are the engine's; [None]: the conversion throws *)
  compareOther : JsValue -> JsValue -> option bool;
  (* [records.sort((a, b) => b.timestamp - a.timestamp)] where a time stamp
     is no number: the comparator is not consistent (or throws) and the order
     is the engine's *)
  sortOther : list KeptLine -> Outcome (list KeptLine);
  parseNames : string -> option (gmap string string); (* [JSON.parse(s) as Record<string,string>] *)
  stringifyNames : gmap string string -> string;      (* [JSON.stringify(o, null, 2)] *)
  stringifyDescriptor : MachineDescriptor -> string
}.

Record World := {
  conn : WebDavClient.State;    (* clock and transport; the fields of [this.client] *)
  client : bool;                (* [this.client !== null] *)
  manifest : ManifestData;
  savedManifest : ManifestData; (* the manifest file *)
  fs : gmap string Node;
  fsWrites : list (string * string);   (* [writeFileSync] calls, oldest first *)
  status : SyncStatus;
  syncLock : bool
}.

Definition set_conn (f : WebDavClient.State -> WebDavClient.State) (w : World) : World :=
  {| conn := f (conn w); client := client w; manifest := manifest w;
     savedManifest := savedManifest w; fs := fs w; fsWrites := fsWrites w;
     status := status w; syncLock := syncLock w |}.
Definition set_client (b : bool) (w : World) : World :=
  {| conn := conn w; client := b; manifest := manifest w;
     savedManifest := savedManifest w; fs := fs w; fsWrites := fsWrites w;
     status := status w; syncLock := syncLock w |}.
Definition set_manifest (f : ManifestData -> ManifestData) (w : World) : World :=
  {| conn := conn w; client := client w; manifest := f (manifest w);
     savedManifest := savedManifest w; fs := fs w; fsWrites := fsWrites w;
     status := status w; syncLock := syncLock w |}.
Definition set_savedManifest (d : ManifestData) (w : World) : World :=
  {| conn := conn w; client := client w; manifest := manifest w;
     savedManifest := d; fs := fs w; fsWrites := fsWrites w;
     status := status w; syncLock := syncLock w |}.
Definition set_fs (f : gmap string Node -> gmap string Node) (w : World) : World :=
  {| conn := conn w; client := client w; manifest := manifest w;
     savedManifest := savedManifest w; fs := f (fs w); fsWrites := fsWrites w;
     status := status w; syncLock := syncLock w |}.
Definition set_fsWrites (f : list (string * string) -> list (string * string))
    (w : World) : World :=
  {| conn := conn w; client := client w; manifest := manifest w;
     savedManifest := savedManifest w; fs := fs w; fsWrites := f (fsWrites w);
     status := status w; syncLock := syncLock w |}.
Definition set_status (st : SyncStatus) (w : World) : World :=
  {| conn := conn w; client := client w; manifest := manifest w;
     savedManifest := savedManifest w; fs := fs w; fsWrites := fsWrites w;
     status := st; syncLock := syncLock w |}.
Definition set_syncLock (b : bool) (w : World) : World :=
  {| conn := conn w; client := client w; manifest := manifest w;
     savedManifest := savedManifest w; fs := fs w; fsWrites := fsWrites w;
     status := status w; syncLock := b |}.

(** A call on [this.client]. *)
Definition onClient {A} (m : M WebDavClient.State A) : M World A :=
  fun w => let '(r, c') := m (conn w) in (r, set_conn (fun _ => c') w).

Definition dateNow : M World Z := gets (fun w => WebDavClient.now (conn w)).

Definition writeFileSync (p content : string) : M World unit :=
  let! t := dateNow in
  let! f := gets fs in
  match Fs.writeFile p content t f with
  | Some f' =>
      modify (fun w => set_fsWrites (fun l => l ++ [(p, content)]) (set_fs (fun _ => f') w))
  | None => throw (Error "EISDIR")
  end.

Definition mkdirSync (p : string) : M World unit :=
  let! f := gets fs in
  match Fs.mkdir p f with
  | Some f' => modify (set_fs (fun _ => f'))
  | None => throw (Error "EEXIST")
  end.

Definition unlinkSync (p : string) : M World unit :=
  let! f := gets fs in
  match Fs.unlink p f with
  | Some f' => modify (set_fs (fun _ => f'))
  | None => throw Fs.enoent
  end.

(** [x || Date.now()] for an optional number: absent, NaN and 0 are falsy. *)
Definition orNow (x : option Z) (t : Z) : Z :=
  match x with
  | Some v => if v =? 0 then t else v
  | None => t
  end.

(** A line and its time stamp, where that is a number. *)
Record HistoryRecord := {
  line : string;
  hr_timestamp : Z
}.

Module SyncService.

Definition LF : string := String "010"%char EmptyString.

Section WithEnv.

Variable env : Env.

Definition hostPrefix : string := "/hosts/" +:+ hostname env.

Definition initialize : M World unit :=
  match credentials env with
  | None => modify (set_status Disabled)
  | Some auth =>
      modify (fun w =>
        set_status Idle (set_client true (set_conn (fun c =>
          WebDavClient.create auth (WebDavClient.now c) (WebDavClient.network c)
            (WebDavClient.trace c)) w)))
  end.

(** *** Scanning *)

Definition isSessionFileName (f : string) : bool :=
  Js.endsWith ".jsonl" f && negb (Js.startsWith "agent-" f).

Definition localRelativePath (projectDir file : string) : string :=
  "hosts/" +:+ hostname env +:+ "/projects/" +:+ projectDir +:+ "/" +:+ file.

(** The body of [for (const file of sessionFiles)]. *)
Definition scanSessionFile (f : gmap string Node) (t : Z)
    (fullProjectDir projectDir file : string) : M (list (string * LocalFile)) unit :=
  let fullPath := path_join env fullProjectDir file in
  let! stat := Fs.statSync f fullPath in
  if st_isDirectory stat || (st_size stat =? 0) then ret tt
  else if t - st_mtimeMs stat <? 30000 then ret tt
  else modify (JsMap.set (localRelativePath projectDir file)
                 {| fullPath := fullPath; lf_size := st_size stat;
                    lf_mtimeMs := st_mtimeMs stat |}).

(** [readdirSync(projectsDir).filter(d => statSync(..).isDirectory() && !d.startsWith('.'))] *)
Definition listProjectDirs {S} (f : gmap string Node) (projectsDir : string)
    : M S (list string) :=
  let! names := Fs.readdirSync f projectsDir in
  filterM (fun d =>
             let! st := Fs.statSync f (path_join env projectsDir d) in
             ret (st_isDirectory st && negb (Js.startsWith "." d)))
          names.

(** The body of [for (const projectDir of projectDirs)]. *)
Definition scanProjectDir (f : gmap string Node) (t : Z)
    (projectsDir projectDir : string) : M (list (string * LocalFile)) unit :=
  let fullProjectDir := path_join env projectsDir projectDir in
  let! names := Fs.readdirSync f fullProjectDir in
  let sessionFiles := List.filter isSessionFileName names in
  forOf sessionFiles (scanSessionFile f t fullProjectDir projectDir).

(** The body of [for (const { dir } of this.parser.getClaudeDirs())]. *)
Definition scanClaudeDir (f : gmap string Node) (t : Z) (d : ClaudeDir)
    : M (list (string * LocalFile)) unit :=
  if String.eqb (dir d) (cacheDir env) then ret tt
  else
    let projectsDir := path_join env (dir d) "projects" in
    if negb (Fs.existsSync f projectsDir) then ret tt
    else
      tryCatch
        (let! projectDirs := listProjectDirs f projectsDir in
         forOf projectDirs (scanProjectDir f t projectsDir))
        (fun _ => ret tt).

(** [scanLocalFiles()] on the file system [f] at time [t]. *)
Definition scanLocalFiles (f : gmap string Node) (t : Z) : list (string * LocalFile) :=
  exec (forOf (claudeDirs env) (scanClaudeDir f t)) [].

Definition listRemoteHosts : M World (list string) :=
  let! c := gets client in
  if negb c then ret []
  else
    tryCatch
      (let! items := onClient (WebDavClient.list_ (parsePropfind env) "/hosts") in
       ret (map (fun i => Js.stripTrailingSlash (path i))
                (List.filter isDirectory items)))
      (fun _ => ret []).

Definition skipRemoteFile (file : WebDavFileInfo) : bool :=
  isDirectory file || negb (Js.endsWith ".jsonl" (path file))
  || Js.startsWith "agent-" (path file).

Definition remoteRelativePath (host projName file : string) : string :=
  "hosts/" +:+ host +:+ "/projects/" +:+ projName +:+ "/" +:+ file.

Definition scanHostRemoteFiles (host : string) : M World (list (string * WebDavFileInfo)) :=
  let! c := gets client in
  if negb c then ret []
  else
    withLocal []
      (tryCatch
         (let! projectDirs :=
            liftL (onClient (WebDavClient.list_ (parsePropfind env)
                               ("/hosts/" +:+ host +:+ "/projects"))) in
          forOf projectDirs (fun projDir =>
            if negb (isDirectory projDir) then ret tt
            else
              let projName := Js.stripTrailingSlash (path projDir) in
              let! sessionFiles :=
                liftL (onClient (WebDavClient.list_ (parsePropfind env)
                                   ("/hosts/" +:+ host +:+ "/projects/" +:+ projName))) in
              forOf sessionFiles (fun file =>
                if skipRemoteFile file then ret tt
                else modifyL (JsMap.set (remoteRelativePath host projName (path file)) file))))
         (fun _ => ret tt)).

(** *** Planning *)

Definition uploadOf (relativePath : string) (local : LocalFile) : FileChange :=
  {| relativePath := relativePath; localPath := Some (fullPath local);
     action := upload; localMtime := Some (lf_mtimeMs local);
     remoteMtime := None; fc_size := Some (lf_size local) |}.

(** The body of the loop of [computeUploadChanges]. *)
Definition planUpload (m : ManifestData) (remoteFiles : list (string * WebDavFileInfo))
    (changes : list FileChange) (kv : string * LocalFile) : list FileChange :=
  let '(relativePath, local) := kv in
  let manifest := SyncManifest.getEntry relativePath m in
  let remote := JsMap.get relativePath remoteFiles in
  match remote with
  | None => changes ++ [uploadOf relativePath local]
  | Some _ =>
      match manifest with
      | Some manifest =>
          let localChanged :=
            negb (lf_size local =? me_size manifest)
            || (lf_mtimeMs local >? me_mtimeMs manifest + 1000) in
          if localChanged then changes ++ [uploadOf relativePath local] else changes
      | None => changes ++ [uploadOf relativePath local]
      end
  end.

Definition computeUploadChanges (m : ManifestData)
    (localFiles : list (string * LocalFile))
    (remoteFiles : list (string * WebDavFileInfo)) : list FileChange :=
  fold_left (planUpload m remoteFiles) localFiles [].

Definition downloadOf (relativePath : string) (info : WebDavFileInfo) : FileChange :=
  {| relativePath := relativePath; localPath := None; action := download;
     localMtime := None; remoteMtime := lastModified info;
     fc_size := Some (size info) |}.

(** [info.lastModified.getTime() > manifest.syncedAt + 1000]; a comparison
    with NaN is false. *)
Definition remoteNewer (info : WebDavFileInfo) (entry : ManifestEntry) : bool :=
  match lastModified info with
  | Some t => t >? me_syncedAt entry + 1000
  | None => false
  end.

(** The body of [for (const [relativePath, info] of hostFiles)] in [performSync]. *)
Definition planDownload (f : gmap string Node) (m : ManifestData)
    (downloadChanges : list FileChange) (kv : string * WebDavFileInfo) : list FileChange :=
  let '(relativePath, info) := kv in
  let cachePath := path_join env (cacheDir env) relativePath in
  let manifest := SyncManifest.getEntry relativePath m in
  let needDownload :=
    if negb (Fs.existsSync f cachePath) then true
    else match manifest with
         | Some manifest => if remoteNewer info manifest then true else false
         | None => true
         end in
  if needDownload then downloadChanges ++ [downloadOf relativePath info]
  else downloadChanges.

(** The loop [for (const host of otherHosts)] of [performSync]. *)
Fixpoint planDownloads (otherHosts : list string) (downloadChanges : list FileChange)
    : M World (list FileChange) :=
  match otherHosts with
  | [] => ret downloadChanges
  | host :: rest =>
      if String.eqb host (hostname env) then planDownloads rest downloadChanges
      else
        let! hostFiles := scanHostRemoteFiles host in
        let! f := gets fs in
        let! m := gets manifest in
        planDownloads rest (fold_left (planDownload f m) hostFiles downloadChanges)
  end.

(** *** Transfers *)

Definition truthy (s : option string) : bool :=
  match s with
  | Some v => negb (String.eqb v "")
  | None => false
  end.

Definition uploadFile (change : FileChange) : M World unit :=
  let! c := gets client in
  if negb c || negb (truthy (localPath change)) then ret tt
  else
    let remoteDir := path_dirname env (relativePath change) in
    onClient (WebDavClient.mkdirp ("/" +:+ remoteDir)) ;;
    let! f := gets fs in
    let! content := Fs.readFileSync f (default "" (localPath change)) in
    onClient (WebDavClient.upload ("/" +:+ relativePath change) content) ;;
    let! t := dateNow in
    modify (set_manifest (SyncManifest.setEntry (relativePath change)
              {| me_size := Z.of_nat (String.length content);
                 me_mtimeMs := orNow (localMtime change) t;
                 me_syncedAt := t |})).

Definition downloadFile (change : FileChange) : M World unit :=
  let! c := gets client in
  if negb c then ret tt
  else
    let! content := onClient (WebDavClient.download ("/" +:+ relativePath change)) in
    let cachePath := path_join env (cacheDir env) (relativePath change) in
    let cacheFileDir := path_dirname env cachePath in
    let! f := gets fs in
    when (negb (Fs.existsSync f cacheFileDir)) (mkdirSync cacheFileDir) ;;
    writeFileSync cachePath content ;;
    let! t := dateNow in
    modify (set_manifest (SyncManifest.setEntry (relativePath change)
              {| me_size := Z.of_nat (String.length content);
                 me_mtimeMs := orNow (remoteMtime change) t;
                 me_syncedAt := t |})).

(** *** Metadata *)

(** [this.parser.getClaudeDirs().find(d => d.dir !== this.cacheDir)?.dir] *)
Definition primaryDir : option string :=
  match List.find (fun d => negb (String.eqb (dir d) (cacheDir env))) (claudeDirs env) with
  | Some d => Some (dir d)
  | None => None
  end.

Definition configuredName : string :=
  match List.find (fun d => negb (String.eqb (dir d) (cacheDir env)) && truthy (name d))
                  (claudeDirs env) with
  | Some d => if truthy (name d) then default "" (name d) else hostname env
  | None => hostname env
  end.

(** The loop of [uploadMachineDescriptor] that collects the project directory
    names of every local root. *)
Definition collectProjectDirs (f : gmap string Node) : list string :=
  fold_left
    (fun projectDirs d =>
       if String.eqb (dir d) (cacheDir env) then projectDirs
       else
         let projectsDir := path_join env (dir d) "projects" in
         if negb (Fs.existsSync f projectsDir) then projectDirs
         else match result (listProjectDirs f projectsDir) tt with
              | Ok dirs => projectDirs ++ dirs
              | Throw _ => projectDirs
              end)
    (claudeDirs env) [].

Definition uploadMachineDescriptor : M World unit :=
  let! c := gets client in
  if negb c then ret tt
  else
    let! f := gets fs in
    let! t := dateNow in
    let descriptor :=
      {| md_name := configuredName; md_platform := platform env;
         md_hostname := hostname env; md_projectDirs := collectProjectDirs f;
         md_lastSeen := t |} in
    tryCatch
      (onClient (WebDavClient.upload (hostPrefix +:+ "/machine.json")
                   (stringifyDescriptor env descriptor)))
      (fun _ => ret tt).

Definition machinesDir : string :=
  path_join env (path_join env (cacheDir env) "..") "machines".

Definition downloadMachineDescriptors : M World unit :=
  let! c := gets client in
  if negb c then ret tt
  else
    let! f := gets fs in
    when (negb (Fs.existsSync f machinesDir)) (mkdirSync machinesDir) ;;
    tryCatch
      (let! hosts := listRemoteHosts in
       forOf hosts (fun host =>
         tryCatch
           (let! content :=
              onClient (WebDavClient.download ("/hosts/" +:+ host +:+ "/machine.json")) in
            writeFileSync (path_join env machinesDir (host +:+ ".json")) content)
           (fun _ => ret tt)))
      (fun _ => ret tt).

(** [if (entry.sessionId)] *)
Definition truthyValue (v : JsValue) : bool :=
  match v with
  | JsUndefined | JsNull => false
  | JsBool b => b
  | JsNumber n => negb (n =? 0)
  | JsString s => negb (String.eqb s "")
  | JsObject _ => true
  end.

(** [ToNumber] of the values that convert without reading text: a number is
    itself, [null] is 0, [true] is 1 and [false] is 0. *)
Definition plainNumber (v : JsValue) : option Z :=
  match v with
  | JsNumber n => Some n
  | JsNull => Some 0
  | JsBool b => Some (if b then 1 else 0)
  | JsUndefined | JsString _ | JsObject _ => None
  end.

(** [a > b].  Two values that convert without reading text compare as
    numbers.  [undefined] converts to NaN, and a comparison with NaN is
    false, whatever primitive the other operand is.  Where a string takes part
    with anything but [undefined], or an array or an object with anything,
    the answer is the engine's; [None]: the comparison throws. *)
Definition greaterThan (a b : JsValue) : option bool :=
  match plainNumber a, plainNumber b with
  | Some x, Some y => Some (x >? y)
  | _, _ =>
      match a, b with
      | JsObject _, _ | _, JsObject _ => compareOther env a b
      | JsUndefined, _ | _, JsUndefined => Some false
      | _, _ => compareOther env a b
      end
  end.

(** The body of the loop of [parseLines].  An array or an object as
    [sessionId] is a new key each time; what the comparison throws is caught
    with the rest. *)
Definition parseLine (entries : list (JsValue * KeptLine)) (l : string)
    : list (JsValue * KeptLine) :=
  if Js.isBlank l then entries
  else
    match parseHistoryLine env l with
    | None => entries
    | Some entry =>
        if truthyValue (sessionId entry) then
          let fresh := {| kept_line := l; kept_timestamp := timestamp entry |} in
          match sessionId entry with
          | JsObject _ => entries ++ [(JsObject (length entries), fresh)]
          | id =>
              match JsAnyMap.get id entries with
              | None => JsAnyMap.set id fresh entries
              | Some existing =>
                  match greaterThan (timestamp entry) (kept_timestamp existing) with
                  | Some true => JsAnyMap.set id fresh entries
                  | Some false => entries
                  | None => entries
                  end
              end
          end
        else entries
    end.

Definition parseLines (content : string) (entries : list (JsValue * KeptLine))
    : list (JsValue * KeptLine) :=
  fold_left parseLine (Js.split "010"%char content) entries.

(** The number that the comparator of the sort reads a time stamp as. *)
Definition numberOf (r : KeptLine) : Z := default 0 (plainNumber (kept_timestamp r)).

Fixpoint insertByTimestamp (r : KeptLine) (sorted : list KeptLine) : list KeptLine :=
  match sorted with
  | [] => [r]
  | r' :: rest =>
      if numberOf r' >? numberOf r then r' :: insertByTimestamp r rest
      else r :: r' :: rest
  end.

(** [records.sort((a, b) => b.timestamp - a.timestamp)].  Up to one record,
    nothing is compared.  When every time stamp converts without reading
    text, the comparator is consistent, and [Array.prototype.sort], which is
    stable, gives the result of inserting each record, from the right, before
    the first record that is not strictly newer.  Otherwise the difference
    can be NaN or throw, and the result is the engine's. *)
Definition sortByTimestampDesc (rs : list KeptLine) : Outcome (list KeptLine) :=
  match rs with
  | [] | [_] => Ok rs
  | _ =>
      if forallb (fun r => bool_decide (is_Some (plainNumber (kept_timestamp r)))) rs
      then Ok (foldr insertByTimestamp [] rs)
      else sortOther env rs
  end.

Definition mergeHistoryFiles (localContent remoteContent : string) : Outcome string :=
  let entries := parseLines remoteContent (parseLines localContent []) in
  match sortByTimestampDesc (JsAnyMap.values entries) with
  | Ok sorted => Ok (Js.join LF (map kept_line sorted) +:+ LF)
  | Throw e => Throw e
  end.

(** The loop [for (const host of hosts)] of [syncHistoryFile]. *)
Fixpoint mergeRemoteHistories (hosts : list string) (merged : string) : M World string :=
  match hosts with
  | [] => ret merged
  | host :: rest =>
      if String.eqb host (hostname env) then mergeRemoteHistories rest merged
      else
        let! merged' :=
          tryCatch
            (let! remoteContent :=
               onClient (WebDavClient.download ("/hosts/" +:+ host +:+ "/history.jsonl")) in
             outcome (mergeHistoryFiles merged remoteContent))
            (fun _ => ret merged) in
        mergeRemoteHistories rest merged'
  end.

Definition syncHistoryFile : M World unit :=
  let! c := gets client in
  if negb c then ret tt
  else if negb (truthy primaryDir) then ret tt
  else
    let localPath := path_join env (default "" primaryDir) "history.jsonl" in
    let! f := gets fs in
    let! localContent :=
      if Fs.existsSync f localPath then Fs.readFileSync f localPath else ret "" in
    tryCatch
      (when (negb (String.eqb localContent ""))
         (onClient (WebDavClient.upload (hostPrefix +:+ "/history.jsonl") localContent)) ;;
       let! hosts := listRemoteHosts in
       let! merged := mergeRemoteHistories hosts localContent in
       when (negb (String.eqb merged localContent)) (writeFileSync localPath merged))
      (fun _ => ret tt).

(** [JSON.parse(s)], throwing on malformed input. *)
Definition jsonParseNames {S} (s : string) : M S (gmap string string) :=
  match parseNames env s with
  | Some o => ret o
  | None => throw (Error "SyntaxError")
  end.

(** [{ ...local, ...remote }] *)
Definition spread (local remote : gmap string string) : gmap string string :=
  remote ∪ local.

Definition syncSessionNames : M World unit :=
  let! c := gets client in
  if negb c then ret tt
  else if negb (truthy primaryDir) then ret tt
  else
    let localPath := path_join env (default "" primaryDir) "session-names.json" in
    let! f := gets fs in
    let! localContent :=
      if Fs.existsSync f localPath then Fs.readFileSync f localPath else ret "{}" in
    tryCatch
      (let! remoteExists := onClient (WebDavClient.exists_ "/session-names.json") in
       if remoteExists then
         let! remoteContent := onClient (WebDavClient.download "/session-names.json") in
         let! local := jsonParseNames localContent in
         let! remote := jsonParseNames remoteContent in
         let merged := spread local remote in
         let mergedStr := stringifyNames env merged in
         writeFileSync localPath mergedStr ;;
         onClient (WebDavClient.upload "/session-names.json" mergedStr)
       else
         when (negb (String.eqb localContent "{}"))
           (onClient (WebDavClient.upload "/session-names.json" localContent)))
      (fun _ => ret tt).

Definition syncMetadata : M World unit :=
  let! c := gets client in
  if negb c then ret tt
  else
    uploadMachineDescriptor ;;
    downloadMachineDescriptors ;;
    syncHistoryFile ;;
    syncSessionNames.

(** *** Delete *)

Definition deletedRelativePath (filePath : string) : string :=
  let parts := Js.split "/"%char (Js.backslashToSlash filePath) in
  let fileName := Js.fromEnd 1 parts in
  let projectDir := Js.fromEnd 2 parts in
  "hosts/" +:+ hostname env +:+ "/projects/" +:+ projectDir +:+ "/" +:+ fileName.

Definition manifestSave : M World unit :=
  let! m := gets manifest in
  modify (set_savedManifest m).

Definition deleteRemote (filePath : string) : M World unit :=
  let! c := gets client in
  when (negb c) initialize ;;
  let! c := gets client in
  if negb c then ret tt
  else
    let relativePath := deletedRelativePath filePath in
    tryCatch (onClient (WebDavClient.delete ("/" +:+ relativePath))) (fun _ => ret tt) ;;
    modify (set_manifest (SyncManifest.removeEntry relativePath)) ;;
    manifestSave ;;
    let cachePath := path_join env (cacheDir env) relativePath in
    let! f := gets fs in
    when (Fs.existsSync f cachePath) (unlinkSync cachePath).

(** *** A cycle *)

Definition performSync : M World unit :=
  let! c := gets client in
  if negb c then throw (Error "Not initialized")
  else
    onClient (WebDavClient.mkdirp (hostPrefix +:+ "/projects")) ;;
    let! f := gets fs in
    let! t := dateNow in
    let localFiles := scanLocalFiles f t in
    let! myRemoteFiles := scanHostRemoteFiles (hostname env) in
    let! m := gets manifest in
    let uploadChanges := computeUploadChanges m localFiles myRemoteFiles in
    let! otherHosts := listRemoteHosts in
    let! downloadChanges := planDownloads otherHosts [] in
    forOf uploadChanges uploadFile ;;
    forOf downloadChanges downloadFile ;;
    syncMetadata.

Definition syncNow : M World unit :=
  let! locked := gets syncLock in
  if locked then ret tt
  else
    let! c := gets client in
    when (negb c) initialize ;;
    let! c := gets client in
    if negb c then ret tt
    else
      modify (set_syncLock true) ;;
      modify (set_status Syncing) ;;
      tryCatch
        (performSync ;;
         let! t := dateNow in
         modify (set_manifest (SyncManifest.setLastSyncTime t)) ;;
         manifestSave ;;
         modify (set_status Idle))
        (fun _ => modify (set_status Failed)) ;;
      modify (set_syncLock false).

End WithEnv.

End SyncService.

(** ** The session parser ([sessionParser.ts]) *)

Module SessionParser.

(** [/[A-Z]/] *)
Definition isUpper (a : ascii) : bool :=
  (65 <=? nat_of_ascii a)%nat && (nat_of_ascii a <=? 90)%nat.

(** [d.toLowerCase()] for one character; only the letters A to Z matter here. *)
Definition toLowerCase (a : ascii) : ascii :=
  if isUpper a then ascii_of_nat (nat_of_ascii a + 32) else a.

(** [s.replace(/[...]/g, c)] for a class of single characters. *)
Fixpoint replaceAll (test : ascii -> bool) (c : ascii) (s : string) : string :=
  match s with
  | EmptyString => EmptyString
  | String a s' => String (if test a then c else a) (replaceAll test c s')
  end.

(** [p.replace(/^([A-Z]):/, (_, d) => d.toLowerCase() + ':')] *)
Definition lowerDrive (p : string) : string :=
  match p with
  | String d (String c rest) =>
      if isUpper d && Ascii.eqb c ":" then String (toLowerCase d) (String c rest) else p
  | _ => p
  end.

Definition encodeProjectPath (p : string) : string :=
  replaceAll (fun a => Ascii.eqb a "_" || Ascii.eqb a ".") "-"
    (replaceAll (fun a => Ascii.eqb a "\" || Ascii.eqb a "/") "-"
       (replaceAll (fun a => Ascii.eqb a ":") "-" (lowerDrive p))).

Definition resolveProjectDisplay (rawDirName : string) : string :=
  let segments :=
    List.filter (fun s => negb (String.eqb s "")) (Js.split "-" rawDirName) in
  match segments with
  | [] => rawDirName
  | _ => List.last segments rawDirName
  end.

(** [inferPlatform(encoded)], [current] being [os.platform()]. *)
Definition inferPlatform (current encoded : string) : string :=
  if Js.startsWith "-Users-" encoded then "darwin"
  else if Js.startsWith "-home-" encoded then "linux"
  else match encoded with
       | String d rest =>
           if isUpper d && Js.startsWith "-Users-" rest then "win32" else current
       | EmptyString => current
       end.

(** [addRuntimeSource(dir, label, name, platform)] on the list that
    [getClaudeDirs()] returns, of which the service reads [dir] and [name]. *)
Definition addRuntimeSource (d : ClaudeDir) (dirs : list ClaudeDir) : list ClaudeDir :=
  if existsb (fun x => String.eqb (dir x) (dir d)) dirs then dirs else dirs ++ [d].

End SessionParser.

(** ** A small installation, for worked examples *)

Module Sample.

(** [path.join] and [path.dirname] on POSIX paths that need no normalising. *)
Definition join (a b : string) : string := a +:+ "/" +:+ b.

Definition dirname (p : string) : string :=
  Js.join "/" (removelast (Js.split "/"%char p)).

Definition quote : string := String "034"%char EmptyString.

(** The line [{"sessionId":"id","timestamp":ts}]. *)
Definition historyLine (id ts : string) : string :=
  "{" +:+ quote +:+ "sessionId" +:+ quote +:+ ":" +:+ quote +:+ id +:+ quote +:+ ","
  +:+ quote +:+ "timestamp" +:+ quote +:+ ":" +:+ ts +:+ "}".

(** The line [{"sessionId":"id"}], which has no time stamp. *)
Definition bareLine (id : string) : string :=
  "{" +:+ quote +:+ "sessionId" +:+ quote +:+ ":" +:+ quote +:+ id +:+ quote +:+ "}".

(** The line [{"sessionId":{},"timestamp":ts}], whose identifier is an
    object. *)
Definition objectLine (ts : string) : string :=
  "{" +:+ quote +:+ "sessionId" +:+ quote +:+ ":{},"
  +:+ quote +:+ "timestamp" +:+ quote +:+ ":" +:+ ts +:+ "}".

Fixpoint dropPrefix (p s : string) : option string :=
  match p, s with
  | EmptyString, _ => Some s
  | String a p', String b s' => if Ascii.eqb a b then dropPrefix p' s' else None
  | String _ _, EmptyString => None
  end.

Fixpoint untilQuote (s : string) : option (string * string) :=
  match s with
  | EmptyString => None
  | String a s' =>
      if Ascii.eqb a "034"%char then Some (EmptyString, s')
      else match untilQuote s' with
           | Some (w, rest) => Some (String a w, rest)
           | None => None
           end
  end.

Fixpoint digits (s : string) (acc : Z) : option Z :=
  match s with
  | EmptyString => None
  | String a s' =>
      match Ascii.is_nat a with
      | Some n => if String.eqb s' "}" then Some (acc * 10 + Z.of_nat n)
                  else digits s' (acc * 10 + Z.of_nat n)
      | None => None
      end
  end.

(** The rest of a line after its identifier: its time stamp, or the end of
    the object. *)
Definition readTimestamp (r : string) : option JsValue :=
  if String.eqb r "}" then Some JsUndefined
  else
    match dropPrefix ("," +:+ quote +:+ "timestamp" +:+ quote +:+ ":") r with
    | Some r3 =>
        match digits r3 0 with
        | Some ts => Some (JsNumber ts)
        | None => None
        end
    | None => None
    end.

(** [JSON.parse] on the lines that [historyLine] writes, on such lines
    without their time stamp, and on such lines with the empty object for
    their identifier; anything else is taken as malformed. *)
Definition readHistoryLine (l : string) : option HistoryEntry :=
  match dropPrefix ("{" +:+ quote +:+ "sessionId" +:+ quote +:+ ":") l with
  | Some r0 =>
      match dropPrefix "{}" r0 with
      | Some r2 =>
          match readTimestamp r2 with
          | Some ts => Some {| sessionId := JsObject 0; timestamp := ts |}
          | None => None
          end
      | None =>
          match dropPrefix quote r0 with
          | Some r1 =>
              match untilQuote r1 with
              | Some (id, r2) =>
                  match readTimestamp r2 with
                  | Some ts => Some {| sessionId := JsString id; timestamp := ts |}
                  | None => None
                  end
              | None => None
              end
          | None => None
          end
      end
  | None => None
  end.

(** A listing body with one name per line, a trailing slash marking a
    collection, stands for the multi-status XML. *)
Definition readListing (xml basePath : string) : list WebDavFileInfo :=
  map (fun n => {| path := n; size := 10; lastModified := Some 5000; etag := None;
                   isDirectory := Js.endsWith "/" n |})
      (List.filter (fun n => negb (String.eqb n "")) (Js.split "010"%char xml)).

(** Name documents: [a=x] stands for the object with the one key [a]. *)
Definition readNames (s : string) : option (gmap string string) :=
  if String.eqb s "{}" then Some ∅
  else match Js.split "="%char s with
       | [k; v] => Some {[ k := v ]}
       | _ => None
       end.

Definition writeNames (o : gmap string string) : string :=
  Js.join ";" (map (fun kv => fst kv +:+ "=" +:+ snd kv) (map_to_list o)).

Definition env : Env :=
  {| hostname := "H1"; platform := "linux"; cacheDir := "/cache/.claude";
     claudeDirs := [ {| dir := "/home/u/.claude"; name := None |} ];
     credentials := Some "Basic dTpw";
     path_join := join; path_dirname := dirname;
     parsePropfind := readListing;
     parseHistoryLine := readHistoryLine;
     compareOther := fun _ _ => Some false; sortOther := fun rs => Ok rs;
     parseNames := readNames; stringifyNames := writeNames;
     stringifyDescriptor := fun d => md_hostname d |}.

(** One project with a three-day-old session of 500 bytes, a session still
    being written, an empty one, an agent artifact and a stray text file. *)
Definition body500 : string := String.concat "" (repeat "0123456789" 50).

Definition disk : gmap string Node :=
  list_to_map
    [ ("/home/u/.claude/projects", Dir ["p1"; ".hidden"]);
      ("/home/u/.claude/projects/p1",
        Dir ["s1.jsonl"; "fresh.jsonl"; "empty.jsonl"; "agent-7.jsonl"; "notes.txt"]);
      ("/home/u/.claude/projects/.hidden", Dir ["h.jsonl"]);
      ("/home/u/.claude/projects/p1/s1.jsonl", File body500 1000);
      ("/home/u/.claude/projects/p1/fresh.jsonl", File "x" 259190000);
      ("/home/u/.claude/projects/p1/empty.jsonl", File "" 1000);
      ("/home/u/.claude/projects/p1/agent-7.jsonl", File "x" 1000);
      ("/home/u/.claude/projects/p1/notes.txt", File "x" 1000);
      ("/home/u/.claude/projects/.hidden/h.jsonl", File "x" 1000) ].

(** Three days after the epoch of the example. *)
Definition today : Z := 259200000.

Definition s1 : LocalFile :=
  {| fullPath := "/home/u/.claude/projects/p1/s1.jsonl"; lf_size := 500; lf_mtimeMs := 1000 |}.

(** A response with the given status and body. *)
Definition reply (st : Z) (txt : string) : WebDavClient.FetchResult :=
  WebDavClient.Answer
    {| WebDavClient.status := st; WebDavClient.statusText := ""; WebDavClient.text := txt |}.

(** A newly constructed client facing a transport that will give [net]. *)
Definition newClient (net : list WebDavClient.FetchResult) : WebDavClient.State :=
  WebDavClient.create "Basic dTpw" today net [].

(** A root whose name overrides say [b=y], facing a store that answers the
    probe with 207, the download with the document [a=x], and accepts the
    upload. *)
Definition namesWorld : World :=
  {| conn := newClient [reply 207 ""; reply 200 "a=x"; reply 201 ""];
     client := true;
     manifest := {| lastSyncTime := 0; files := ∅ |};
     savedManifest := {| lastSyncTime := 0; files := ∅ |};
     fs := <[ "/home/u/.claude/session-names.json" := File "b=y" 1000 ]> disk;
     fsWrites := [];
     status := Idle;
     syncLock := false |}.

(** Host H1 holds nothing of its own; its cache mirrors one session of H2.
    The store accepts the next request. *)
Definition mirrorWorld : World :=
  {| conn := newClient [reply 204 ""];
     client := true;
     manifest := {| lastSyncTime := 0; files := ∅ |};
     savedManifest := {| lastSyncTime := 0; files := ∅ |};
     fs := {[ "/cache/.claude/hosts/H2/projects/p2/s2.jsonl" := File "x" 1000 ]};
     fsWrites := [];
     status := Idle;
     syncLock := false |}.

(** Host H1 after one cycle that uploaded its session [s1]; the store no
    longer has the file. *)
Definition syncedWorld : World :=
  {| conn := newClient [reply 404 ""];
     client := true;
     manifest := {| lastSyncTime := 2000;
                    files := {[ "hosts/H1/projects/p1/s1.jsonl" :=
                                  {| me_size := 500; me_mtimeMs := 1000;
                                     me_syncedAt := 2000 |} ]} |};
     savedManifest := {| lastSyncTime := 2000; files := ∅ |};
     fs := disk;
     fsWrites := [];
     status := Idle;
     syncLock := false |}.

(** Host H1 with its one session, a history and name overrides, facing a
    store that holds nothing of H1 yet and lists the hosts H1 and H2: the
    answers are those to the requests of one cycle and of one deletion, in
    order. *)
Definition hostsListing : string := "H1/" +:+ String "010" "H2/".

Definition cycleWorld : World :=
  {| conn := newClient
       [reply 201 ""; reply 201 ""; reply 201 "";   (* the own folders *)
        reply 207 "";                               (* the own listing *)
        reply 207 hostsListing;
        reply 207 "";                               (* the listing of H2 *)
        reply 201 ""; reply 201 "";                 (* the folder and the file of s1 *)
        reply 201 "";                               (* the descriptor *)
        reply 207 hostsListing;
        reply 200 "H1"; reply 200 "H2";
        reply 201 "";                               (* the history *)
        reply 207 hostsListing;
        reply 404 "";                               (* H2 has no history *)
        reply 207 ""; reply 200 "a=x"; reply 201 "";   (* the name overrides *)
        reply 204 ""];                              (* the deletion *)
     client := true;
     manifest := {| lastSyncTime := 0; files := ∅ |};
     savedManifest := {| lastSyncTime := 0; files := ∅ |};
     fs := <[ "/home/u/.claude/session-names.json" := File "b=y" 1000 ]>
             (<[ "/home/u/.claude/history.jsonl" := File (historyLine "s1" "7") 1000 ]> disk);
     fsWrites := [];
     status := Idle;
     syncLock := false |}.




(** The same machine with synchronisation not configured. *)
Definition offline : Env :=
  {| hostname := "H1"; platform := "linux"; cacheDir := "/cache/.claude";
     claudeDirs := [ {| dir := "/home/u/.claude"; name := None |} ];
     credentials := None;
     path_join := join; path_dirname := dirname;
     parsePropfind := readListing;
     parseHistoryLine := readHistoryLine;
     compareOther := fun _ _ => Some false; sortOther := fun rs => Ok rs;
     parseNames := readNames; stringifyNames := writeNames;
     stringifyDescriptor := fun d => md_hostname d |}.

(** A world with no client yet. *)
Definition coldWorld : World :=
  {| conn := newClient [reply 201 ""];
     client := false;
     manifest := {| lastSyncTime := 0; files := ∅ |};
     savedManifest := {| lastSyncTime := 0; files := ∅ |};
     fs := disk;
     fsWrites := [];
     status := Idle;
     syncLock := false |}.

End Sample.

(** ** Vocabulary of the statements *)

(** Some change of the plan is for [p]. *)
Definition planned (p : string) (changes : list FileChange) : Prop :=
  ∃ c, In c changes ∧ relativePath c = p.

(** The test of [computeUploadChanges], as a function of one scanned file. *)
Definition uploadNeeded (m : ManifestData) (remoteFiles : list (string * WebDavFileInfo))
    (kv : string * LocalFile) : bool :=
  match JsMap.get (fst kv) remoteFiles, SyncManifest.getEntry (fst kv) m with
  | None, _ => true
  | Some _, None => true
  | Some _, Some e =>
      negb (lf_size (snd kv) =? me_size e) || (lf_mtimeMs (snd kv) >? me_mtimeMs e + 1000)
  end.

(** [file] is a regular file of the project directory [projectDir] of the
    local root [d]: a root other than the cache mirror, a directory listed
    under its [projects] folder whose name does not start with a dot, and a
    name listed in that directory. *)
Definition sessionFileAt (env : Env) (f : gmap string Node) (d : ClaudeDir)
    (projectDir file content : string) (mtime : Z) : Prop :=
  let projectsDir := path_join env (dir d) "projects" in
  let fullProjectDir := path_join env projectsDir projectDir in
  In d (claudeDirs env) ∧ dir d ≠ cacheDir env
  ∧ (∃ names, f !! projectsDir = Some (Dir names) ∧ In projectDir names)
  ∧ Js.startsWith "." projectDir = false
  ∧ (∃ names, f !! fullProjectDir = Some (Dir names) ∧ In file names)
  ∧ f !! path_join env fullProjectDir file = Some (File content mtime).

(** The four conditions of the scan, at time [t]. *)
Definition eligible (file content : string) (mtime t : Z) : Prop :=
  Js.endsWith ".jsonl" file = true
  ∧ Js.startsWith "agent-" file = false
  ∧ Z.of_nat (String.length content) ≠ 0
  ∧ 30000 ≤ t - mtime.

(** No [readdirSync] or [statSync] of the scan throws: what a listing names
    can be examined. *)
Definition scanReadable (env : Env) (f : gmap string Node) : Prop :=
  ∀ d, In d (claudeDirs env) → dir d ≠ cacheDir env →
    let projectsDir := path_join env (dir d) "projects" in
    ∀ node, f !! projectsDir = Some node →
      ∃ names, node = Dir names
        ∧ (∀ n, In n names → is_Some (f !! path_join env projectsDir n))
        ∧ (∀ n ns file, In n names →
             f !! path_join env projectsDir n = Some (Dir ns) →
             In file ns → SyncService.isSessionFileName file = true →
             is_Some (f !! path_join env (path_join env projectsDir n) file)).

(** [n], listed under [projectsDir], is a directory whose name does not start
    with a dot: the filter of [listProjectDirs]. *)
Definition trackedDir (env : Env) (f : gmap string Node) (projectsDir n : string) : bool :=
  match f !! path_join env projectsDir n with
  | Some (Dir _) => negb (Js.startsWith "." n)
  | _ => false
  end.











(** The state [throttle] leaves: a timer ran if the last request was too
    recent, and the clock was read into [lastRequestTime]. *)
Definition throttled (s : WebDavClient.State) : WebDavClient.State :=
  let elapsed := WebDavClient.now s - WebDavClient.lastRequestTime s in
  let s1 := if elapsed <? WebDavClient.minInterval s
            then exec (WebDavClient.sleep (WebDavClient.minInterval s - elapsed)) s
            else s in
  WebDavClient.set_lastRequestTime (fun _ => WebDavClient.now s1) s1.

(** The request that [request] hands to [fetch]. *)
Definition requestOf (s : WebDavClient.State) (m : WebDavClient.Method)
    (remotePath : string) (options : WebDavClient.Options) : WebDavClient.Request :=
  {| WebDavClient.method := m;
     WebDavClient.remotePath := WebDavClient.clean remotePath;
     WebDavClient.headers :=
       ("Authorization", WebDavClient.authHeader s) :: WebDavClient.opt_headers options;
     WebDavClient.body := WebDavClient.opt_body options |}.

(** The state after a 503 that is retried: the answer is consumed and
    logged, the pace is doubled up to 10 s, and the backoff timer has run. *)
Definition backedOff (s : WebDavClient.State) (rq : WebDavClient.Request)
    (r : WebDavClient.Response) (rest : list WebDavClient.FetchResult) (attempt : nat)
    : WebDavClient.State :=
  exec (WebDavClient.sleep (Z.min (3000 * 2 ^ Z.of_nat attempt) 30000))
    (WebDavClient.set_minInterval (fun i => Z.min (i * 2) 10000)
       (WebDavClient.set_trace (fun t => t ++ [WebDavClient.Fetch rq (WebDavClient.Answer r)])
          (WebDavClient.set_network (fun _ => rest) (throttled s)))).

(** The state after an answer that is handed to the caller. *)
Definition returned (s : WebDavClient.State) (rq : WebDavClient.Request)
    (r : WebDavClient.Response) (rest : list WebDavClient.FetchResult)
    : WebDavClient.State :=
  WebDavClient.set_trace (fun t => t ++ [WebDavClient.Fetch rq (WebDavClient.Answer r)])
    (WebDavClient.set_network (fun _ => rest) (throttled s)).

(** The state after a fetch that the transport rejects. *)
Definition rejected (s : WebDavClient.State) (rq : WebDavClient.Request) (e : JsError)
    : WebDavClient.State :=
  WebDavClient.set_trace (fun t => t ++ [WebDavClient.Fetch rq (WebDavClient.Rejected e)])
    (WebDavClient.set_network (fun n => tail n) (throttled s)).

(** A response with the given status. *)
Definition answer (st : Z) : WebDavClient.FetchResult :=
  WebDavClient.Answer
    {| WebDavClient.status := st; WebDavClient.statusText := ""; WebDavClient.text := "" |}.

(** An event of a call that talks to [p] with method [m]: a timer, or a
    fetch of that method and path. *)
Definition eventOf (m : WebDavClient.Method) (p : string) (ev : WebDavClient.Event) : Prop :=
  match ev with
  | WebDavClient.Sleep _ => True
  | WebDavClient.Fetch rq _ => WebDavClient.method rq = m ∧ WebDavClient.remotePath rq = p
  end.

(** An event that the retry loop went past: a timer, or a fetch answered 503. *)
Definition retried (ev : WebDavClient.Event) : Prop :=
  match ev with
  | WebDavClient.Sleep _ => True
  | WebDavClient.Fetch _ (WebDavClient.Answer r) => WebDavClient.status r = 503
  | WebDavClient.Fetch _ (WebDavClient.Rejected _) => False
  end.

(** The fetches of a trace. *)
Definition fetches (tr : list WebDavClient.Event)
    : list (WebDavClient.Request * WebDavClient.FetchResult) :=
  omap (fun ev => match ev with
                  | WebDavClient.Fetch rq res => Some (rq, res)
                  | WebDavClient.Sleep _ => None
                  end) tr.

(** The timers of a trace. *)
Definition sleeps (tr : list WebDavClient.Event) : list Z :=
  omap (fun ev => match ev with
                  | WebDavClient.Sleep ms => Some ms
                  | WebDavClient.Fetch _ _ => None
                  end) tr.

(** The backoff of [request] after the 503 of attempt [attempt]. *)
Definition backoffDelay (attempt : nat) : Z := Z.min (3000 * 2 ^ Z.of_nat attempt) 30000.

(** The pace after a 503 that is retried. *)
Definition slowDown (interval : Z) : Z := Z.min (interval * 2) 10000.

(** The state after the answers [rs], all of them retried, the first one at
    attempt [attempt]. *)
Fixpoint afterRetries (s : WebDavClient.State) (rq : WebDavClient.Request)
    (rs : list WebDavClient.Response) (rest : list WebDavClient.FetchResult)
    (attempt : nat) : WebDavClient.State :=
  match rs with
  | [] => s
  | r :: rs' =>
      afterRetries (backedOff s rq r (map WebDavClient.Answer rs' ++ rest) attempt)
        rq rs' rest (S attempt)
  end.

(** Each retried answer followed by its backoff timer. *)
Fixpoint retryEvents (rq : WebDavClient.Request) (rs : list WebDavClient.Response)
    (attempt : nat) : list WebDavClient.Event :=
  match rs with
  | [] => []
  | r :: rs' =>
      WebDavClient.Fetch rq (WebDavClient.Answer r)
      :: WebDavClient.Sleep (backoffDelay attempt)
      :: retryEvents rq rs' (S attempt)
  end.

(** The ancestors of a directory, nearest the root first: [current/p1],
    [current/p1/p2], ... *)
Fixpoint prefixesFrom (current : string) (parts : list string) : list string :=
  match parts with
  | [] => []
  | part :: parts' =>
      let current := current +:+ "/" +:+ part in
      current :: prefixesFrom current parts'
  end.

(** What [mkdirp] does for one ancestor: nothing if it is known to exist,
    else an MKCOL, recorded as known once it has succeeded. *)
Definition ensureDir (d : string) : M WebDavClient.State unit :=
  let! known := gets WebDavClient.knownDirs in
  if decide (d ∈ known) then ret tt
  else
    WebDavClient.mkdir d ;;
    modify (WebDavClient.set_knownDirs (fun k => k ∪ {[d]})).

(** An MKCOL sent for [d]. *)
Definition mkcolTo (d : string) (ev : WebDavClient.Event) : Prop :=
  match ev with
  | WebDavClient.Fetch rq _ =>
      WebDavClient.method rq = WebDavClient.MKCOL ∧ WebDavClient.remotePath rq = d
  | WebDavClient.Sleep _ => False
  end.

(** An MKCOL for [d] that the server answered with a status [mkdir] takes as
    success: 405, or anything below 400. *)
Definition created (d : string) (ev : WebDavClient.Event) : Prop :=
  match ev with
  | WebDavClient.Fetch rq (WebDavClient.Answer r) =>
      WebDavClient.method rq = WebDavClient.MKCOL ∧ WebDavClient.remotePath rq = d
      ∧ (WebDavClient.status r < 400 ∨ WebDavClient.status r = 405)
  | _ => False
  end.

(** The number of MKCOL requests sent for [d]. *)
Definition mkcolCount (d : string) (tr : list WebDavClient.Event) : nat :=
  length (List.filter
            (fun ev => match ev with
                       | WebDavClient.Fetch rq _ =>
                           match WebDavClient.method rq with
                           | WebDavClient.MKCOL => String.eqb (WebDavClient.remotePath rq) d
                           | _ => false
                           end
                       | WebDavClient.Sleep _ => false
                       end) tr).

(** The calls the orchestrator makes on its client. *)
Inductive Call :=
| CallMkdirp (remotePath : string)
| CallUpload (remotePath content : string)
| CallDownload (remotePath : string)
| CallDelete (remotePath : string)
| CallExists (remotePath : string)
| CallList (remotePath : string).

(** The client after a call; a call that throws leaves the state it reached. *)
Definition runCall (parse : string -> string -> list WebDavFileInfo) (c : Call)
    (s : WebDavClient.State) : WebDavClient.State :=
  match c with
  | CallMkdirp p => exec (WebDavClient.mkdirp p) s
  | CallUpload p content => exec (WebDavClient.upload p content) s
  | CallDownload p => exec (WebDavClient.download p) s
  | CallDelete p => exec (WebDavClient.delete p) s
  | CallExists p => exec (WebDavClient.exists_ p) s
  | CallList p => exec (WebDavClient.list_ parse p) s
  end.

Definition runCalls (parse : string -> string -> list WebDavFileInfo) (cs : list Call)
    (s : WebDavClient.State) : WebDavClient.State :=
  fold_left (fun s c => runCall parse c s) cs s.

(** The session invariant of directory creation: a directory whose MKCOL
    succeeded is known, and no MKCOL for it follows the one that succeeded. *)
Definition onceCreated (s : WebDavClient.State) : Prop :=
  (∀ d ev, In ev (WebDavClient.trace s) → created d ev → d ∈ WebDavClient.knownDirs s)
  ∧ (∀ d pre ev post, WebDavClient.trace s = pre ++ ev :: post → created d ev →
       Forall (fun e => ¬ mkcolTo d e) post).

(** A line that [parseLines] passes over: it is blank, [JSON.parse] fails on
    it, or its [sessionId] is missing, null, false, zero or empty. *)
Definition skipped (env : Env) (l : string) : Prop :=
  Js.isBlank l = true ∨ parseHistoryLine env l = None
  ∨ ∃ entry, parseHistoryLine env l = Some entry
             ∧ SyncService.truthyValue (sessionId entry) = false.

(** What a line of a history file reads as under the types the code declares
    (a [Map<string, { line: string; timestamp: number }>]): its session
    identifier, a string that is not empty, and its record, whose time stamp
    is a number. *)
Definition readEntry (env : Env) (l : string) : option (string * HistoryRecord) :=
  if Js.isBlank l then None
  else match parseHistoryLine env l with
       | Some {| sessionId := JsString id; timestamp := JsNumber ts |} =>
           if String.eqb id "" then None
           else Some (id, {| line := l; hr_timestamp := ts |})
       | _ => None
       end.

(** A line as the declared types have it: one that is passed over, or one
    whose [sessionId] is a string and whose [timestamp] is a number. *)
Definition typedLine (env : Env) (l : string) : bool :=
  Js.isBlank l
  || match parseHistoryLine env l with
     | None => true
     | Some entry =>
         negb (SyncService.truthyValue (sessionId entry))
         || match sessionId entry, timestamp entry with
            | JsString _, JsNumber _ => true
            | _, _ => false
            end
     end.

(** A history text all of whose lines are as the declared types have them. *)
Definition wellTyped (env : Env) (content : string) : Prop :=
  forallb (typedLine env) (Js.split "010"%char content) = true.

(** The typed entries of a history file, in line order. *)
Definition validEntries (env : Env) (content : string) : list (string * HistoryRecord) :=
  omap (readEntry env) (Js.split "010"%char content).

(** A record as a value of the [entries] map, and an entry as a pair of it. *)
Definition keptOf (r : HistoryRecord) : KeptLine :=
  {| kept_line := line r; kept_timestamp := JsNumber (hr_timestamp r) |}.

Definition rawOf (kv : string * HistoryRecord) : JsValue * KeptLine :=
  (JsString (fst kv), keptOf (snd kv)).

(** The update of [entries] by one entry: a new identifier is added, a known
    one is replaced only by a strictly newer record. *)
Definition upsert (entries : list (string * HistoryRecord)) (kv : string * HistoryRecord)
    : list (string * HistoryRecord) :=
  match JsMap.get (fst kv) entries with
  | None => JsMap.set (fst kv) (snd kv) entries
  | Some existing =>
      if hr_timestamp (snd kv) >? hr_timestamp existing
      then JsMap.set (fst kv) (snd kv) entries
      else entries
  end.

(** In the sequence [es], [r] is the record of [id] with the greatest time
    stamp, the first such in the order of [es]. *)
Definition newestOf (id : string) (r : HistoryRecord) (es : list (string * HistoryRecord))
    : Prop :=
  ∃ pre post, es = pre ++ (id, r) :: post
    ∧ (∀ r', In (id, r') pre → hr_timestamp r' < hr_timestamp r)
    ∧ (∀ r', In (id, r') post → hr_timestamp r' ≤ hr_timestamp r).

(** The text [mergeHistoryFiles] writes for the records [rs]. *)
Definition historyText (rs : list HistoryRecord) : string :=
  Js.join SyncService.LF (map line rs) +:+ SyncService.LF.

(** The merge as the design document words it: every source is parsed, in
    order, into one mapping from session identifier to record. *)
Definition mergeInOnePass (env : Env) (sources : list string)
    : list (JsValue * KeptLine) :=
  fold_left (fun entries content => SyncService.parseLines env content entries) sources [].

(** The sort of [mergeHistoryFiles] on records whose time stamps are
    numbers: each record, from the right, goes before the first record that
    is not strictly newer. *)
Fixpoint insertRecord (r : HistoryRecord) (sorted : list HistoryRecord) : list HistoryRecord :=
  match sorted with
  | [] => [r]
  | r' :: rest =>
      if hr_timestamp r' >? hr_timestamp r then r' :: insertRecord r rest
      else r :: r' :: rest
  end.

Definition sortRecords (rs : list HistoryRecord) : list HistoryRecord :=
  foldr insertRecord [] rs.

(** The text of the merge of two history texts of typed lines. *)
Definition mergedText (env : Env) (localContent remoteContent : string) : string :=
  historyText
    (sortRecords
       (JsMap.values
          (fold_left upsert (validEntries env localContent ++ validEntries env remoteContent)
             []))).

(** What one remote history that was fetched does to the merged text in the
    loop of [syncHistoryFile]: when the merge throws, the [catch] of the loop
    keeps the text as it was. *)
Definition mergeOrKeep (env : Env) (merged remoteContent : string) : string :=
  match SyncService.mergeHistoryFiles env merged remoteContent with
  | Ok text => text
  | Throw _ => merged
  end.

(** The same sort, carried out on the entries of the map rather than on
    their records alone. *)
Fixpoint insertEntry (kv : string * HistoryRecord) (sorted : list (string * HistoryRecord))
    : list (string * HistoryRecord) :=
  match sorted with
  | [] => [kv]
  | kv' :: rest =>
      if hr_timestamp (snd kv') >? hr_timestamp (snd kv) then kv' :: insertEntry kv rest
      else kv :: kv' :: rest
  end.

Definition sortEntries (es : list (string * HistoryRecord)) : list (string * HistoryRecord) :=
  foldr insertEntry [] es.

(** Newest first. *)
Definition newerFirst (a b : HistoryRecord) : Prop := hr_timestamp b ≤ hr_timestamp a.

(** An entry is what its own line reads as, and its line has no line feed. *)
Definition genuine (env : Env) (kv : string * HistoryRecord) : Prop :=
  readEntry env (line (snd kv)) = Some kv ∧ Js.lacks "010"%char (line (snd kv)) = true.

(** The entries behind a merged text: one per identifier, newest first, each
    readable back from its line. *)
Definition settled (env : Env) (es : list (string * HistoryRecord)) : Prop :=
  NoDup (JsMap.keys es) ∧ Forall (genuine env) es
  ∧ StronglySorted newerFirst (map snd es).

(** The map [m] has, for every entry of [es], a record at least as new. *)
Definition covers (m es : list (string * HistoryRecord)) : Prop :=
  ∀ id r', In (id, r') es →
    ∃ r, JsMap.get id m = Some r ∧ hr_timestamp r' ≤ hr_timestamp r.

(** The test of the download loop of [performSync], as a function of one
    listed file. *)
Definition downloadNeeded (env : Env) (f : gmap string Node) (m : ManifestData)
    (kv : string * WebDavFileInfo) : bool :=
  negb (Fs.existsSync f (path_join env (cacheDir env) (fst kv)))
  || match SyncManifest.getEntry (fst kv) m with
     | Some e => SyncService.remoteNewer (snd kv) e
     | None => true
     end.




(** The value of the last pair of [kvs] whose key is [k]. *)
Definition lastWith {V} (k : string) (kvs : list (string * V)) : option V :=
  JsMap.get k (rev kvs).










(** A store path under this machine's prefix [/hosts/{hostname}]. *)
Definition ownPath (env : Env) (p : string) : Prop :=
  Js.startsWith (SyncService.hostPrefix env +:+ "/") p = true.

(** A relative path under this machine's [projects] folder. *)
Definition ownSession (env : Env) (rel : string) : Prop :=
  Js.startsWith ("hosts/" +:+ hostname env +:+ "/projects/") rel = true.

(** [d] is one of the collections that [mkdirp p] goes through: an ancestor
    of [p], or [p] itself. *)
Definition ancestorOf (d p : string) : Prop :=
  In d (prefixesFrom "" (Js.segments p)).

(** What the service may send.  A document is put under the machine's own
    prefix or at [/session-names.json]; a deletion is under the own prefix; a
    collection is made on the way to the own [projects] folder or to the
    folder of an own session file; reads go anywhere. *)
Definition confined (env : Env) (ev : WebDavClient.Event) : Prop :=
  match ev with
  | WebDavClient.Sleep _ => True
  | WebDavClient.Fetch rq _ =>
      match WebDavClient.method rq with
      | WebDavClient.PUT =>
          ownPath env (WebDavClient.remotePath rq)
          ∨ WebDavClient.remotePath rq = "/session-names.json"
      | WebDavClient.DELETE => ownPath env (WebDavClient.remotePath rq)
      | WebDavClient.MKCOL =>
          ancestorOf (WebDavClient.remotePath rq) (SyncService.hostPrefix env +:+ "/projects")
          ∨ ∃ rel, ownSession env rel
                   ∧ ancestorOf (WebDavClient.remotePath rq) ("/" +:+ path_dirname env rel)
      | WebDavClient.GET | WebDavClient.PROPFIND => True
      end
  end.

(** A timer. *)
Definition isSleep (ev : WebDavClient.Event) : Prop :=
  match ev with WebDavClient.Sleep _ => True | WebDavClient.Fetch _ _ => False end.

(** The world once a command has made sure of its client: as it was if the
    client is there, else as [initialize] leaves it. *)
Definition ready (env : Env) (w : World) : World :=
  if client w then w else exec (SyncService.initialize env) w.

(** What the extension asks of the service. *)
Inductive Command :=
| SyncNow
| DeleteRemote (filePath : string).

(** The world after a command; a command that throws leaves the world it
    reached. *)
Definition runCommand (env : Env) (c : Command) (w : World) : World :=
  match c with
  | SyncNow => exec (SyncService.syncNow env) w
  | DeleteRemote filePath => exec (SyncService.deleteRemote env filePath) w
  end.

Definition runCommands (env : Env) (cs : list Command) (w : World) : World :=
  fold_left (fun w c => runCommand env c w) cs w.

(** * Properties *)

#[local] Arguments Js.startsWith : simpl never.
#[local] Arguments Js.endsWith : simpl never.
#[local] Arguments String.append : simpl never.

(** ** Insertion-ordered maps *)

Section JsMapFacts.
Context {V : Type}.
Implicit Types (m : list (string * V)) (k : string) (v : V).

Lemma JsMap_get_set_eq m k v : JsMap.get k (JsMap.set k v m) = Some v.
Proof.
  induction m as [|[k' v'] m IH]; simpl.
  - by rewrite String.eqb_refl.
  - destruct (String.eqb k k') eqn:E; simpl; rewrite ?String.eqb_refl, ?E; done.
Qed.

Lemma JsMap_get_set_ne m k k' v : k ≠ k' → JsMap.get k' (JsMap.set k v m) = JsMap.get k' m.
Proof.
  intros Hne. induction m as [|[k0 v0] m IH]; simpl.
  - apply String.eqb_neq in Hne. rewrite String.eqb_sym in Hne. by rewrite Hne.
  - destruct (String.eqb k k0) eqn:E; simpl.
    + apply String.eqb_eq in E as <-.
      assert (String.eqb k' k = false) as -> by (apply String.eqb_neq; congruence).
      done.
    + by rewrite IH.
Qed.

Lemma JsMap_get_None m k : JsMap.get k m = None ↔ ¬ In k (JsMap.keys m).
Proof.
  induction m as [|[k' v'] m IH]; simpl; [tauto|].
  destruct (String.eqb k k') eqn:E.
  - apply String.eqb_eq in E as ->. split; [done|]. intros H. destruct H. by left.
  - apply String.eqb_neq in E. rewrite IH. split.
    + intros H [?|?]; [congruence|done].
    + intros H ?. apply H. by right.
Qed.

Lemma JsMap_get_Some_In m k v : JsMap.get k m = Some v → In (k, v) m.
Proof.
  induction m as [|[k' v'] m IH]; simpl; [done|].
  destruct (String.eqb k k') eqn:E.
  - apply String.eqb_eq in E as ->. intros [= ->]. by left.
  - intros H. right. by apply IH.
Qed.

Lemma JsMap_In_keys m k v : In (k, v) m → In k (JsMap.keys m).
Proof. intros H. change k with (fst (k, v)). by apply in_map. Qed.

Lemma JsMap_In_get m k v : NoDup (JsMap.keys m) → In (k, v) m → JsMap.get k m = Some v.
Proof.
  induction m as [|[k' v'] m IH]; simpl; [done|].
  intros [Hk Hnd]%NoDup_cons [Heq|Hin].
  - injection Heq as -> ->. by rewrite String.eqb_refl.
  - destruct (String.eqb k k') eqn:E.
    + apply String.eqb_eq in E as ->. exfalso. apply Hk, list_elem_of_In.
      by eapply JsMap_In_keys.
    + by apply IH.
Qed.

Lemma JsMap_keys_set m k v :
  JsMap.keys (JsMap.set k v m) =
  if bool_decide (k ∈ JsMap.keys m) then JsMap.keys m else JsMap.keys m ++ [k].
Proof.
  induction m as [|[k' v'] m IH]; simpl.
  - done.
  - destruct (String.eqb k k') eqn:E; simpl.
    + apply String.eqb_eq in E as ->. rewrite bool_decide_eq_true_2; [done|left].
    + apply String.eqb_neq in E. rewrite IH.
      destruct (bool_decide (k ∈ JsMap.keys m)) eqn:B.
      * apply bool_decide_eq_true_1 in B. rewrite bool_decide_eq_true_2; [done|by right].
      * apply bool_decide_eq_false_1 in B.
        rewrite bool_decide_eq_false_2; [done|]. rewrite not_elem_of_cons. done.
Qed.

Lemma JsMap_NoDup_set m k v : NoDup (JsMap.keys m) → NoDup (JsMap.keys (JsMap.set k v m)).
Proof.
  intros H. rewrite JsMap_keys_set. case_bool_decide as B; [done|].
  apply NoDup_app. split_and!; [done| |apply NoDup_singleton].
  intros x Hx ->%list_elem_of_singleton. done.
Qed.

End JsMapFacts.

(** ** Maps filled in a loop *)

Section SetAll.
Context {V : Type}.
Implicit Types (m kvs : list (string * V)) (k : string) (v : V).



Lemma lastWith_snoc k kvs k' v' :
  lastWith k (kvs ++ [(k', v')]) = if String.eqb k k' then Some v' else lastWith k kvs.
Proof. unfold lastWith. by rewrite rev_app_distr. Qed.





(** The last pair with a key: no pair after it has the key. *)
Lemma lastWith_split k v kvs :
  lastWith k kvs = Some v ↔
  ∃ pre post, kvs = pre ++ (k, v) :: post ∧ ¬ In k (JsMap.keys post).
Proof.
  induction kvs as [|[k' v'] kvs IH] using rev_ind.
  - split; [done|]. intros (pre & post & E & _). by destruct pre.
  - rewrite lastWith_snoc. destruct (String.eqb k k') eqn:E.
    + apply String.eqb_eq in E as <-. split.
      * intros [= <-]. exists kvs, []. split; [done|]. by intros [].
      * intros (pre & post & Heq & Hpost).
        destruct post as [|x post _] using rev_ind.
        -- apply app_inj_tail in Heq as [_ Heq]. congruence.
        -- exfalso. apply Hpost. rewrite app_comm_cons, app_assoc in Heq.
           apply app_inj_tail in Heq as [_ <-].
           unfold JsMap.keys. rewrite map_app. apply in_or_app. right. by left.
    + apply String.eqb_neq in E. rewrite IH. split.
      * intros (pre & post & -> & Hpost). exists pre, (post ++ [(k', v')]).
        rewrite <- app_assoc. split; [done|].
        unfold JsMap.keys. rewrite map_app. intros [?|[?|[]]]%in_app_or; [done|].
        simpl in *. congruence.
      * intros (pre & post & Heq & Hpost).
        destruct post as [|x post _] using rev_ind.
        -- apply app_inj_tail in Heq as [_ Heq]. congruence.
        -- rewrite app_comm_cons, app_assoc in Heq.
           apply app_inj_tail in Heq as [-> <-]. exists pre, post. split; [done|].
           intros Hin. apply Hpost. unfold JsMap.keys. rewrite map_app.
           apply in_or_app. by left.
Qed.

End SetAll.

(** ** Upload planning *)

Lemma planUpload_fold m remoteFiles localFiles changes :
  fold_left (SyncService.planUpload m remoteFiles) localFiles changes =
  changes ++ map (fun kv => SyncService.uploadOf (fst kv) (snd kv))
                 (List.filter (uploadNeeded m remoteFiles) localFiles).
Proof.
  revert changes. induction localFiles as [|[p local] L IH]; intros changes; simpl.
  - by rewrite app_nil_r.
  - rewrite IH. unfold uploadNeeded at 2. simpl.
    destruct (JsMap.get p remoteFiles); [|by rewrite <- app_assoc].
    destruct (SyncManifest.getEntry p m); [|by rewrite <- app_assoc].
    destruct (negb _ || _); [by rewrite <- app_assoc|done].
Qed.

Lemma computeUploadChanges_filter m localFiles remoteFiles :
  SyncService.computeUploadChanges m localFiles remoteFiles =
  map (fun kv => SyncService.uploadOf (fst kv) (snd kv))
      (List.filter (uploadNeeded m remoteFiles) localFiles).
Proof. unfold SyncService.computeUploadChanges. by rewrite planUpload_fold. Qed.

Lemma uploadNeeded_spec m remoteFiles p local :
  uploadNeeded m remoteFiles (p, local) = true ↔
  JsMap.get p remoteFiles = None
  ∨ SyncManifest.getEntry p m = None
  ∨ ∃ e, SyncManifest.getEntry p m = Some e
         ∧ (lf_size local ≠ me_size e ∨ lf_mtimeMs local > me_mtimeMs e + 1000).
Proof.
  unfold uploadNeeded. simpl.
  destruct (JsMap.get p remoteFiles) as [r|]; [|intuition].
  destruct (SyncManifest.getEntry p m) as [e|]; [|intuition].
  rewrite orb_true_iff, negb_true_iff, Z.eqb_neq, Z.gtb_ltb, Z.ltb_lt.
  split.
  - intros H. right. right. exists e. split; [done|]. destruct H; [by left|right; lia].
  - intros [?|[?|(e' & [= <-] & H)]]; [done..|]. destruct H; [by left|right; lia].
Qed.

(** C1. For every scanned file, [computeUploadChanges] plans an upload exactly
    when the remote listing has no counterpart, or the manifest has no entry
    for the path, or the recorded size differs, or the file's modification
    time is more than 1000 ms past the recorded one; the planned change is the
    upload of that very file; and a file with a remote counterpart whose size
    is the recorded one and whose modification time is within 1000 ms of the
    recorded one is not planned. *)
Theorem computeUploadChanges_plans_exactly_the_changed
    (m : ManifestData) (localFiles : list (string * LocalFile))
    (remoteFiles : list (string * WebDavFileInfo)) (p : string) (local : LocalFile) :
  NoDup (JsMap.keys localFiles) →
  In (p, local) localFiles →
  let changes := SyncService.computeUploadChanges m localFiles remoteFiles in
  (planned p changes ↔
     JsMap.get p remoteFiles = None
     ∨ SyncManifest.getEntry p m = None
     ∨ ∃ e, SyncManifest.getEntry p m = Some e
            ∧ (lf_size local ≠ me_size e ∨ lf_mtimeMs local > me_mtimeMs e + 1000))
  ∧ (∀ c, In c changes → relativePath c = p → c = SyncService.uploadOf p local)
  ∧ (∀ r e, JsMap.get p remoteFiles = Some r →
            SyncManifest.getEntry p m = Some e →
            lf_size local = me_size e →
            Z.abs (lf_mtimeMs local - me_mtimeMs e) ≤ 1000 →
            ¬ planned p changes).
Proof.
  intros Hnd Hin changes.
  assert (Hown : ∀ c, In c changes → relativePath c = p → c = SyncService.uploadOf p local).
  { intros c Hc Hp. unfold changes in Hc. rewrite computeUploadChanges_filter in Hc.
    apply in_map_iff in Hc as ([p' local'] & <- & Hf). simpl in *. subst p'.
    apply filter_In in Hf as [Hf _].
    pose proof (JsMap_In_get _ _ _ Hnd Hin) as E1.
    pose proof (JsMap_In_get _ _ _ Hnd Hf) as E2. congruence. }
  assert (Hiff : planned p changes ↔ uploadNeeded m remoteFiles (p, local) = true).
  { split.
    - intros (c & Hc & Hp). pose proof (Hown c Hc Hp) as ->.
      unfold changes in Hc. rewrite computeUploadChanges_filter in Hc.
      apply in_map_iff in Hc as ([p' local'] & Heq & Hf). simpl in *.
      apply filter_In in Hf as [Hf Hneed].
      assert (p' = p) as -> by (by injection Heq).
      pose proof (JsMap_In_get _ _ _ Hnd Hin) as E1.
      pose proof (JsMap_In_get _ _ _ Hnd Hf) as E2.
      assert (local' = local) as -> by congruence. done.
    - intros Hneed. exists (SyncService.uploadOf p local). split; [|done].
      unfold changes. rewrite computeUploadChanges_filter.
      apply in_map_iff. exists (p, local). split; [done|]. by apply filter_In. }
  split_and!; [|done|].
  - by rewrite Hiff, uploadNeeded_spec.
  - intros r e Hr He Hsz Habs. rewrite Hiff, uploadNeeded_spec.
    intros [?|[?|(e' & He' & H)]]; [congruence..|].
    assert (e' = e) as -> by congruence. destruct H; [done|lia].
Qed.

(** ** Reasoning about monadic code *)

(** [m] keeps [I], however it ends. *)
Definition preserves {S A} (I : S → Prop) (m : M S A) : Prop :=
  ∀ s, I s → I (exec m s).

(** [m] returns; it does not throw. *)
Definition returns {S A} (m : M S A) : Prop :=
  ∀ s, ∃ a, result m s = Ok a.

Ltac munfold :=
  unfold preserves, returns, exec, result, bind, ret, throw, tryCatch, gets, modify,
    when, withLocal, liftL, modifyL in *.

Section Hoare.
Context {S : Type}.
Implicit Types (I : S → Prop).

Lemma preserves_ret {A} I (a : A) : preserves I (ret a).
Proof. by munfold. Qed.

Lemma preserves_throw {A} I e : preserves I (@throw S A e).
Proof. by munfold. Qed.

Lemma preserves_outcome {A} I (o : Outcome A) : preserves I (outcome o).
Proof. by intros s Hs. Qed.

Lemma preserves_gets {A} I (f : S → A) : preserves I (gets f).
Proof. by munfold. Qed.

Lemma preserves_modify I (f : S → S) : (∀ s, I s → I (f s)) → preserves I (modify f).
Proof. munfold. simpl. auto. Qed.

Lemma preserves_bind {A B} I (m : M S A) (k : A → M S B) :
  preserves I m → (∀ a, preserves I (k a)) → preserves I (bind m k).
Proof.
  munfold. intros Hm Hk s Hs. specialize (Hm s Hs).
  destruct (m s) as [[a|e] s']; simpl in *; [by apply Hk|done].
Qed.

Lemma preserves_tryCatch {A} I (m : M S A) (h : JsError → M S A) :
  preserves I m → (∀ e, preserves I (h e)) → preserves I (tryCatch m h).
Proof.
  munfold. intros Hm Hh s Hs. specialize (Hm s Hs).
  destruct (m s) as [[a|e] s']; simpl in *; [done|by apply Hh].
Qed.

Lemma preserves_when I (b : bool) (m : M S unit) : preserves I m → preserves I (when b m).
Proof. intros H. destruct b; [done|apply preserves_ret]. Qed.

Lemma preserves_forOf {A} I (xs : list A) (body : A → M S unit) :
  (∀ x, In x xs → preserves I (body x)) → preserves I (forOf xs body).
Proof.
  induction xs as [|x xs IH]; intros H; simpl.
  - apply preserves_ret.
  - apply preserves_bind; [apply H; by left|]. intros _. apply IH.
    intros y Hy. apply H. by right.
Qed.

Lemma preserves_filterM {A} I (f : A → M S bool) (xs : list A) :
  (∀ x, preserves I (f x)) → preserves I (filterM f xs).
Proof.
  intros H. induction xs as [|x xs IH]; simpl.
  - apply preserves_ret.
  - apply preserves_bind; [apply H|]. intros keep.
    apply preserves_bind; [apply IH|]. intros rest. apply preserves_ret.
Qed.

(** A loop whose bodies all return reaches a state where [I] holds if one
    body establishes [I] and the others keep it. *)
Lemma forOf_establishes {A} I (xs : list A) (body : A → M S unit) (x0 : A) :
  (∀ x, In x xs → returns (body x)) →
  (∀ x, In x xs → preserves I (body x)) →
  In x0 xs →
  (∀ s, I (exec (body x0) s)) →
  ∀ s, I (exec (forOf xs body) s).
Proof.
  induction xs as [|x xs IH]; intros Hret Hpre Hin Hest s; [done|].
  simpl. unfold exec, bind.
  destruct (Hret x (or_introl eq_refl) s) as [[] Hx]. unfold result in Hx.
  destruct (body x s) as [r s1] eqn:E. simpl in Hx. subst r.
  destruct Hin as [->|Hin].
  - assert (I s1) as Hs1 by (specialize (Hest s); unfold exec in Hest; by rewrite E in Hest).
    apply (preserves_forOf I xs body); [|done].
    intros y Hy. apply Hpre. by right.
  - apply IH; [| |done|done]; intros y Hy; [apply Hret|apply Hpre]; by right.
Qed.

Lemma returns_forOf {A} (xs : list A) (body : A → M S unit) :
  (∀ x, In x xs → returns (body x)) → returns (forOf xs body).
Proof.
  induction xs as [|x xs IH]; intros H s; simpl.
  - by exists tt.
  - unfold result, bind. destruct (H x (or_introl eq_refl) s) as [[] Hx].
    unfold result in Hx. destruct (body x s) as [r s1]. simpl in Hx. subst r.
    apply IH. intros y Hy. apply H. by right.
Qed.

End Hoare.

(** ** The local scan *)

Section ScanLocal.
Variable env : Env.
Variable f : gmap string Node.
Variable t : Z.

(** What every entry of the scan's map is. *)
Definition scanned (kv : string * LocalFile) : Prop :=
  ∃ d projectDir file content mtime,
    sessionFileAt env f d projectDir file content mtime
    ∧ eligible file content mtime t
    ∧ fst kv = SyncService.localRelativePath env projectDir file
    ∧ snd kv =
        {| fullPath := path_join env (path_join env (path_join env (dir d) "projects")
                                        projectDir) file;
           lf_size := Z.of_nat (String.length content);
           lf_mtimeMs := mtime |}.

Lemma JsMap_In_set {V} (m : list (string * V)) k v x :
  In x (JsMap.set k v m) → x = (k, v) ∨ In x m.
Proof.
  induction m as [|[k' v'] m IH]; simpl.
  - intros [<-|[]]. by left.
  - destruct (String.eqb k k'); simpl.
    + intros [<-|?]; [by left|right; by right].
    + intros [<-|H]; [right; by left|]. destruct (IH H); [by left|right; by right].
Qed.

Lemma scanSessionFile_sound d projectDir names file :
  In d (claudeDirs env) → dir d ≠ cacheDir env →
  (∃ ns, f !! path_join env (dir d) "projects" = Some (Dir ns) ∧ In projectDir ns) →
  Js.startsWith "." projectDir = false →
  f !! path_join env (path_join env (dir d) "projects") projectDir = Some (Dir names) →
  In file names → SyncService.isSessionFileName file = true →
  preserves (Forall scanned)
    (SyncService.scanSessionFile env f t
       (path_join env (path_join env (dir d) "projects") projectDir) projectDir file).
Proof.
  intros Hd Hne Hproj Hdot Hdir Hfile Hname s Hs.
  unfold SyncService.scanSessionFile, Fs.statSync. munfold.
  destruct (f !! path_join env _ file) as [[content mtime|?]|] eqn:E; simpl; try done.
  destruct (Z.of_nat (String.length content) =? 0) eqn:Esz; simpl; [done|].
  destruct (t - mtime <? 30000) eqn:Eage; simpl; [done|].
  apply List.Forall_forall. intros x [->|Hx]%JsMap_In_set;
    [|by eapply List.Forall_forall in Hs].
  apply andb_true_iff in Hname as [Hjsonl Hagent]. apply negb_true_iff in Hagent.
  exists d, projectDir, file, content, mtime. split_and!; try done.
  - unfold sessionFileAt. split_and!; try done. by exists names.
  - unfold eligible. split_and!; try done; lia.
Qed.

Lemma scanProjectDir_sound d projectDir :
  In d (claudeDirs env) → dir d ≠ cacheDir env →
  (∃ ns, f !! path_join env (dir d) "projects" = Some (Dir ns) ∧ In projectDir ns) →
  Js.startsWith "." projectDir = false →
  preserves (Forall scanned)
    (SyncService.scanProjectDir env f t (path_join env (dir d) "projects") projectDir).
Proof.
  intros Hd Hne Hproj Hdot. unfold SyncService.scanProjectDir, Fs.readdirSync.
  destruct (f !! path_join env _ projectDir) as [[?|names]|] eqn:E;
    [by munfold| |by munfold].
  assert (preserves (Forall scanned)
    (forOf (List.filter SyncService.isSessionFileName names)
       (SyncService.scanSessionFile env f t
          (path_join env (path_join env (dir d) "projects") projectDir) projectDir))) as H.
  { apply preserves_forOf. intros file [Hin Hn]%filter_In.
    by eapply scanSessionFile_sound. }
  intros s Hs. unfold exec, bind, ret in *. simpl. by apply H.
Qed.

Lemma filterM_tracked {S} projectsDir names (s : S) :
  let m := filterM (fun d =>
             let! st := Fs.statSync f (path_join env projectsDir d) in
             ret (st_isDirectory st && negb (Js.startsWith "." d))) names in
  exec m s = s
  ∧ (∀ l, result m s = Ok l → l = List.filter (trackedDir env f projectsDir) names)
  ∧ ((∀ n, In n names → is_Some (f !! path_join env projectsDir n)) →
     result m s = Ok (List.filter (trackedDir env f projectsDir) names)).
Proof.
  induction names as [|n names IH]; simpl.
  - split_and!; [done| |done]. by intros l [= <-].
  - destruct IH as (IH1 & IH2 & IH3).
    unfold exec, result, bind, ret, trackedDir, Fs.statSync in *.
    destruct (f !! path_join env projectsDir n) as [[c mt|ns]|] eqn:E; simpl.
    + destruct (filterM _ names s) as [[l|e] s']; simpl in *; subst.
      * split_and!; [done| |].
        -- intros l' [= <-]. by apply IH2.
        -- intros H. f_equal. apply IH2. done.
      * split_and!; [done|done|]. intros H.
        by assert (X := IH3 (fun n Hn => H n (or_intror Hn))).
    + destruct (filterM _ names s) as [[l|e] s']; simpl in *; subst.
      * split_and!; [done| |].
        -- intros l' [= <-]. destruct (Js.startsWith "." n); simpl; f_equal; by apply IH2.
        -- intros H. f_equal.
           destruct (Js.startsWith "." n); simpl; f_equal; by apply IH2.
      * split_and!; [done|done|]. intros H.
        by assert (X := IH3 (fun n Hn => H n (or_intror Hn))).
    + split_and!; [done|done|]. intros H.
      destruct (H n (or_introl eq_refl)) as [? ?]. congruence.
Qed.

Lemma listProjectDirs_state {S} projectsDir (s : S) :
  exec (SyncService.listProjectDirs env f projectsDir) s = s.
Proof.
  unfold SyncService.listProjectDirs, Fs.readdirSync.
  destruct (f !! projectsDir) as [[?|names]|]; try done.
  unfold exec, bind, ret. simpl. apply (filterM_tracked projectsDir names s).
Qed.

Lemma listProjectDirs_Ok {S} projectsDir (s : S) l :
  result (SyncService.listProjectDirs env f projectsDir) s = Ok l →
  ∃ names, f !! projectsDir = Some (Dir names)
           ∧ l = List.filter (trackedDir env f projectsDir) names.
Proof.
  unfold SyncService.listProjectDirs, Fs.readdirSync.
  destruct (f !! projectsDir) as [[?|names]|]; try done.
  unfold result, bind, ret. simpl. intros H. exists names. split; [done|].
  by apply (filterM_tracked projectsDir names s).
Qed.

Lemma listProjectDirs_readable {S} projectsDir names (s : S) :
  f !! projectsDir = Some (Dir names) →
  (∀ n, In n names → is_Some (f !! path_join env projectsDir n)) →
  result (SyncService.listProjectDirs env f projectsDir) s
  = Ok (List.filter (trackedDir env f projectsDir) names).
Proof.
  intros E H. unfold SyncService.listProjectDirs, Fs.readdirSync. rewrite E.
  unfold result, bind, ret. simpl. by apply (filterM_tracked projectsDir names s).
Qed.

Lemma trackedDir_spec projectsDir n :
  trackedDir env f projectsDir n = true ↔
  (∃ ns, f !! path_join env projectsDir n = Some (Dir ns)) ∧ Js.startsWith "." n = false.
Proof.
  unfold trackedDir. destruct (f !! _) as [[?|ns]|].
  - split; [done|]. by intros [[? ?] _].
  - rewrite negb_true_iff. split; [intros; split; eauto|tauto].
  - split; [done|]. by intros [[? ?] _].
Qed.

Lemma scanClaudeDir_sound d :
  In d (claudeDirs env) →
  preserves (Forall scanned) (SyncService.scanClaudeDir env f t d).
Proof.
  intros Hd. unfold SyncService.scanClaudeDir.
  destruct (String.eqb (dir d) (cacheDir env)) eqn:Ecache; [apply preserves_ret|].
  apply String.eqb_neq in Ecache.
  destruct (negb _); [apply preserves_ret|].
  intros s Hs. unfold exec, tryCatch, bind.
  pose proof (listProjectDirs_state (path_join env (dir d) "projects") s) as Hst.
  pose proof (listProjectDirs_Ok (path_join env (dir d) "projects") s) as Hok.
  unfold exec, result in Hst, Hok.
  destruct (SyncService.listProjectDirs env f _ s) as [[l|e] s1]; simpl in *; subst s1;
    [|done].
  destruct (Hok l eq_refl) as (names & Hnames & ->).
  assert (preserves (Forall scanned)
    (forOf (List.filter (trackedDir env f (path_join env (dir d) "projects")) names)
       (SyncService.scanProjectDir env f t (path_join env (dir d) "projects")))) as H.
  { apply preserves_forOf. intros projectDir [Hin Htr]%filter_In.
    apply trackedDir_spec in Htr as [_ Hdot].
    apply scanProjectDir_sound; eauto. }
  specialize (H s Hs). unfold exec in H.
  destruct (forOf _ _ s) as [[[]|e] s2]; done.
Qed.

Lemma scanLocalFiles_sound : Forall scanned (SyncService.scanLocalFiles env f t).
Proof.
  unfold SyncService.scanLocalFiles.
  apply (preserves_forOf (Forall scanned)); [|constructor].
  intros d Hd. by apply scanClaudeDir_sound.
Qed.

(** Keys are never removed from the map. *)
Lemma JsMap_keys_set_mono {V} (m : list (string * V)) k v p :
  In p (JsMap.keys m) → In p (JsMap.keys (JsMap.set k v m)).
Proof.
  intros H. rewrite JsMap_keys_set. case_bool_decide; [done|]. apply in_or_app. by left.
Qed.

Lemma JsMap_keys_set_in {V} (m : list (string * V)) k v :
  In k (JsMap.keys (JsMap.set k v m)).
Proof.
  rewrite JsMap_keys_set. case_bool_decide as B; [by apply list_elem_of_In|].
  apply in_or_app. right. by left.
Qed.

Definition hasKey (p : string) (s : list (string * LocalFile)) : Prop :=
  In p (JsMap.keys s).

Lemma scanSessionFile_mono p fullProjectDir projectDir file :
  preserves (hasKey p) (SyncService.scanSessionFile env f t fullProjectDir projectDir file).
Proof.
  unfold SyncService.scanSessionFile. apply preserves_bind.
  - unfold Fs.statSync. destruct (f !! _) as [[]|]; by munfold.
  - intros st. destruct (_ || _); [apply preserves_ret|].
    destruct (_ <? _); [apply preserves_ret|].
    apply preserves_modify. intros s. apply JsMap_keys_set_mono.
Qed.

Lemma scanProjectDir_mono p projectsDir projectDir :
  preserves (hasKey p) (SyncService.scanProjectDir env f t projectsDir projectDir).
Proof.
  unfold SyncService.scanProjectDir. apply preserves_bind.
  - unfold Fs.readdirSync. destruct (f !! _) as [[]|]; by munfold.
  - intros names. apply preserves_forOf. intros. apply scanSessionFile_mono.
Qed.

Lemma scanClaudeDir_mono p d :
  preserves (hasKey p) (SyncService.scanClaudeDir env f t d).
Proof.
  unfold SyncService.scanClaudeDir.
  destruct (String.eqb _ _); [apply preserves_ret|].
  destruct (negb _); [apply preserves_ret|].
  apply preserves_tryCatch; [|intros; apply preserves_ret].
  apply preserves_bind.
  - intros s Hs. by rewrite listProjectDirs_state.
  - intros l. apply preserves_forOf. intros. apply scanProjectDir_mono.
Qed.

Lemma scanClaudeDir_returns d : returns (SyncService.scanClaudeDir env f t d).
Proof.
  intros s. unfold SyncService.scanClaudeDir.
  destruct (String.eqb _ _); [by exists tt|].
  destruct (negb _); [by exists tt|].
  unfold result, tryCatch, ret.
  destruct (bind _ _ s) as [[[]|e] s']; by exists tt.
Qed.

Lemma scanSessionFile_returns fullProjectDir projectDir file :
  is_Some (f !! path_join env fullProjectDir file) →
  returns (SyncService.scanSessionFile env f t fullProjectDir projectDir file).
Proof.
  intros [node E] s. unfold SyncService.scanSessionFile, Fs.statSync. rewrite E.
  unfold result, bind, ret, modify.
  destruct node; simpl; [|by exists tt].
  destruct (_ =? 0); simpl; [by exists tt|].
  destruct (_ <? _); by exists tt.
Qed.

Lemma scanSessionFile_adds fullProjectDir projectDir file content mtime s :
  f !! path_join env fullProjectDir file = Some (File content mtime) →
  Z.of_nat (String.length content) ≠ 0 → 30000 ≤ t - mtime →
  hasKey (SyncService.localRelativePath env projectDir file)
    (exec (SyncService.scanSessionFile env f t fullProjectDir projectDir file) s).
Proof.
  intros E Hsz Hage. unfold SyncService.scanSessionFile, Fs.statSync. rewrite E.
  unfold exec, bind, ret, modify. simpl.
  apply Z.eqb_neq in Hsz. rewrite Hsz. simpl.
  assert ((t - mtime <? 30000) = false) as -> by (apply Z.ltb_ge; lia).
  simpl. apply JsMap_keys_set_in.
Qed.

Lemma scanProjectDir_adds d projectDir file content mtime s :
  scanReadable env f →
  sessionFileAt env f d projectDir file content mtime →
  eligible file content mtime t →
  hasKey (SyncService.localRelativePath env projectDir file)
    (exec (SyncService.scanProjectDir env f t (path_join env (dir d) "projects")
             projectDir) s)
  ∧ ∃ u, result (SyncService.scanProjectDir env f t (path_join env (dir d) "projects")
                   projectDir) s = Ok u.
Proof.
  intros Hread (Hd & Hne & (names & Hnames & Hpin) & Hdot & (ns & Hns & Hfin) & Hfile)
    (Hjsonl & Hagent & Hsz & Hage).
  destruct (Hread d Hd Hne _ Hnames) as (names' & [= <-] & Hstat & Hfiles).
  unfold SyncService.scanProjectDir, Fs.readdirSync. rewrite Hns.
  unfold exec, result, bind, ret. simpl.
  set (body := SyncService.scanSessionFile env f t
                 (path_join env (path_join env (dir d) "projects") projectDir) projectDir).
  assert (Hret : ∀ x, In x (List.filter SyncService.isSessionFileName ns) → returns (body x)).
  { intros x [Hx Hn]%filter_In. apply scanSessionFile_returns. eauto. }
  split.
  - apply (forOf_establishes (hasKey _) _ body file); [done| | |].
    + intros. apply scanSessionFile_mono.
    + apply filter_In. split; [done|]. unfold SyncService.isSessionFileName.
      by rewrite Hjsonl, Hagent.
    + intros s'. by eapply scanSessionFile_adds.
  - apply (returns_forOf _ body Hret s).
Qed.

Lemma scanProjectDir_returns d n names :
  scanReadable env f → In d (claudeDirs env) → dir d ≠ cacheDir env →
  f !! path_join env (dir d) "projects" = Some (Dir names) → In n names →
  trackedDir env f (path_join env (dir d) "projects") n = true →
  returns (SyncService.scanProjectDir env f t (path_join env (dir d) "projects") n).
Proof.
  intros Hread Hd Hne Hnames Hn [[ns Hns] Hdot]%trackedDir_spec s.
  destruct (Hread d Hd Hne _ Hnames) as (names' & [= <-] & Hstat & Hfiles).
  unfold SyncService.scanProjectDir, Fs.readdirSync. rewrite Hns.
  unfold result, bind, ret. simpl.
  apply (returns_forOf (List.filter SyncService.isSessionFileName ns)).
  intros x [Hx Hname]%filter_In. apply scanSessionFile_returns. eauto.
Qed.

Lemma scanClaudeDir_adds d projectDir file content mtime s :
  scanReadable env f →
  sessionFileAt env f d projectDir file content mtime →
  eligible file content mtime t →
  hasKey (SyncService.localRelativePath env projectDir file)
    (exec (SyncService.scanClaudeDir env f t d) s).
Proof.
  intros Hread Hat Hel.
  pose proof Hat as (Hd & Hne & (names & Hnames & Hpin) & Hdot & (ns & Hns & Hfin) & Hfile).
  destruct (Hread d Hd Hne _ Hnames) as (names' & [= <-] & Hstat & Hfiles).
  unfold SyncService.scanClaudeDir.
  apply String.eqb_neq in Hne. rewrite Hne.
  assert (Fs.existsSync f (path_join env (dir d) "projects") = true) as ->.
  { unfold Fs.existsSync. apply bool_decide_eq_true_2. by rewrite Hnames. }
  simpl. unfold exec, tryCatch, bind.
  pose proof (listProjectDirs_state (path_join env (dir d) "projects") s) as Hst.
  pose proof (listProjectDirs_readable (path_join env (dir d) "projects") names s
                Hnames Hstat) as Hok.
  unfold exec, result in Hst, Hok.
  destruct (SyncService.listProjectDirs env f _ s) as [r s1]; simpl in *; subst.
  set (body := SyncService.scanProjectDir env f t (path_join env (dir d) "projects")).
  set (tracked := List.filter _ names).
  assert (Hret : ∀ x, In x tracked → returns (body x)).
  { intros x [Hx Htr]%filter_In. apply String.eqb_neq in Hne.
    by eapply scanProjectDir_returns. }
  assert (Hkey : hasKey (SyncService.localRelativePath env projectDir file)
                   (exec (forOf tracked body) s)).
  { apply (forOf_establishes (hasKey _) _ body projectDir); [done| | |].
    - intros. apply scanProjectDir_mono.
    - apply filter_In. split; [done|]. apply trackedDir_spec. eauto.
    - intros s'. by apply (scanProjectDir_adds d projectDir file content mtime s'). }
  destruct (returns_forOf tracked body Hret s) as [u Hu].
  unfold exec in Hkey. unfold result in Hu.
  destruct (forOf tracked body s) as [r' s2]. simpl in *. by subst r'.
Qed.

Lemma scanLocalFiles_complete d projectDir file content mtime :
  scanReadable env f →
  sessionFileAt env f d projectDir file content mtime →
  eligible file content mtime t →
  In (SyncService.localRelativePath env projectDir file)
     (JsMap.keys (SyncService.scanLocalFiles env f t)).
Proof.
  intros Hread Hat Hel. unfold SyncService.scanLocalFiles.
  apply (forOf_establishes (hasKey _) _ (SyncService.scanClaudeDir env f t) d).
  - intros. apply scanClaudeDir_returns.
  - intros. apply scanClaudeDir_mono.
  - apply Hat.
  - intros s. by eapply scanClaudeDir_adds.
Qed.

Lemma scanLocalFiles_NoDup : NoDup (JsMap.keys (SyncService.scanLocalFiles env f t)).
Proof.
  unfold SyncService.scanLocalFiles.
  apply (preserves_forOf (fun s => NoDup (JsMap.keys s))); [|apply NoDup_nil_2].
  intros d _. unfold SyncService.scanClaudeDir.
  destruct (String.eqb _ _); [apply preserves_ret|].
  destruct (negb _); [apply preserves_ret|].
  apply preserves_tryCatch; [|intros; apply preserves_ret].
  apply preserves_bind; [intros s Hs; by rewrite listProjectDirs_state|].
  intros l. apply preserves_forOf. intros projectDir _.
  unfold SyncService.scanProjectDir. apply preserves_bind.
  { unfold Fs.readdirSync. destruct (f !! _) as [[]|]; by munfold. }
  intros names. apply preserves_forOf. intros file _.
  unfold SyncService.scanSessionFile. apply preserves_bind.
  { unfold Fs.statSync. destruct (f !! _) as [[]|]; by munfold. }
  intros st. destruct (_ || _); [apply preserves_ret|].
  destruct (_ <? _); [apply preserves_ret|].
  apply preserves_modify. intros s. apply JsMap_NoDup_set.
Qed.

End ScanLocal.

(** ** The local scan, file by file *)

Section Considered.
Variable env : Env.
Variable f : gmap string Node.
Variable t : Z.


Lemma existsSync_lookup p : Fs.existsSync f p = bool_decide (is_Some (f !! p)).
Proof. reflexivity. Qed.



















End Considered.

Example scanLocalFiles_sample :
  SyncService.scanLocalFiles Sample.env Sample.disk Sample.today
  = [("hosts/H1/projects/p1/s1.jsonl", Sample.s1)].
Proof. vm_compute. reflexivity. Qed.




Lemma computeUploadChanges_witness :
  NoDup (JsMap.keys [("hosts/H1/projects/p1/s1.jsonl", Sample.s1)])
  ∧ In ("hosts/H1/projects/p1/s1.jsonl", Sample.s1)
       [("hosts/H1/projects/p1/s1.jsonl", Sample.s1)]
  ∧ planned "hosts/H1/projects/p1/s1.jsonl"
      (SyncService.computeUploadChanges SyncManifest.empty
         [("hosts/H1/projects/p1/s1.jsonl", Sample.s1)] []).
Proof.
  assert (Hnd : NoDup (JsMap.keys [("hosts/H1/projects/p1/s1.jsonl", Sample.s1)])).
  { apply NoDup_singleton. }
  assert (Hin : In ("hosts/H1/projects/p1/s1.jsonl", Sample.s1)
                  [("hosts/H1/projects/p1/s1.jsonl", Sample.s1)]) by (by left).
  split_and!; [done..|].
  apply (proj1 (computeUploadChanges_plans_exactly_the_changed SyncManifest.empty
                  [("hosts/H1/projects/p1/s1.jsonl", Sample.s1)] []
                  "hosts/H1/projects/p1/s1.jsonl" Sample.s1 Hnd Hin)).
  by left.
Defined.

(** ** The remote store client *)

#[local] Arguments throttled : simpl never.
#[local] Arguments backedOff : simpl never.
#[local] Arguments returned : simpl never.
#[local] Arguments rejected : simpl never.

Ltac same_auth :=
  repeat match goal with
  | |- context [WebDavClient.authHeader (if ?c then ?a else ?s)] =>
      replace (WebDavClient.authHeader (if c then a else s))
        with (WebDavClient.authHeader s) by (destruct c; reflexivity)
  end.

Section Client.
Import WebDavClient.

Lemma throttle_run s : throttle s = (Ok tt, throttled s).
Proof.
  unfold throttle, throttled. munfold. simpl.
  destruct (now s - lastRequestTime s <? minInterval s); reflexivity.
Qed.

Lemma throttled_fields s :
  network (throttled s) = network s
  ∧ minInterval (throttled s) = minInterval s
  ∧ knownDirs (throttled s) = knownDirs s
  ∧ authHeader (throttled s) = authHeader s
  ∧ (trace (throttled s) = trace s
     ∨ trace (throttled s)
       = trace s ++ [Sleep (minInterval s - (now s - lastRequestTime s))]).
Proof.
  unfold throttled, sleep. munfold.
  destruct (now s - lastRequestTime s <? minInterval s); simpl; auto 10.
Qed.

(** After [throttle], at least [minInterval] has passed since the last request. *)
Lemma throttle_spacing s :
  minInterval s ≤ now (throttled s) - lastRequestTime s
  ∧ lastRequestTime (throttled s) = now (throttled s).
Proof.
  unfold throttled, sleep. munfold.
  destruct (now s - lastRequestTime s <? minInterval s) eqn:E; simpl.
  - split; [lia|done].
  - apply Z.ltb_ge in E. split; [lia|done].
Qed.

(** One turn of the retry loop, by what the transport answers. *)
Lemma requestLoop_retry m p o maxRetries remaining attempt s r rest :
  network s = Answer r :: rest →
  status r = 503 → (attempt < maxRetries)%nat →
  requestLoop m p o maxRetries (S remaining) attempt s
  = requestLoop m p o maxRetries remaining (S attempt)
      (backedOff s (requestOf s m p o) r rest attempt).
Proof.
  intros Hnet Hst Hlt. simpl. unfold bind at 1. rewrite throttle_run.
  destruct (throttled_fields s) as (Hn & _ & _ & Ha & _).
  unfold bind at 1. unfold gets at 1. unfold bind at 1. unfold fetch at 1.
  rewrite Hn, Hnet, Hst. simpl.
  apply Nat.ltb_lt in Hlt. rewrite Hlt. simpl.
  unfold bind at 1. unfold modify at 1. unfold bind at 1. unfold sleep at 1, modify at 1.
  unfold backedOff, requestOf, exec, sleep, modify. simpl. by same_auth.
Qed.

Lemma requestLoop_return m p o maxRetries remaining attempt s r rest :
  network s = Answer r :: rest →
  status r ≠ 503 ∨ ¬ (attempt < maxRetries)%nat →
  requestLoop m p o maxRetries (S remaining) attempt s
  = (Ok r, returned s (requestOf s m p o) r rest).
Proof.
  intros Hnet Hcond. simpl. unfold bind at 1. rewrite throttle_run.
  destruct (throttled_fields s) as (Hn & _ & _ & Ha & _).
  unfold bind at 1. unfold gets at 1. unfold bind at 1. unfold fetch at 1.
  rewrite Hn, Hnet. simpl.
  assert (((status r =? 503) && (attempt <? maxRetries)%nat) = false) as ->.
  { apply andb_false_iff. destruct Hcond as [H|H].
    - left. by apply Z.eqb_neq.
    - right. by apply Nat.ltb_nlt. }
  unfold ret, returned, requestOf. by same_auth.
Qed.

Lemma requestLoop_reject m p o maxRetries remaining attempt s :
  (∀ r rest, network s ≠ Answer r :: rest) →
  ∃ e, requestLoop m p o maxRetries (S remaining) attempt s
       = (Throw e, rejected s (requestOf s m p o) e).
Proof.
  intros Hnet. simpl. unfold bind at 1. rewrite throttle_run.
  destruct (throttled_fields s) as (Hn & _ & _ & Ha & _).
  unfold bind at 1. unfold gets at 1. unfold bind at 1. unfold fetch at 1.
  rewrite Hn. unfold rejected, requestOf. same_auth.
  destruct (network s) as [|[r|e] rest] eqn:E.
  - eexists. f_equal. destruct (throttled s); unfold set_trace, set_network; simpl in *.
    by rewrite Hn, Ha.
  - by destruct (Hnet r rest).
  - exists e. f_equal. destruct (throttled s); unfold set_trace, set_network; simpl in *.
    by rewrite Hn, Ha.
Qed.

Lemma returned_fields s rq r rest :
  network (returned s rq r rest) = rest
  ∧ minInterval (returned s rq r rest) = minInterval s
  ∧ knownDirs (returned s rq r rest) = knownDirs s
  ∧ authHeader (returned s rq r rest) = authHeader s
  ∧ trace (returned s rq r rest) = trace (throttled s) ++ [Fetch rq (Answer r)].
Proof.
  destruct (throttled_fields s) as (Hn & Hm & Hk & Ha & _).
  unfold returned. cbn -[throttled]. by rewrite Hm, Hk, Ha.
Qed.

Lemma rejected_fields s rq e :
  minInterval (rejected s rq e) = minInterval s
  ∧ knownDirs (rejected s rq e) = knownDirs s
  ∧ authHeader (rejected s rq e) = authHeader s
  ∧ trace (rejected s rq e) = trace (throttled s) ++ [Fetch rq (Rejected e)].
Proof.
  destruct (throttled_fields s) as (Hn & Hm & Hk & Ha & _).
  unfold rejected. cbn -[throttled]. by rewrite Hm, Hk, Ha.
Qed.

Lemma backedOff_fields s rq r rest attempt :
  network (backedOff s rq r rest attempt) = rest
  ∧ minInterval (backedOff s rq r rest attempt) = Z.min (minInterval s * 2) 10000
  ∧ knownDirs (backedOff s rq r rest attempt) = knownDirs s
  ∧ authHeader (backedOff s rq r rest attempt) = authHeader s
  ∧ trace (backedOff s rq r rest attempt)
    = trace (throttled s)
      ++ [Fetch rq (Answer r); Sleep (Z.min (3000 * 2 ^ Z.of_nat attempt) 30000)].
Proof.
  destruct (throttled_fields s) as (Hn & Hm & Hk & Ha & _).
  unfold backedOff, sleep. munfold. cbn -[throttled Z.min Z.pow Z.mul].
  rewrite Hm, Hk, Ha. split_and!; try done. by rewrite <- app_assoc.
Qed.

(** What a call of [request] adds to the trace, and how it ends: every fetch
    is of the method and path asked for; the call returns the last answer,
    every earlier answer being a 503; it throws only when the transport
    rejects; the set of known directories is untouched. *)
Lemma requestLoop_shape m p o maxRetries remaining attempt s :
  let s' := exec (requestLoop m p o maxRetries remaining attempt) s in
  knownDirs s' = knownDirs s ∧ authHeader s' = authHeader s
  ∧ ∃ evs, trace s' = trace s ++ evs
      ∧ Forall (eventOf m (clean p)) evs
      ∧ match result (requestLoop m p o maxRetries remaining attempt) s with
        | Ok r => ∃ pre rq, evs = pre ++ [Fetch rq (Answer r)] ∧ Forall retried pre
        | Throw e => ∀ rq r, In (Fetch rq (Answer r)) evs → status r = 503
        end.
Proof.
  revert attempt s. induction remaining as [|remaining IH]; intros attempt s.
  - simpl. unfold exec, result, throw. simpl. split_and!; [done..|].
    exists []. rewrite app_nil_r. split_and!; [done|constructor|]. intros ?? [].
  - destruct (throttled_fields s) as (Hn & Hm & Hk & Ha & Ht).
    assert (Hpre : ∃ pre0, trace (throttled s) = trace s ++ pre0
                     ∧ Forall (eventOf m (clean p)) pre0 ∧ Forall retried pre0
                     ∧ ∀ rq r, ¬ In (Fetch rq (Answer r)) pre0).
    { destruct Ht as [->| ->].
      - exists []. rewrite app_nil_r. split_and!; try constructor. intros ?? [].
      - eexists. split_and!; [done|by repeat constructor..|]. intros ?? [|[]]. done. }
    destruct Hpre as (pre0 & Htr & Hpre1 & Hpre2 & Hpre3).
    assert (Hrej : (∀ r rest, network s ≠ Answer r :: rest) →
      let s' := exec (requestLoop m p o maxRetries (S remaining) attempt) s in
      knownDirs s' = knownDirs s ∧ authHeader s' = authHeader s
      ∧ ∃ evs, trace s' = trace s ++ evs
          ∧ Forall (eventOf m (clean p)) evs
          ∧ match result (requestLoop m p o maxRetries (S remaining) attempt) s with
            | Ok r => ∃ pre rq, evs = pre ++ [Fetch rq (Answer r)] ∧ Forall retried pre
            | Throw e => ∀ rq r, In (Fetch rq (Answer r)) evs → status r = 503
            end).
    { intros Hnet.
      destruct (requestLoop_reject m p o maxRetries remaining attempt s Hnet) as [e He].
      destruct (rejected_fields s (requestOf s m p o) e) as (_ & Hrk & Hra & Hrt).
      unfold exec, result. rewrite He. cbn [fst snd]. rewrite Hrk, Hra, Hrt, Htr.
      split_and!; [done..|]. eexists. rewrite <- app_assoc. split_and!; [done| |].
      * apply Forall_app. split; [done|]. by repeat constructor.
      * intros rq r [Hin|[Hin|[]]]%in_app_or; [by apply Hpre3 in Hin|done]. }
    destruct (network s) as [|[r|e] rest] eqn:Enet.
    + apply Hrej. done.
    + clear Hrej.
      destruct (decide (status r = 503 ∧ (attempt < maxRetries)%nat)) as [[H5 Hlt]|Hno].
      * unfold exec, result.
        rewrite (requestLoop_retry m p o maxRetries remaining attempt s r rest Enet H5 Hlt).
        specialize (IH (S attempt) (backedOff s (requestOf s m p o) r rest attempt)).
        destruct (backedOff_fields s (requestOf s m p o) r rest attempt)
          as (_ & _ & Hbk & Hba & Hbt).
        unfold exec, result in IH.
        destruct IH as (IHk & IHa & evs & IHt & IHf & IHr).
        rewrite IHk, IHa, Hbk, Hba. split_and!; [done..|].
        rewrite IHt, Hbt, Htr.
        exists (pre0 ++ [Fetch (requestOf s m p o) (Answer r);
                         Sleep (Z.min (3000 * 2 ^ Z.of_nat attempt) 30000)] ++ evs).
        rewrite <- !app_assoc. split_and!; [done| |].
        -- apply Forall_app. split; [done|]. apply Forall_app. split; [|done].
           by repeat constructor.
        -- destruct (requestLoop _ _ _ _ _ _ _) as [[r1|e1] s1]; simpl in *.
           ++ destruct IHr as (pre & rq & -> & Hpre).
              exists (pre0 ++ [Fetch (requestOf s m p o) (Answer r);
                               Sleep (Z.min (3000 * 2 ^ Z.of_nat attempt) 30000)] ++ pre), rq.
              rewrite <- !app_assoc. split; [done|].
              apply Forall_app. split; [done|]. apply Forall_app. split; [|done].
              by repeat constructor.
           ++ intros rq r2 [Hin|Hin]%in_app_or; [by apply Hpre3 in Hin|].
              destruct Hin as [[= _ <-]|[Hin|Hin]]; [done|done|by eapply IHr].
      * unfold exec, result. rewrite (requestLoop_return m p o maxRetries remaining attempt s
                                        r rest Enet).
        2:{ destruct (decide (status r = 503)); [right|left]; tauto. }
        destruct (returned_fields s (requestOf s m p o) r rest) as (_ & _ & Hrk & Hra & Hrt).
        cbn [fst snd]. rewrite Hrk, Hra, Hrt, Htr. split_and!; [done..|].
        eexists. rewrite <- app_assoc. split_and!; [done| |].
        -- apply Forall_app. split; [done|]. by repeat constructor.
        -- by exists pre0, (requestOf s m p o).
    + apply Hrej. done.
Qed.

Lemma requestOf_auth s s' m p o :
  authHeader s' = authHeader s → requestOf s' m p o = requestOf s m p o.
Proof. intros H. unfold requestOf. by rewrite H. Qed.

Lemma fetches_app tr tr' : fetches (tr ++ tr') = fetches tr ++ fetches tr'.
Proof. unfold fetches. apply omap_app. Qed.

Lemma fetches_throttled s : fetches (trace (throttled s)) = fetches (trace s).
Proof.
  destruct (throttled_fields s) as (_ & _ & _ & _ & [-> | ->]); [done|].
  rewrite fetches_app. simpl. by rewrite app_nil_r.
Qed.

(** A run of 503 answers with attempts to spare is retried one by one. *)
Lemma requestLoop_retries m p o maxRetries rs : ∀ remaining attempt s rest,
  network s = map Answer rs ++ rest →
  Forall (fun r => status r = 503) rs →
  (attempt + length rs ≤ maxRetries)%nat →
  let s' := afterRetries s (requestOf s m p o) rs rest attempt in
  requestLoop m p o maxRetries (length rs + remaining) attempt s
  = requestLoop m p o maxRetries remaining (attempt + length rs) s'
  ∧ network s' = rest
  ∧ authHeader s' = authHeader s
  ∧ knownDirs s' = knownDirs s
  ∧ minInterval s' = Nat.iter (length rs) slowDown (minInterval s)
  ∧ fetches (trace s')
    = fetches (trace s) ++ map (fun r => (requestOf s m p o, Answer r)) rs
  ∧ ∃ evs, trace s' = trace s ++ evs
           ∧ retryEvents (requestOf s m p o) rs attempt `sublist_of` evs.
Proof.
  induction rs as [|r rs IH]; intros remaining attempt s rest Hnet Hall Hle.
  - simpl. rewrite Nat.add_0_r, !app_nil_r. split_and!; try done.
    exists []. by rewrite app_nil_r.
  - apply Forall_cons in Hall as [H5 Hall]. simpl in Hle, Hnet.
    cbn [afterRetries retryEvents length map Nat.add].
    destruct (backedOff_fields s (requestOf s m p o) r (map Answer rs ++ rest) attempt)
      as (Hbn & Hbm & Hbk & Hba & Hbt).
    rewrite (requestLoop_retry m p o maxRetries (length rs + remaining) attempt s r
               (map Answer rs ++ rest) Hnet H5 ltac:(lia)).
    destruct (IH remaining (S attempt)
                (backedOff s (requestOf s m p o) r (map Answer rs ++ rest) attempt)
                rest Hbn Hall ltac:(lia))
      as (IH1 & IH2 & IH3 & IH4 & IH5 & IH6 & evs & IH7 & IH8).
    pose proof (requestOf_auth _ _ m p o Hba) as Hrq.
    rewrite Hrq in *. clear Hrq.
    replace (attempt + S (length rs))%nat with (S attempt + length rs)%nat by lia.
    split_and!; try done; try congruence.
    + rewrite IH5, Hbm. by rewrite Nat.iter_succ_r.
    + rewrite IH6, Hbt, fetches_app, fetches_throttled. simpl.
      by rewrite <- app_assoc.
    + destruct (throttled_fields s) as (_ & _ & _ & _ & Ht).
      rewrite IH7, Hbt.
      destruct Ht as [-> | ->].
      * eexists. rewrite <- app_assoc. split; [done|]. simpl.
        by do 2 apply sublist_skip.
      * eexists. rewrite <- !app_assoc. split; [done|]. simpl.
        apply sublist_cons. by do 2 apply sublist_skip.
Qed.

Lemma slowDown_bounds i : 0 < i ≤ 10000 → i ≤ slowDown i ≤ 10000.
Proof. unfold slowDown. lia. Qed.

(** No request lowers the pace, and the pace stays under its ceiling. *)
Lemma requestLoop_pace m p o maxRetries remaining : ∀ attempt s,
  0 < minInterval s ≤ 10000 →
  minInterval s ≤ minInterval (exec (requestLoop m p o maxRetries remaining attempt) s)
    ≤ 10000.
Proof.
  induction remaining as [|remaining IH]; intros attempt s Hi.
  - simpl. unfold exec, throw. simpl. lia.
  - assert (Hrej : (∀ r rest, network s ≠ Answer r :: rest) →
      minInterval s
      ≤ minInterval (exec (requestLoop m p o maxRetries (S remaining) attempt) s) ≤ 10000).
    { intros Hnet.
      destruct (requestLoop_reject m p o maxRetries remaining attempt s Hnet) as [e He].
      destruct (rejected_fields s (requestOf s m p o) e) as (Hrm & _).
      unfold exec. rewrite He. cbn [snd]. rewrite Hrm. lia. }
    destruct (network s) as [|[r|e] rest] eqn:Enet.
    + by apply Hrej.
    + clear Hrej.
      destruct (decide (status r = 503 ∧ (attempt < maxRetries)%nat)) as [[H5 Hlt]|Hno].
      * unfold exec.
        rewrite (requestLoop_retry m p o maxRetries remaining attempt s r rest Enet H5 Hlt).
        destruct (backedOff_fields s (requestOf s m p o) r rest attempt)
          as (_ & Hbm & _).
        specialize (IH (S attempt) (backedOff s (requestOf s m p o) r rest attempt)).
        unfold exec in IH. rewrite Hbm in IH. pose proof (slowDown_bounds _ Hi) as Hs.
        unfold slowDown in Hs. specialize (IH ltac:(lia)). lia.
      * unfold exec. rewrite (requestLoop_return m p o maxRetries remaining attempt s
                                r rest Enet).
        2:{ destruct (decide (status r = 503)); [right|left]; tauto. }
        destruct (returned_fields s (requestOf s m p o) r rest) as (_ & Hrm & _).
        cbn [snd]. rewrite Hrm. lia.
    + by apply Hrej.
Qed.

(** C5. On a 503 with attempts left, [request] doubles [minInterval] up to
    10000 ms in the client state, which every later [throttle] reads, awaits
    the backoff [min(3000 * 2^attempt, 30000)] and tries again.  Without a
    [retries] option it retries three times: a fourth 503 is returned to the
    caller, after backoffs of 3000, 6000 and 12000 ms.  A request answered
    503, 503, 201 returns the 201 with the pace doubled twice, which is a
    raise whenever the pace was below the ceiling.  No request lowers the
    pace, and each fetch waits until [minInterval] has passed since the last. *)
Theorem request_retries_on_503
    (m : WebDavClient.Method) (p : string) (o : WebDavClient.Options)
    (s : WebDavClient.State) :
  (∀ maxRetries remaining attempt r rest,
     network s = Answer r :: rest → status r = 503 → (attempt < maxRetries)%nat →
     let s1 := backedOff s (requestOf s m p o) r rest attempt in
     requestLoop m p o maxRetries (S remaining) attempt s
     = requestLoop m p o maxRetries remaining (S attempt) s1
     ∧ minInterval s1 = Z.min (minInterval s * 2) 10000
     ∧ trace s1 = trace (throttled s)
                  ++ [Fetch (requestOf s m p o) (Answer r);
                      Sleep (Z.min (3000 * 2 ^ Z.of_nat attempt) 30000)])
  ∧ (opt_retries o = None →
     ∀ r1 r2 r3 r4 rest,
       network s = Answer r1 :: Answer r2 :: Answer r3 :: Answer r4 :: rest →
       status r1 = 503 → status r2 = 503 → status r3 = 503 → status r4 = 503 →
       let rq := requestOf s m p o in
       ∃ s', request m p o s = (Ok r4, s')
         ∧ network s' = rest
         ∧ fetches (trace s')
           = fetches (trace s)
             ++ [(rq, Answer r1); (rq, Answer r2); (rq, Answer r3); (rq, Answer r4)]
         ∧ minInterval s' = slowDown (slowDown (slowDown (minInterval s)))
         ∧ ∃ evs, trace s' = trace s ++ evs
             ∧ [Fetch rq (Answer r1); Sleep 3000; Fetch rq (Answer r2); Sleep 6000;
                Fetch rq (Answer r3); Sleep 12000; Fetch rq (Answer r4)] `sublist_of` evs)
  ∧ (opt_retries o = None →
     ∀ r1 r2 r rest,
       network s = Answer r1 :: Answer r2 :: Answer r :: rest →
       status r1 = 503 → status r2 = 503 → status r = 201 →
       ∃ s', request m p o s = (Ok r, s')
         ∧ network s' = rest
         ∧ minInterval s' = slowDown (slowDown (minInterval s))
         ∧ (0 < minInterval s < 10000 → minInterval s < minInterval s')
         ∧ (minInterval s = 1500 → minInterval s' = 6000))
  ∧ (0 < minInterval s ≤ 10000 →
     minInterval s ≤ minInterval (exec (request m p o) s) ≤ 10000)
  ∧ minInterval s ≤ now (throttled s) - lastRequestTime s.
Proof.
  split_and!.
  - intros maxRetries remaining attempt r rest Hnet H5 Hlt s1.
    destruct (backedOff_fields s (requestOf s m p o) r rest attempt)
      as (_ & Hbm & _ & _ & Hbt).
    split_and!; [by apply requestLoop_retry|done|done].
  - intros Ho r1 r2 r3 r4 rest Hnet H1 H2 H3 H4 rq.
    destruct (requestLoop_retries m p o 3 [r1; r2; r3] 1 0 s (Answer r4 :: rest) Hnet
                ltac:(by repeat constructor) ltac:(simpl; lia))
      as (E & Hn & Ha & Hk & Hm & Hf & evs & Ht & Hsub).
    set (s3 := afterRetries s (requestOf s m p o) [r1; r2; r3] (Answer r4 :: rest) 0) in *.
    clearbody s3.
    pose proof (requestLoop_return m p o 3 0 3 s3 r4 rest Hn ltac:(right; lia)) as R.
    rewrite (requestOf_auth _ _ m p o Ha) in R. fold rq in R, Hf, Hsub.
    destruct (returned_fields s3 rq r4 rest) as (Hrn & Hrm & _ & _ & Hrt).
    destruct (throttled_fields s3) as (_ & _ & _ & _ & Htt).
    eexists. split; [unfold request; rewrite Ho; exact (eq_trans E R)|].
    split_and!.
    + exact Hrn.
    + rewrite Hrt, fetches_app, fetches_throttled, Hf. by rewrite <- app_assoc.
    + rewrite Hrm, Hm. reflexivity.
    + rewrite Hrt.
      destruct Htt as [-> | ->]; rewrite Ht; eexists; rewrite <- ?app_assoc;
        (split; [done|]).
      * by apply (sublist_app (retryEvents rq [r1; r2; r3] 0) _ [_] [_]).
      * apply (sublist_app (retryEvents rq [r1; r2; r3] 0) _ [_] [_; _]); [done|].
        by apply sublist_cons.
  - intros Ho r1 r2 r rest Hnet H1 H2 H201.
    destruct (requestLoop_retries m p o 3 [r1; r2] 2 0 s (Answer r :: rest) Hnet
                ltac:(by repeat constructor) ltac:(simpl; lia))
      as (E & Hn & Ha & Hk & Hm & Hf & evs & Ht & Hsub).
    set (s2 := afterRetries s (requestOf s m p o) [r1; r2] (Answer r :: rest) 0) in *.
    clearbody s2.
    pose proof (requestLoop_return m p o 3 1 2 s2 r rest Hn ltac:(left; lia)) as R.
    destruct (returned_fields s2 (requestOf s2 m p o) r rest) as (Hrn & Hrm & _).
    eexists. split; [unfold request; rewrite Ho; exact (eq_trans E R)|].
    assert (Hmi : minInterval (returned s2 (requestOf s2 m p o) r rest)
                  = slowDown (slowDown (minInterval s))).
    { rewrite Hrm, Hm. reflexivity. }
    split_and!; [exact Hrn|exact Hmi|rewrite Hmi; unfold slowDown; lia
                |rewrite Hmi; unfold slowDown; lia].
  - intros Hi. apply requestLoop_pace. done.
  - apply throttle_spacing.
Qed.

Lemma status_207_or_200 st :
  (st =? 207) || (st =? 200) = bool_decide (st = 207 ∨ st = 200).
Proof.
  destruct (st =? 207) eqn:E1; destruct (st =? 200) eqn:E2; simpl; symmetry;
    rewrite ?Z.eqb_eq, ?Z.eqb_neq in *;
    (apply bool_decide_eq_true_2 || apply bool_decide_eq_false_2); tauto.
Qed.

Lemma probe_run (remotePath : string) (s : State) :
  let probe := tryCatch
                 (let! resp := request PROPFIND remotePath depth0 in
                  ret ((status resp =? 207) || (status resp =? 200)))
                 (fun _ => ret false) in
  (∀ resp s', request PROPFIND remotePath depth0 s = (Ok resp, s') →
     probe s = (Ok (bool_decide (status resp = 207 ∨ status resp = 200)), s'))
  ∧ (∀ e s', request PROPFIND remotePath depth0 s = (Throw e, s') →
       probe s = (Ok false, s'))
  ∧ (∃ b s', probe s = (Ok b, s'))
  ∧ (∀ r rest, network s = Answer r :: rest → status r ≠ 503 →
       ∃ s', probe s = (Ok (bool_decide (status r = 207 ∨ status r = 200)), s'))
  ∧ ((∀ r rest, network s ≠ Answer r :: rest) → ∃ s', probe s = (Ok false, s')).
Proof.
  intros probe.
  assert (H1 : ∀ resp s', request PROPFIND remotePath depth0 s = (Ok resp, s') →
     probe s = (Ok (bool_decide (status resp = 207 ∨ status resp = 200)), s')).
  { intros resp s' E. unfold probe, tryCatch, bind. rewrite E. unfold ret.
    by rewrite status_207_or_200. }
  assert (H2 : ∀ e s', request PROPFIND remotePath depth0 s = (Throw e, s') →
       probe s = (Ok false, s')).
  { intros e s' E. unfold probe, tryCatch, bind. by rewrite E. }
  split_and!; [done|done| | |].
  - destruct (request PROPFIND remotePath depth0 s) as [[resp|e] s'] eqn:E.
    + eexists _, _. by apply H1.
    + eexists _, _. by eapply H2.
  - intros r rest Hnet H5. eexists. apply H1. unfold request. simpl default.
    apply requestLoop_return; [done|by left].
  - intros Hnet.
    destruct (requestLoop_reject PROPFIND remotePath depth0 3 3 0 s Hnet) as [e He].
    eexists. eapply H2. unfold request. simpl default. exact He.
Qed.

(** C10. [exists] and [testConnection] return true exactly when the PROPFIND
    ends in a response of status 207 or 200; for every other response, and
    when the request throws, they return false; they never throw.  A
    transport that rejects the fetch and a server that answers 404 both give
    false. *)
Theorem exists_true_only_on_207_or_200 (remotePath : string) (s : WebDavClient.State) :
  ((∀ resp s', request PROPFIND remotePath depth0 s = (Ok resp, s') →
      exists_ remotePath s
      = (Ok (bool_decide (status resp = 207 ∨ status resp = 200)), s'))
   ∧ (∀ e s', request PROPFIND remotePath depth0 s = (Throw e, s') →
        exists_ remotePath s = (Ok false, s'))
   ∧ (∃ b s', exists_ remotePath s = (Ok b, s'))
   ∧ (∀ r rest, network s = Answer r :: rest → status r ≠ 503 →
        ∃ s', exists_ remotePath s
              = (Ok (bool_decide (status r = 207 ∨ status r = 200)), s'))
   ∧ ((∀ r rest, network s ≠ Answer r :: rest) →
        ∃ s', exists_ remotePath s = (Ok false, s')))
  ∧ ((∀ resp s', request PROPFIND "/" depth0 s = (Ok resp, s') →
        testConnection s
        = (Ok (bool_decide (status resp = 207 ∨ status resp = 200)), s'))
     ∧ (∀ e s', request PROPFIND "/" depth0 s = (Throw e, s') →
          testConnection s = (Ok false, s'))
     ∧ (∃ b s', testConnection s = (Ok b, s'))
     ∧ (∀ r rest, network s = Answer r :: rest → status r ≠ 503 →
          ∃ s', testConnection s
                = (Ok (bool_decide (status r = 207 ∨ status r = 200)), s'))
     ∧ ((∀ r rest, network s ≠ Answer r :: rest) →
          ∃ s', testConnection s = (Ok false, s'))).
Proof.
  split.
  - exact (probe_run remotePath s).
  - exact (probe_run "/" s).
Qed.

Example exists_404_and_rejection_look_alike :
  result (exists_ "/session-names.json") (Sample.newClient [Sample.reply 404 ""]) = Ok false
  ∧ result (exists_ "/session-names.json")
      (Sample.newClient [Rejected (Error "ECONNRESET")]) = Ok false
  ∧ result (exists_ "/session-names.json") (Sample.newClient [Sample.reply 207 ""]) = Ok true.
Proof. vm_compute. done. Qed.

Lemma request_retries_on_503_witness :
  ∃ s', request PUT "/hosts/H1/machine.json" noOptions
          (Sample.newClient [Sample.reply 503 ""; Sample.reply 503 ""; Sample.reply 201 ""])
        = (Ok {| status := 201; statusText := ""; text := "" |}, s')
    ∧ network s' = []
    ∧ minInterval s' = 6000.
Proof.
  destruct (proj1 (proj2 (proj2 (request_retries_on_503 PUT "/hosts/H1/machine.json"
              noOptions
              (Sample.newClient
                 [Sample.reply 503 ""; Sample.reply 503 ""; Sample.reply 201 ""])))) eq_refl
              {| status := 503; statusText := ""; text := "" |}
              {| status := 503; statusText := ""; text := "" |}
              {| status := 201; statusText := ""; text := "" |} [] eq_refl eq_refl eq_refl
              eq_refl) as (s' & E & Hn & _ & _ & H6).
  exists s'. split_and!; [exact E|exact Hn|exact (H6 eq_refl)].
Defined.

Example request_503_503_201_trace :
  let rq := {| method := PUT; remotePath := "/hosts/H1/machine.json";
               headers := [("Authorization", "Basic dTpw")]; body := None |} in
  trace (exec (request PUT "/hosts/H1/machine.json" noOptions)
           (Sample.newClient [Sample.reply 503 ""; Sample.reply 503 ""; Sample.reply 201 ""]))
  = [Fetch rq (Sample.reply 503 ""); Sleep 3000;
     Fetch rq (Sample.reply 503 ""); Sleep 6000;
     Fetch rq (Sample.reply 201 "")].
Proof. vm_compute. reflexivity. Qed.

(** *** Directory creation *)

Lemma ensureDir_step d s :
  ensureDir d s =
  if decide (d ∈ knownDirs s) then (Ok tt, s)
  else match mkdir d s with
       | (Ok _, s1) => (Ok tt, set_knownDirs (fun k => k ∪ {[d]}) s1)
       | (Throw e, s1) => (Throw e, s1)
       end.
Proof.
  unfold ensureDir, bind, gets, ret, modify.
  destruct (decide (d ∈ knownDirs s)); [done|].
  by destruct (mkdir d s) as [[[]|e] s1].
Qed.

Lemma mkdirpLoop_step part parts current s :
  mkdirpLoop (part :: parts) current s =
  let d := current +:+ "/" +:+ part in
  if decide (d ∈ knownDirs s) then mkdirpLoop parts d s
  else match mkdir d s with
       | (Ok _, s1) => mkdirpLoop parts d (set_knownDirs (fun k => k ∪ {[d]}) s1)
       | (Throw e, s1) => (Throw e, s1)
       end.
Proof.
  cbn [mkdirpLoop]. unfold bind, gets, modify.
  destruct (decide (current +:+ "/" +:+ part ∈ knownDirs s)); [done|].
  by destruct (mkdir (current +:+ "/" +:+ part) s) as [[[]|e] s1].
Qed.

(** [mkdirp] handles the ancestors of its path one by one, root first. *)
Lemma mkdirpLoop_forOf parts : ∀ current s,
  mkdirpLoop parts current s = forOf (prefixesFrom current parts) ensureDir s.
Proof.
  induction parts as [|part parts IH]; intros current s; [done|].
  rewrite mkdirpLoop_step. cbn [prefixesFrom forOf]. cbv zeta.
  unfold bind at 1. rewrite ensureDir_step.
  destruct (decide (current +:+ "/" +:+ part ∈ knownDirs s)); [apply IH|].
  destruct (mkdir (current +:+ "/" +:+ part) s) as [[[]|e] s1]; [apply IH|done].
Qed.

Lemma mkdir_run remotePath s :
  (∀ resp s', request MKCOL remotePath noOptions s = (Ok resp, s') →
     (status resp < 400 ∨ status resp = 405 → mkdir remotePath s = (Ok tt, s'))
     ∧ (400 ≤ status resp → status resp ≠ 405 →
        mkdir remotePath s
        = (Throw (HttpError "mkdir failed" (status resp) (statusText resp)), s')))
  ∧ (∀ e s', request MKCOL remotePath noOptions s = (Throw e, s') →
       mkdir remotePath s = (Throw e, s')).
Proof.
  split.
  - intros resp s' E. unfold mkdir, bind. rewrite E. split.
    + intros H.
      destruct (status resp =? 201) eqn:E1; [done|].
      destruct (status resp =? 405) eqn:E2; [done|]. simpl.
      apply Z.eqb_neq in E2.
      assert ((status resp >=? 400) = false) as -> by lia. done.
    + intros H1 H2.
      assert ((status resp =? 201) = false) as -> by lia.
      assert ((status resp =? 405) = false) as -> by lia.
      assert ((status resp >=? 400) = true) as -> by lia. done.
  - intros e s' E. unfold mkdir, bind. by rewrite E.
Qed.

Lemma created_mkcolTo d ev : created d ev → mkcolTo d ev.
Proof. destruct ev as [|rq [r|e]]; simpl; tauto. Qed.

Lemma retried_not_created d ev : retried ev → ¬ created d ev.
Proof. destruct ev as [|rq [r|e]]; simpl; [tauto| |tauto]. intros -> (_ & _ & [?|?]); lia. Qed.

Lemma split_last {A} (pre l post : list A) (x ev : A) :
  pre ++ [x] = l ++ ev :: post → (post = [] ∧ ev = x) ∨ In ev pre.
Proof.
  intros H. apply app_eq_app in H as [k [[-> Hk]|[-> Hk]]].
  - destruct k as [|e k]; simpl in Hk.
    + injection Hk as -> <-. by left.
    + injection Hk as -> _. right. apply in_or_app. right. by left.
  - destruct k as [|e k]; simpl in Hk.
    + injection Hk as -> <-. by left.
    + injection Hk as _ Hk. by destruct k.
Qed.

(** Events that are no MKCOL keep the invariant. *)
Lemma onceCreated_other s s' evs :
  onceCreated s →
  trace s' = trace s ++ evs → knownDirs s' = knownDirs s →
  Forall (fun e => ∀ d, ¬ mkcolTo d e) evs →
  onceCreated s'.
Proof.
  intros [I1 I2] Ht Hk Hev. rewrite List.Forall_forall in Hev. split.
  - intros d ev Hin Hc. rewrite Hk. rewrite Ht in Hin.
    apply in_app_or in Hin as [Hin|Hin]; [by eapply I1|].
    exfalso. eapply Hev; [done|]. by apply created_mkcolTo.
  - intros d pre ev post Hsplit Hc. rewrite Ht in Hsplit.
    apply app_eq_app in Hsplit as [k [[Hs Hk']|[-> Hk']]].
    + destruct k as [|e k]; simpl in Hk'.
      * exfalso. eapply (Hev ev); [rewrite <- Hk'; by left|]. by apply created_mkcolTo.
      * injection Hk' as <- ->. apply Forall_app. split; [by eapply I2|].
        apply List.Forall_forall. intros e He. by apply Hev.
    + exfalso. eapply (Hev ev); [rewrite Hk'; apply in_or_app; right; by left|].
      by apply created_mkcolTo.
Qed.

(** The MKCOL events of one [mkdir], for a directory not yet known, keep the
    invariant when the only one that can have succeeded is the last, and the
    directory is known afterwards if it did. *)
Lemma onceCreated_mkcol s s' d0 evs :
  onceCreated s → d0 ∉ knownDirs s →
  trace s' = trace s ++ evs → knownDirs s ⊆ knownDirs s' →
  Forall (eventOf MKCOL d0) evs →
  (∀ d l ev post, evs = l ++ ev :: post → created d ev → post = [] ∧ d ∈ knownDirs s') →
  onceCreated s'.
Proof.
  intros [I1 I2] Hnew Ht Hk Hev Hlast. rewrite List.Forall_forall in Hev. split.
  - intros d ev Hin Hc. rewrite Ht in Hin.
    apply in_app_or in Hin as [Hin|Hin]; [apply Hk; by eapply I1|].
    apply in_split in Hin as (l & post & ->). by eapply Hlast.
  - intros d pre ev post Hsplit Hc. rewrite Ht in Hsplit.
    apply app_eq_app in Hsplit as [k [[Hs Hk']|[-> Hk']]].
    + destruct k as [|e k]; simpl in Hk'.
      * symmetry in Hk'. destruct (Hlast d [] ev post Hk' Hc) as [-> _]. constructor.
      * injection Hk' as <- ->. apply Forall_app. split; [by eapply I2|].
        apply List.Forall_forall. intros e He Hm.
        assert (d ∈ knownDirs s) as Hd.
        { eapply I1; [|done]. rewrite Hs. apply in_or_app. right. by left. }
        specialize (Hev e He). destruct e as [|rq res]; [done|].
        simpl in *. destruct Hev as [_ E1], Hm as [_ E2]. congruence.
    + destruct (Hlast d k ev post Hk' Hc) as [-> _]. constructor.
Qed.

Lemma request_shape m p o s :
  let s' := exec (request m p o) s in
  knownDirs s' = knownDirs s ∧ authHeader s' = authHeader s
  ∧ ∃ evs, trace s' = trace s ++ evs
      ∧ Forall (eventOf m (clean p)) evs
      ∧ match result (request m p o) s with
        | Ok r => ∃ pre rq, evs = pre ++ [Fetch rq (Answer r)] ∧ Forall retried pre
        | Throw e => ∀ rq r, In (Fetch rq (Answer r)) evs → status r = 503
        end.
Proof. unfold request. apply requestLoop_shape. Qed.

(** What follows the request in a client method leaves the state alone. *)
Lemma exec_then {A B} (m : M State A) (k : A → M State B) s :
  (∀ a s1, exec (k a) s1 = s1) → exec (bind m k) s = exec m s.
Proof.
  intros Hk. unfold exec, bind. destruct (m s) as [[a|e] s1]; [apply Hk|done].
Qed.

Lemma upload_state p content s :
  exec (upload p content) s
  = exec (request PUT p {| opt_body := Some content;
                           opt_headers := [("Content-Type", "application/octet-stream")];
                           opt_retries := None |}) s.
Proof.
  unfold upload. apply exec_then. intros r s1. by destruct (status r >=? 400).
Qed.

Lemma download_state p s : exec (download p) s = exec (request GET p noOptions) s.
Proof.
  unfold download. apply exec_then. intros r s1.
  destruct (status r =? 404); [done|]. by destruct (status r >=? 400).
Qed.

Lemma delete_state p s : exec (delete p) s = exec (request DELETE p noOptions) s.
Proof.
  unfold delete. apply exec_then. intros r s1. by destruct (_ && _).
Qed.

Lemma mkdir_state p s : exec (mkdir p) s = exec (request MKCOL p noOptions) s.
Proof.
  unfold mkdir. apply exec_then. intros r s1.
  destruct (_ && _); [|done]. by destruct (status r >=? 400).
Qed.

Lemma exists_state p s : exec (exists_ p) s = exec (request PROPFIND p depth0) s.
Proof.
  unfold exists_, exec, tryCatch, bind.
  by destruct (request PROPFIND p depth0 s) as [[r|e] s1].
Qed.

Lemma list_state parse p s :
  exec (list_ parse p) s
  = exec (request PROPFIND (if Js.endsWith "/" p then p else p +:+ "/")
            {| opt_body := None; opt_headers := [("Depth", "1")]; opt_retries := None |}) s.
Proof.
  unfold list_. apply exec_then. intros r s1.
  destruct (status r =? 404); [done|]. by destruct (negb _).
Qed.

Lemma onceCreated_request m p o s :
  m ≠ MKCOL → onceCreated s → onceCreated (exec (request m p o) s).
Proof.
  intros Hm Hs. destruct (request_shape m p o s) as (Hk & _ & evs & Ht & Hev & _).
  eapply onceCreated_other; [done..|].
  eapply Forall_impl; [exact Hev|]. intros [|rq res]; simpl; [tauto|].
  intros [E _] d [E' _]. congruence.
Qed.

Lemma ensureDir_onceCreated d : clean d = d → preserves onceCreated (ensureDir d).
Proof.
  intros Hclean s Hs. unfold exec. rewrite ensureDir_step.
  destruct (decide (d ∈ knownDirs s)) as [Hin|Hnew]; [done|].
  pose proof (mkdir_state d s) as Hst.
  destruct (request_shape MKCOL d noOptions s) as (Hk & _ & evs & Ht & Hev & Hres).
  rewrite Hclean in Hev. rewrite <- Hst in Hk, Ht.
  destruct (mkdir_run d s) as [Hok Hthrow].
  unfold exec, result in *.
  destruct (request MKCOL d noOptions s) as [[r|e] s1] eqn:E; simpl in Hres.
  - destruct (Hok r s1 eq_refl) as [Hgood Hbad].
    destruct Hres as (pre & rq & -> & Hpre).
    assert (Hrq : method rq = MKCOL ∧ remotePath rq = d).
    { rewrite List.Forall_forall in Hev. apply (Hev (Fetch rq (Answer r))).
      apply in_or_app. right. by left. }
    assert (Hlast : ∀ d' l ev post, pre ++ [Fetch rq (Answer r)] = l ++ ev :: post →
              created d' ev → post = [] ∧ ev = Fetch rq (Answer r)).
    { intros d' l ev post Hsplit Hc.
      destruct (split_last _ _ _ _ _ Hsplit) as [?|Hin]; [done|].
      exfalso. rewrite List.Forall_forall in Hpre.
      by eapply retried_not_created; [apply Hpre|]. }
    destruct (decide (status r < 400 ∨ status r = 405)) as [Hst'|Hst'].
    + rewrite (Hgood Hst') in Hk, Ht |- *. simpl in *.
      eapply onceCreated_mkcol; [done|done|exact Ht| |done|].
      * simpl. rewrite Hk. apply union_subseteq_l.
      * intros d' l ev post Hsplit Hc.
        destruct (Hlast d' l ev post Hsplit Hc) as [-> ->]. split; [done|].
        simpl in Hc. destruct Hc as (_ & <- & _). destruct Hrq as [_ ->].
        simpl. apply elem_of_union. right. by apply elem_of_singleton.
    + rewrite (Hbad ltac:(lia) ltac:(lia)) in Hk, Ht |- *. simpl in *.
      eapply onceCreated_mkcol; [done|done|exact Ht|by rewrite Hk|done|].
      intros d' l ev post Hsplit Hc.
      destruct (Hlast d' l ev post Hsplit Hc) as [-> ->]. exfalso.
      simpl in Hc. tauto.
  - rewrite (Hthrow e s1 eq_refl) in Hk, Ht |- *. simpl in *.
    eapply onceCreated_mkcol; [done|done|exact Ht|by rewrite Hk|done|].
    intros d' l ev post -> Hc. exfalso.
    destruct ev as [|rq [r|e']]; simpl in Hc; try done.
    assert (status r = 503) by (eapply Hres; apply in_or_app; right; by left). lia.
Qed.

Lemma clean_prefixesFrom parts : ∀ current d,
  current = "" ∨ Js.startsWith "/" current = true →
  In d (prefixesFrom current parts) → clean d = d.
Proof.
  induction parts as [|part parts IH]; intros current d Hcur; [done|].
  assert (Hnext : Js.startsWith "/" (current +:+ "/" +:+ part) = true).
  { destruct Hcur as [->|H]; [done|]. by destruct current. }
  intros [<-|Hin].
  - unfold clean. by rewrite Hnext.
  - eapply IH; [|done]. by right.
Qed.

Lemma mkdirp_onceCreated p : preserves onceCreated (mkdirp p).
Proof.
  intros s Hs. unfold mkdirp, exec. rewrite mkdirpLoop_forOf.
  apply (preserves_forOf onceCreated); [|done].
  intros d Hd. apply ensureDir_onceCreated. eapply clean_prefixesFrom; [|done]. by left.
Qed.

Lemma runCalls_onceCreated parse cs s :
  onceCreated s → onceCreated (runCalls parse cs s).
Proof.
  revert s. induction cs as [|c cs IH]; intros s Hs; [done|].
  simpl. apply IH. destruct c; simpl.
  - by apply mkdirp_onceCreated.
  - rewrite upload_state. by apply onceCreated_request.
  - rewrite download_state. by apply onceCreated_request.
  - rewrite delete_state. by apply onceCreated_request.
  - rewrite exists_state. by apply onceCreated_request.
  - rewrite list_state. by apply onceCreated_request.
Qed.

Lemma onceCreated_create auth clock net : onceCreated (create auth clock net []).
Proof.
  split; simpl.
  - intros ?? [].
  - intros d pre ev post H. by destruct pre.
Qed.

(** C9 (as amended).  [mkdir] returns on 201 and on 405 and throws on any
    other status of 400 or more.  [mkdirp] takes the non-empty segments of the
    path and handles the ancestors they spell, root first: an ancestor in the
    known-created set costs no request; any other gets an MKCOL and joins the
    set only when that MKCOL succeeds.  So, in a session of client calls from
    a new client, no MKCOL is sent for a directory after the MKCOL that
    created it: each directory is created at most once, while a creation that
    failed or was answered 503 is sent again. *)
Theorem mkdirp_creates_each_directory_once (remotePath : string) (s : WebDavClient.State) :
  (∀ resp s', request MKCOL remotePath noOptions s = (Ok resp, s') →
     (status resp = 201 ∨ status resp = 405 → mkdir remotePath s = (Ok tt, s'))
     ∧ (400 ≤ status resp → status resp ≠ 405 →
        mkdir remotePath s
        = (Throw (HttpError "mkdir failed" (status resp) (statusText resp)), s')))
  ∧ mkdirp remotePath s = forOf (prefixesFrom "" (Js.segments remotePath)) ensureDir s
  ∧ (∀ d, d ∈ knownDirs s → ensureDir d s = (Ok tt, s))
  ∧ (∀ d, d ∉ knownDirs s →
       ensureDir d s = match mkdir d s with
                       | (Ok _, s1) => (Ok tt, set_knownDirs (fun k => k ∪ {[d]}) s1)
                       | (Throw e, s1) => (Throw e, s1)
                       end)
  ∧ (∀ parse cs auth clock net d pre ev post,
       trace (runCalls parse cs (create auth clock net [])) = pre ++ ev :: post →
       created d ev →
       Forall (fun e => ¬ mkcolTo d e) post).
Proof.
  split_and!.
  - intros resp s' E. destruct (mkdir_run remotePath s) as [H _].
    destruct (H resp s' E) as [Hgood Hbad]. split; [|done].
    intros [?|?]; apply Hgood; lia.
  - unfold mkdirp. apply mkdirpLoop_forOf.
  - intros d Hd. rewrite ensureDir_step. by destruct (decide (d ∈ knownDirs s)).
  - intros d Hd. rewrite ensureDir_step. by destruct (decide (d ∈ knownDirs s)).
  - intros parse cs auth clock net.
    apply (runCalls_onceCreated parse cs _ (onceCreated_create auth clock net)).
Qed.

(** The claim as first stated fails: after a creation that failed, the next
    [mkdirp] sends MKCOL for the same directory again. *)
Lemma mkdirp_repeats_MKCOL_after_failure :
  mkcolCount "/hosts"
    (trace (runCalls Sample.readListing
              [CallMkdirp "/hosts/H1/projects"; CallMkdirp "/hosts/H1/projects"]
              (Sample.newClient [Sample.reply 500 ""; Sample.reply 201 "";
                                 Sample.reply 201 ""; Sample.reply 201 ""])))
  = 2%nat.
Proof. vm_compute. reflexivity. Qed.

Example mkdirp_repeats_MKCOL_on_503 :
  mkcolCount "/hosts"
    (trace (exec (mkdirp "/hosts")
              (Sample.newClient [Sample.reply 503 ""; Sample.reply 201 ""])))
  = 2%nat.
Proof. vm_compute. reflexivity. Qed.

Example mkdirp_prefixes :
  prefixesFrom "" (Js.segments "/hosts/H1/projects")
  = ["/hosts"; "/hosts/H1"; "/hosts/H1/projects"].
Proof. reflexivity. Qed.

Example mkdirp_skips_known :
  let s1 := exec (mkdirp "/hosts/H1/projects")
              (Sample.newClient [Sample.reply 201 ""; Sample.reply 405 "";
                                 Sample.reply 201 ""; Sample.reply 201 ""]) in
  let s2 := exec (mkdirp "/hosts/H1/projects/p1") s1 in
  map (fun f => (method (fst f), remotePath (fst f))) (fetches (trace s2))
  = [(MKCOL, "/hosts"); (MKCOL, "/hosts/H1"); (MKCOL, "/hosts/H1/projects");
     (MKCOL, "/hosts/H1/projects/p1")].
Proof. vm_compute. reflexivity. Qed.

End Client.

(** ** Lines of text *)

Section Lines.
Variable c : ascii.

Lemma split_nonempty s : Js.split c s ≠ [].
Proof. destruct s as [|a s]; simpl; [done|]. destruct (Ascii.eqb a c); [done|]. by destruct (Js.split c s). Qed.

Lemma split_lacks s l : In l (Js.split c s) → Js.lacks c l = true.
Proof.
  revert l. induction s as [|a s IH]; intros l; simpl.
  - by intros [<-|[]].
  - destruct (Ascii.eqb a c) eqn:E.
    + intros [<-|H]; [done|by apply IH].
    + pose proof (split_nonempty s) as Hne.
      destruct (Js.split c s) as [|h t]; [done|].
      intros [<-|H].
      * simpl. rewrite E. simpl. apply IH. by left.
      * apply IH. by right.
Qed.

Lemma split_whole l : Js.lacks c l = true → Js.split c l = [l].
Proof.
  induction l as [|a l IH]; simpl; [done|].
  intros [Ha Hl]%andb_true_iff. apply negb_true_iff in Ha. rewrite Ha.
  by rewrite (IH Hl).
Qed.

Lemma append_cons a (l s : string) : String a l +:+ s = String a (l +:+ s).
Proof. reflexivity. Qed.

Lemma append_empty_l (s : string) : "" +:+ s = s.
Proof. reflexivity. Qed.

Lemma append_assoc (s1 s2 s3 : string) : (s1 +:+ s2) +:+ s3 = s1 +:+ s2 +:+ s3.
Proof. induction s1 as [|a s1 IH]; [done|]. by rewrite !append_cons, IH. Qed.

Lemma split_app l rest :
  Js.lacks c l = true →
  Js.split c (l +:+ String c rest) = l :: Js.split c rest.
Proof.
  induction l as [|a l IH]; cbn [Js.lacks].
  - intros _. rewrite append_empty_l. cbn [Js.split]. by rewrite Ascii.eqb_refl.
  - intros [Ha Hl]%andb_true_iff. apply negb_true_iff in Ha.
    rewrite append_cons. cbn [Js.split]. rewrite Ha. by rewrite (IH Hl).
Qed.

Lemma split_join ls :
  ls ≠ [] → Forall (fun l => Js.lacks c l = true) ls →
  Js.split c (Js.join (String c EmptyString) ls) = ls.
Proof.
  unfold Js.join. induction ls as [|l ls IH]; [done|]. intros _ Hall.
  apply Forall_cons in Hall as [Hl Hall].
  destruct ls as [|l' ls]; cbn [String.concat].
  - by apply split_whole.
  - rewrite append_cons, append_empty_l.
    rewrite (split_app _ _ Hl). f_equal. by apply IH.
Qed.

Lemma join_snoc sep ls x :
  ls ≠ [] → Js.join sep (ls ++ [x]) = Js.join sep ls +:+ sep +:+ x.
Proof.
  unfold Js.join. induction ls as [|l ls IH]; [done|]. intros _.
  destruct ls as [|l' ls]; [done|].
  change (String.concat sep ((l :: l' :: ls) ++ [x]))
    with (l +:+ sep +:+ String.concat sep ((l' :: ls) ++ [x])).
  rewrite IH by done.
  change (String.concat sep (l :: l' :: ls))
    with (l +:+ sep +:+ String.concat sep (l' :: ls)).
  by rewrite !append_assoc.
Qed.

End Lines.

(** ** The history merge *)

Section Upsert.
Implicit Types (m : list (string * HistoryRecord)) (es : list (string * HistoryRecord)).

Lemma upsert_get_other m k v k' :
  k ≠ k' → JsMap.get k' (upsert m (k, v)) = JsMap.get k' m.
Proof.
  intros Hne. unfold upsert. simpl.
  destruct (JsMap.get k m) as [ex|]; [|by apply JsMap_get_set_ne].
  destruct (_ >? _); [by apply JsMap_get_set_ne|done].
Qed.

Lemma upsert_get_same m k v :
  JsMap.get k (upsert m (k, v)) =
  match JsMap.get k m with
  | None => Some v
  | Some ex => if hr_timestamp v >? hr_timestamp ex then Some v else Some ex
  end.
Proof.
  unfold upsert. simpl. destruct (JsMap.get k m) as [ex|] eqn:E.
  - destruct (_ >? _); [apply JsMap_get_set_eq|done].
  - apply JsMap_get_set_eq.
Qed.

(** The record of an identifier after a run of updates depends only on its
    record before. *)
Lemma fold_upsert_congr es : ∀ m1 m2 id,
  JsMap.get id m1 = JsMap.get id m2 →
  JsMap.get id (fold_left upsert es m1) = JsMap.get id (fold_left upsert es m2).
Proof.
  induction es as [|[k v] es IH]; intros m1 m2 id H; [done|].
  simpl. apply IH. destruct (decide (k = id)) as [->|Hne].
  - rewrite !upsert_get_same. by rewrite H.
  - by rewrite !upsert_get_other.
Qed.

Lemma upsert_NoDup m kv : NoDup (JsMap.keys m) → NoDup (JsMap.keys (upsert m kv)).
Proof.
  intros H. unfold upsert. destruct (JsMap.get _ m); [|by apply JsMap_NoDup_set].
  destruct (_ >? _); [by apply JsMap_NoDup_set|done].
Qed.

Lemma fold_upsert_NoDup es : ∀ m,
  NoDup (JsMap.keys m) → NoDup (JsMap.keys (fold_left upsert es m)).
Proof.
  induction es as [|kv es IH]; intros m H; [done|]. simpl. by apply IH, upsert_NoDup.
Qed.

(** Updates never lower the time stamp on record. *)
Lemma upsert_keeps m kv id r0 :
  JsMap.get id m = Some r0 →
  ∃ r, JsMap.get id (upsert m kv) = Some r ∧ hr_timestamp r0 ≤ hr_timestamp r.
Proof.
  intros H. destruct kv as [k v]. destruct (decide (k = id)) as [->|Hne].
  - rewrite upsert_get_same, H. destruct (_ >? _) eqn:E.
    + exists v. split; [done|]. lia.
    + exists r0. split; [done|]. lia.
  - rewrite upsert_get_other by done. exists r0. split; [done|]. lia.
Qed.

Lemma fold_upsert_keeps es : ∀ m id r0,
  JsMap.get id m = Some r0 →
  ∃ r, JsMap.get id (fold_left upsert es m) = Some r ∧ hr_timestamp r0 ≤ hr_timestamp r.
Proof.
  induction es as [|kv es IH]; intros m id r0 H.
  - exists r0. split; [done|]. lia.
  - simpl. destruct (upsert_keeps m kv id r0 H) as (r1 & H1 & Hle).
    destruct (IH _ _ _ H1) as (r & Hr & Hle'). exists r. split; [done|]. lia.
Qed.

(** Every entry of the run is covered by the record that ends up in the map. *)
Lemma fold_upsert_covers es : ∀ m id r',
  In (id, r') es →
  ∃ r, JsMap.get id (fold_left upsert es m) = Some r ∧ hr_timestamp r' ≤ hr_timestamp r.
Proof.
  induction es as [|kv es IH]; intros m id r' Hin; [done|].
  simpl. destruct Hin as [->|Hin]; [|by apply IH].
  assert (∃ r1, JsMap.get id (upsert m (id, r')) = Some r1
                ∧ hr_timestamp r' ≤ hr_timestamp r1) as (r1 & H1 & Hle).
  { rewrite upsert_get_same. destruct (JsMap.get id m) as [ex|].
    - destruct (_ >? _) eqn:E; eexists; (split; [done|]); lia.
    - eexists. split; [done|]. lia. }
  destruct (fold_upsert_keeps es _ _ _ H1) as (r & Hr & Hle'). exists r. split; [done|]. lia.
Qed.

(** An update that brings nothing newer changes nothing. *)
Lemma upsert_covered m kv r :
  JsMap.get (fst kv) m = Some r → hr_timestamp (snd kv) ≤ hr_timestamp r →
  upsert m kv = m.
Proof.
  intros H Hle. unfold upsert. rewrite H.
  assert ((hr_timestamp (snd kv) >? hr_timestamp r) = false) as -> by lia. done.
Qed.

Lemma fold_upsert_covered es : ∀ m,
  (∀ id r', In (id, r') es →
     ∃ r, JsMap.get id m = Some r ∧ hr_timestamp r' ≤ hr_timestamp r) →
  fold_left upsert es m = m.
Proof.
  induction es as [|[k v] es IH]; intros m H; [done|]. simpl.
  destruct (H k v (or_introl eq_refl)) as (r & Hr & Hle).
  rewrite (upsert_covered m (k, v) r Hr Hle). apply IH.
  intros id r' Hin. apply H. by right.
Qed.

(** Distinct new identifiers are appended in order. *)
Lemma fold_upsert_fresh es : ∀ m,
  NoDup (JsMap.keys es) → (∀ k, In k (JsMap.keys es) → ¬ In k (JsMap.keys m)) →
  fold_left upsert es m = m ++ es.
Proof.
  induction es as [|[k v] es IH]; intros m Hnd Hfresh; [by rewrite app_nil_r|].
  simpl. apply NoDup_cons in Hnd as [Hk Hnd].
  assert (JsMap.get k m = None) as Hnone.
  { apply JsMap_get_None. apply Hfresh. by left. }
  assert (upsert m (k, v) = m ++ [(k, v)]) as ->.
  { unfold upsert. simpl. rewrite Hnone. clear -Hnone.
    induction m as [|[k' v'] m IHm]; [done|]. simpl in *.
    destruct (String.eqb k k'); [done|]. by rewrite IHm. }
  rewrite IH; [by rewrite <- app_assoc|done|].
  intros k' Hk' Hin. unfold JsMap.keys in Hin. rewrite map_app in Hin.
  apply in_app_or in Hin as [Hin|[<-|[]]].
  - eapply Hfresh; [by right|done].
  - apply Hk. by apply list_elem_of_In.
Qed.

Lemma newestOf_bound id r es r' :
  newestOf id r es → In (id, r') es → hr_timestamp r' ≤ hr_timestamp r.
Proof.
  intros (pre & post & -> & Hpre & Hpost) Hin.
  apply in_app_or in Hin as [Hin|[[= <-]|Hin]]; [|lia|by apply Hpost].
  specialize (Hpre _ Hin). lia.
Qed.

Lemma newestOf_unique id r1 r2 es : newestOf id r1 es → newestOf id r2 es → r1 = r2.
Proof.
  intros (pre1 & post1 & E1 & Hpre1 & Hpost1) (pre2 & post2 & E2 & Hpre2 & Hpost2).
  rewrite E1 in E2. apply app_eq_app in E2 as [k [[-> Hk]|[-> Hk]]].
  - destruct k as [|e k]; simpl in Hk; [congruence|].
    injection Hk as <- ->.
    assert (hr_timestamp r2 < hr_timestamp r1).
    { apply Hpre1. apply in_or_app. right. by left. }
    assert (hr_timestamp r1 ≤ hr_timestamp r2).
    { apply Hpost2. apply in_or_app. right. by left. }
    lia.
  - destruct k as [|e k]; simpl in Hk; [congruence|].
    injection Hk as <- ->.
    assert (hr_timestamp r1 < hr_timestamp r2).
    { apply Hpre2. apply in_or_app. right. by left. }
    assert (hr_timestamp r2 ≤ hr_timestamp r1).
    { apply Hpost1. apply in_or_app. right. by left. }
    lia.
Qed.

Lemma fold_upsert_None es : ∀ m id,
  JsMap.get id (fold_left upsert es m) = None ↔
  JsMap.get id m = None ∧ ¬ In id (map fst es).
Proof.
  induction es as [|[k v] es IH]; intros m id; simpl; [tauto|].
  rewrite IH. destruct (decide (k = id)) as [->|Hne].
  - rewrite upsert_get_same. split.
    + intros [H _]. destruct (JsMap.get id m); [by destruct (_ >? _)|done].
    + intros [_ H]. exfalso. apply H. by left.
  - rewrite upsert_get_other by done. split.
    + intros [H1 H2]. split; [done|]. intros [?|?]; done.
    + intros [H1 H2]. split; [done|]. intros ?. apply H2. by right.
Qed.

Lemma fold_upsert_Some_newest es : ∀ id r,
  JsMap.get id (fold_left upsert es []) = Some r → newestOf id r es.
Proof.
  induction es as [|[k v] es IH] using rev_ind; intros id r; [done|].
  rewrite fold_left_app. simpl. destruct (decide (k = id)) as [->|Hne].
  - rewrite upsert_get_same.
    destruct (JsMap.get id (fold_left upsert es [])) as [ex|] eqn:E.
    + specialize (IH _ _ E).
      destruct (hr_timestamp v >? hr_timestamp ex) eqn:Egt; intros [= <-].
      * exists es, []. split_and!; [done| |by intros ? []].
        intros r' Hin. pose proof (newestOf_bound _ _ _ _ IH Hin). lia.
      * destruct IH as (pre & post & -> & Hpre & Hpost).
        exists pre, (post ++ [(id, v)]). rewrite <- app_assoc. split_and!; [done|done|].
        intros r' [Hin|[[= <-]|[]]]%in_app_or; [by apply Hpost|lia].
    + intros [= <-]. apply fold_upsert_None in E as [_ E].
      exists es, []. split_and!; [done| |by intros ? []].
      intros r' Hin. exfalso. apply E. change id with (fst (id, r')). by apply in_map.
  - rewrite upsert_get_other by done. intros H.
    destruct (IH _ _ H) as (pre & post & -> & Hpre & Hpost).
    exists pre, (post ++ [(k, v)]). rewrite <- app_assoc. split_and!; [done|done|].
    intros r' [Hin|[[= ? ?]|[]]]%in_app_or; [by apply Hpost|done].
Qed.

(** The map built from a sequence of entries holds, for each identifier, its
    newest record, the first one among equals. *)
Lemma fold_upsert_newest es id r :
  JsMap.get id (fold_left upsert es []) = Some r ↔ newestOf id r es.
Proof.
  split; [apply fold_upsert_Some_newest|].
  intros H. destruct (JsMap.get id (fold_left upsert es [])) as [r'|] eqn:E.
  - f_equal. eapply newestOf_unique; [|done]. by apply fold_upsert_Some_newest.
  - apply fold_upsert_None in E as [_ E]. exfalso. apply E.
    destruct H as (pre & post & -> & _). rewrite map_app. apply in_or_app. right. by left.
Qed.

End Upsert.

Section Sorting.

Lemma insertRecord_perm r l : Permutation (insertRecord r l) (r :: l).
Proof.
  induction l as [|r' l IH]; simpl; [done|].
  destruct (_ >? _); [|done]. rewrite IH. apply perm_swap.
Qed.

Lemma sortRecords_perm rs : Permutation (sortRecords rs) rs.
Proof.
  induction rs as [|r rs IH]; simpl; [done|].
  rewrite insertRecord_perm. by constructor.
Qed.

Lemma insertRecord_sorted r l :
  StronglySorted newerFirst l → StronglySorted newerFirst (insertRecord r l).
Proof.
  induction l as [|r' l IH]; simpl; intros Hs.
  - repeat constructor.
  - apply StronglySorted_inv in Hs as [Hs Hall].
    destruct (hr_timestamp r' >? hr_timestamp r) eqn:E.
    + constructor; [by apply IH|].
      rewrite List.Forall_forall in Hall |- *. intros x Hx.
      eapply Permutation_in in Hx; [|apply insertRecord_perm].
      destruct Hx as [<-|Hx]; [unfold newerFirst; lia|by apply Hall].
    + constructor; [by constructor|]. constructor; [unfold newerFirst; lia|].
      rewrite List.Forall_forall in Hall |- *. intros x Hx.
      specialize (Hall x Hx). unfold newerFirst in *. lia.
Qed.

Lemma sortRecords_sorted rs :
  StronglySorted newerFirst (sortRecords rs).
Proof.
  induction rs as [|r rs IH]; simpl; [constructor|]. by apply insertRecord_sorted.
Qed.

(** A list that is sorted already is left as it is. *)
Lemma sortRecords_sorted_id rs :
  StronglySorted newerFirst rs → sortRecords rs = rs.
Proof.
  induction rs as [|r rs IH]; simpl; [done|]. intros Hs.
  apply StronglySorted_inv in Hs as [Hs Hall]. rewrite (IH Hs).
  destruct rs as [|r' rs]; [done|]. simpl.
  apply Forall_inv in Hall. unfold newerFirst in Hall.
  assert ((hr_timestamp r' >? hr_timestamp r) = false) as -> by lia. done.
Qed.

(** The sort keeps the order of records with equal time stamps. *)
Lemma insertRecord_stable r l t :
  List.filter (fun x => hr_timestamp x =? t) (insertRecord r l)
  = List.filter (fun x => hr_timestamp x =? t) (r :: l).
Proof.
  induction l as [|r' l IH]; [done|]. cbn [insertRecord].
  destruct (hr_timestamp r' >? hr_timestamp r) eqn:E; [|done].
  cbn [List.filter] in *. rewrite IH.
  destruct (hr_timestamp r' =? t) eqn:E1; destruct (hr_timestamp r =? t) eqn:E2; try done.
  lia.
Qed.

Lemma sortRecords_stable rs t :
  List.filter (fun x => hr_timestamp x =? t) (sortRecords rs)
  = List.filter (fun x => hr_timestamp x =? t) rs.
Proof.
  induction rs as [|r rs IH]; [done|]. cbn [sortRecords foldr].
  rewrite insertRecord_stable. cbn [List.filter].
  fold (sortRecords rs). by rewrite IH.
Qed.

Lemma insertEntry_snd kv l :
  map snd (insertEntry kv l) = insertRecord (snd kv) (map snd l).
Proof.
  induction l as [|kv' l IH]; simpl; [done|].
  destruct (_ >? _); simpl; [by rewrite IH|done].
Qed.

Lemma sortEntries_snd es :
  map snd (sortEntries es) = sortRecords (map snd es).
Proof.
  induction es as [|kv es IH]; simpl; [done|]. by rewrite insertEntry_snd, IH.
Qed.

Lemma insertEntry_perm kv l : Permutation (insertEntry kv l) (kv :: l).
Proof.
  induction l as [|kv' l IH]; simpl; [done|].
  destruct (_ >? _); [|done]. rewrite IH. apply perm_swap.
Qed.

Lemma sortEntries_perm es : Permutation (sortEntries es) es.
Proof.
  induction es as [|kv es IH]; simpl; [done|].
  rewrite insertEntry_perm. by constructor.
Qed.

End Sorting.

Section History.
Variable env : Env.

(** *** The raw map at typed lines *)

Lemma get_rawOf (m : list (string * HistoryRecord)) id :
  JsAnyMap.get (JsString id) (map rawOf m) = keptOf <$> JsMap.get id m.
Proof.
  induction m as [|[k v] m IH]; [done|]. cbn.
  destruct (String.eqb id k) eqn:E.
  - apply String.eqb_eq in E as ->. by rewrite decide_True.
  - apply String.eqb_neq in E. rewrite decide_False by congruence. apply IH.
Qed.

Lemma get_rawOf_other (m : list (string * HistoryRecord)) k :
  (∀ id, k ≠ JsString id) → JsAnyMap.get k (map rawOf m) = None.
Proof.
  intros Hk. induction m as [|[k' v] m IH]; [done|]. cbn.
  rewrite decide_False; [done|]. apply Hk.
Qed.

Lemma get_rawOf_congr (m1 m2 : list (string * HistoryRecord)) k :
  (∀ id, JsMap.get id m1 = JsMap.get id m2) →
  JsAnyMap.get k (map rawOf m1) = JsAnyMap.get k (map rawOf m2).
Proof.
  intros H. destruct k as [| |b|n|s|ref]; try (rewrite !get_rawOf_other; done).
  by rewrite !get_rawOf, H.
Qed.

Lemma set_rawOf (m : list (string * HistoryRecord)) id r :
  JsAnyMap.set (JsString id) (keptOf r) (map rawOf m) = map rawOf (JsMap.set id r m).
Proof.
  induction m as [|[k v] m IH]; [done|]. cbn.
  destruct (String.eqb id k) eqn:E.
  - apply String.eqb_eq in E as ->. by rewrite decide_True.
  - apply String.eqb_neq in E. rewrite decide_False by congruence.
    cbn. f_equal. apply IH.
Qed.

Lemma keys_rawOf (m : list (string * HistoryRecord)) :
  JsAnyMap.keys (map rawOf m) = map JsString (JsMap.keys m).
Proof. unfold JsAnyMap.keys, JsMap.keys. rewrite !map_map. done. Qed.

Lemma keys_rawOf_NoDup (m : list (string * HistoryRecord)) :
  NoDup (JsMap.keys m) → NoDup (JsAnyMap.keys (map rawOf m)).
Proof.
  rewrite keys_rawOf. induction 1 as [|k ks Hk Hnd IH]; cbn [map]; constructor; [|done].
  intros Hin%list_elem_of_In. apply in_map_iff in Hin as (k' & [= ->] & Hin).
  by apply Hk, list_elem_of_In.
Qed.

Lemma values_rawOf (m : list (string * HistoryRecord)) :
  JsAnyMap.values (map rawOf m) = map keptOf (JsMap.values m).
Proof. unfold JsAnyMap.values, JsMap.values. rewrite !map_map. done. Qed.

(** A line that is passed over changes nothing, whatever the map holds. *)
Lemma parseLine_skipped entries l :
  skipped env l → SyncService.parseLine env entries l = entries.
Proof.
  unfold skipped, SyncService.parseLine.
  intros [Hb|[Hp|(entry & Hp & Ht)]].
  - by rewrite Hb.
  - destruct (Js.isBlank l); [done|]. by rewrite Hp.
  - destruct (Js.isBlank l); [done|]. by rewrite Hp, Ht.
Qed.

(** A typed line does to the raw map what its reading does to the typed
    map. *)
Lemma parseLine_typed m l :
  typedLine env l = true →
  SyncService.parseLine env (map rawOf m) l
  = map rawOf (match readEntry env l with
               | Some kv => upsert m kv
               | None => m
               end).
Proof.
  unfold typedLine, SyncService.parseLine, readEntry.
  destruct (Js.isBlank l); [done|]. cbn [orb].
  destruct (parseHistoryLine env l) as [[sid ts]|]; [|done]. cbn [sessionId timestamp].
  destruct (SyncService.truthyValue sid) eqn:Et; cbn [negb orb].
  - destruct sid as [| |b|n|s|ref]; try done. destruct ts as [| |b|n|s'|ref]; try done.
    intros _. cbn [SyncService.truthyValue] in Et.
    destruct (String.eqb s ""); [done|].
    rewrite get_rawOf. unfold upsert. cbn [fst snd].
    destruct (JsMap.get s m) as [existing|]; cbn [fmap option_fmap option_map].
    + cbn [SyncService.greaterThan SyncService.plainNumber keptOf kept_timestamp
           hr_timestamp].
      destruct (n >? hr_timestamp existing); [|done].
      apply (set_rawOf m s {| line := l; hr_timestamp := n |}).
    + apply (set_rawOf m s {| line := l; hr_timestamp := n |}).
  - intros _. destruct sid as [| |b|n|s|ref]; try done.
    destruct ts as [| |b|n|s'|ref]; try done.
    cbn [SyncService.truthyValue] in Et. by destruct (String.eqb s "").
Qed.

Lemma omap_cons_readEntry l ls :
  omap (readEntry env) (l :: ls)
  = match readEntry env l with
    | Some y => y :: omap (readEntry env) ls
    | None => omap (readEntry env) ls
    end.
Proof. reflexivity. Qed.

Lemma parseLines_typed content m :
  wellTyped env content →
  SyncService.parseLines env content (map rawOf m)
  = map rawOf (fold_left upsert (validEntries env content) m).
Proof.
  unfold wellTyped, SyncService.parseLines, validEntries.
  generalize (Js.split "010" content). intros ls. revert m.
  induction ls as [|l ls IH]; intros m Hty; [done|].
  cbn [forallb] in Hty. apply andb_true_iff in Hty as [Hl Hls].
  cbn [fold_left]. rewrite (parseLine_typed m l Hl), omap_cons_readEntry.
  destruct (readEntry env l); cbn [fold_left]; by apply IH.
Qed.

Lemma readEntry_line l kv : readEntry env l = Some kv → line (snd kv) = l.
Proof.
  unfold readEntry. destruct (Js.isBlank l); [done|].
  destruct (parseHistoryLine env l) as [[sid ts]|]; [|done].
  destruct sid; try done. destruct ts; try done.
  destruct (String.eqb _ _); [done|]. by intros [= <-].
Qed.

Lemma readEntry_typedLine l kv : readEntry env l = Some kv → typedLine env l = true.
Proof.
  unfold readEntry, typedLine. destruct (Js.isBlank l); [done|].
  destruct (parseHistoryLine env l) as [[sid ts]|]; [|done].
  destruct sid; try done. destruct ts; try done. intros _.
  cbn. apply orb_true_r.
Qed.

(** *** The sort at time stamps that are numbers *)

Lemma insertByTimestamp_keptOf r l :
  SyncService.insertByTimestamp (keptOf r) (map keptOf l) = map keptOf (insertRecord r l).
Proof.
  induction l as [|r' l IH]; [done|]. cbn [map SyncService.insertByTimestamp insertRecord].
  change (SyncService.numberOf (keptOf r')) with (hr_timestamp r').
  change (SyncService.numberOf (keptOf r)) with (hr_timestamp r).
  destruct (_ >? _); cbn [map]; [by rewrite IH|done].
Qed.

Lemma foldr_insertByTimestamp_keptOf rs :
  foldr SyncService.insertByTimestamp [] (map keptOf rs) = map keptOf (sortRecords rs).
Proof.
  induction rs as [|r rs IH]; [done|]. cbn [map foldr sortRecords].
  rewrite IH. apply insertByTimestamp_keptOf.
Qed.

Lemma sortByTimestampDesc_keptOf rs :
  SyncService.sortByTimestampDesc env (map keptOf rs) = Ok (map keptOf (sortRecords rs)).
Proof.
  destruct rs as [|r [|r' rs]]; [done|done|].
  unfold SyncService.sortByTimestampDesc.
  set (l := map keptOf (r :: r' :: rs)).
  assert (forallb (fun r => bool_decide (is_Some (SyncService.plainNumber (kept_timestamp r)))) l
          = true) as Hall.
  { apply forallb_forall. intros x Hx. apply in_map_iff in Hx as (y & <- & _).
    apply bool_decide_eq_true_2. by eexists. }
  unfold l at 1. cbn [map]. fold (map keptOf rs).
  change (keptOf r :: keptOf r' :: map keptOf rs) with l.
  rewrite Hall. unfold l. by rewrite foldr_insertByTimestamp_keptOf.
Qed.

Lemma validEntries_genuine content : Forall (genuine env) (validEntries env content).
Proof.
  unfold validEntries. apply List.Forall_forall. intros kv Hin.
  apply list_elem_of_In, list_elem_of_omap in Hin as (l & Hl & Hkv).
  apply list_elem_of_In, split_lacks in Hl.
  pose proof (readEntry_line _ _ Hkv) as E. split; by rewrite E.
Qed.

Lemma upsert_genuine m kv :
  Forall (genuine env) m → genuine env kv → Forall (genuine env) (upsert m kv).
Proof.
  intros Hm Hkv. unfold upsert.
  assert (Forall (genuine env) (JsMap.set (fst kv) (snd kv) m)) as Hset.
  { apply List.Forall_forall. intros x [->|Hx]%JsMap_In_set.
    - by destruct kv.
    - by eapply List.Forall_forall in Hm. }
  destruct (JsMap.get _ m); [|done]. by destruct (_ >? _).
Qed.

Lemma fold_upsert_genuine es : ∀ m,
  Forall (genuine env) m → Forall (genuine env) es →
  Forall (genuine env) (fold_left upsert es m).
Proof.
  induction es as [|kv es IH]; intros m Hm Hes; [done|]. simpl.
  apply Forall_cons in Hes as [Hkv Hes]. apply IH; [|done]. by apply upsert_genuine.
Qed.

(** Reading a merged text back gives the entries it was written from. *)
Lemma validEntries_historyText es :
  Forall (genuine env) es → validEntries env (historyText (map snd es)) = es.
Proof.
  intros Hes. unfold validEntries, historyText.
  assert (Hread : omap (readEntry env) (map line (map snd es)) = es).
  { induction es as [|kv es IH]; [done|]. apply Forall_cons in Hes as [[Hkv _] Hes].
    cbn [map]. change (omap (readEntry env) (line (snd kv) :: map line (map snd es)))
      with (match readEntry env (line (snd kv)) with
            | Some y => y :: omap (readEntry env) (map line (map snd es))
            | None => omap (readEntry env) (map line (map snd es))
            end).
    rewrite Hkv. f_equal. by apply IH. }
  destruct es as [|kv es]; [done|].
  set (ls := map line (map snd (kv :: es))) in *.
  assert (Js.join SyncService.LF ls +:+ SyncService.LF
          = Js.join SyncService.LF (ls ++ [""])) as ->.
  { rewrite join_snoc by done. unfold SyncService.LF.
    rewrite (append_cons _ "" ""), append_empty_l. done. }
  unfold SyncService.LF. rewrite split_join.
  - rewrite omap_app. rewrite Hread. apply app_nil_r.
  - by destruct ls.
  - apply Forall_app. split; [|by repeat constructor].
    unfold ls. clear -Hes. induction Hes as [|x l [_ Hx] _ IH]; [constructor|].
    by constructor.
Qed.

Lemma JsMap_get_perm {V} (m1 m2 : list (string * V)) id :
  NoDup (JsMap.keys m1) → Permutation m1 m2 → JsMap.get id m1 = JsMap.get id m2.
Proof.
  intros Hnd Hp.
  assert (Hnd2 : NoDup (JsMap.keys m2)).
  { unfold JsMap.keys. by rewrite <- Hp. }
  destruct (JsMap.get id m1) as [v|] eqn:E1.
  - symmetry. apply JsMap_In_get; [done|]. eapply Permutation_in; [done|].
    by apply JsMap_get_Some_In.
  - destruct (JsMap.get id m2) as [v|] eqn:E2; [|done].
    apply JsMap_get_Some_In in E2. symmetry in Hp. eapply Permutation_in in E2; [|done].
    apply JsMap_In_get in E2; [congruence|done].
Qed.

(** The text of a merge, by the entries of its two inputs. *)
Lemma mergedText_entries localContent remoteContent :
  mergedText env localContent remoteContent
  = historyText
      (map snd (sortEntries (fold_left upsert
                               (validEntries env localContent
                                ++ validEntries env remoteContent) []))).
Proof.
  unfold mergedText. by rewrite sortEntries_snd.
Qed.

Lemma sortEntries_settled m :
  NoDup (JsMap.keys m) → Forall (genuine env) m → settled env (sortEntries m).
Proof.
  intros Hnd Hg. pose proof (sortEntries_perm m) as Hp. split_and!.
  - unfold JsMap.keys. by rewrite Hp.
  - by rewrite Hp.
  - rewrite sortEntries_snd. apply sortRecords_sorted.
Qed.

(** A settled text absorbs any source it covers. *)
Lemma mergedText_absorbs es remoteContent :
  settled env es → covers es (validEntries env remoteContent) →
  mergedText env (historyText (map snd es)) remoteContent
  = historyText (map snd es).
Proof.
  intros (Hnd & Hg & Hs) Hc. rewrite mergedText_entries.
  rewrite (validEntries_historyText es Hg), fold_left_app.
  rewrite (fold_upsert_fresh es []) by (done || by intros ? ? []).
  rewrite app_nil_l, (fold_upsert_covered _ es Hc).
  by rewrite sortEntries_snd, (sortRecords_sorted_id _ Hs).
Qed.

(** What a merge returns: a settled text that covers both of its inputs and
    maps each identifier as the map of the two inputs does. *)
Lemma mergedText_settled localContent remoteContent :
  let m := fold_left upsert (validEntries env localContent
                             ++ validEntries env remoteContent) [] in
  ∃ es, mergedText env localContent remoteContent
        = historyText (map snd es)
    ∧ settled env es
    ∧ (∀ id, JsMap.get id es = JsMap.get id m)
    ∧ covers es (validEntries env localContent)
    ∧ covers es (validEntries env remoteContent).
Proof.
  intros m. exists (sortEntries m).
  assert (Hnd : NoDup (JsMap.keys m)) by (apply fold_upsert_NoDup, NoDup_nil_2).
  assert (Hg : Forall (genuine env) m).
  { apply fold_upsert_genuine; [constructor|].
    apply Forall_app. split; apply validEntries_genuine. }
  assert (Hget : ∀ id, JsMap.get id (sortEntries m) = JsMap.get id m).
  { intros id. apply JsMap_get_perm; [|apply sortEntries_perm].
    unfold JsMap.keys. by rewrite (sortEntries_perm m). }
  split_and!.
  - apply mergedText_entries.
  - by apply sortEntries_settled.
  - done.
  - intros id r' Hin. rewrite Hget. apply fold_upsert_covers. apply in_or_app. by left.
  - intros id r' Hin. rewrite Hget. apply fold_upsert_covers. apply in_or_app. by right.
Qed.

Lemma fold_merge_absorbs es remotes :
  settled env es → Forall (fun R => covers es (validEntries env R)) remotes →
  fold_left (mergedText env) remotes (historyText (map snd es))
  = historyText (map snd es).
Proof.
  intros Hs. induction remotes as [|R remotes IH]; [done|].
  intros [HR Hrest]%Forall_cons. simpl.
  rewrite (mergedText_absorbs es R Hs HR). by apply IH.
Qed.

Lemma fold_merge_settled remotes : ∀ localContent,
  remotes ≠ [] →
  ∃ es, fold_left (mergedText env) remotes localContent
        = historyText (map snd es)
    ∧ settled env es
    ∧ Forall (fun R => covers es (validEntries env R)) remotes.
Proof.
  induction remotes as [|R remotes IH] using rev_ind; intros localContent Hne; [done|].
  rewrite fold_left_app. simpl.
  set (X := fold_left (mergedText env) remotes localContent).
  destruct (mergedText_settled X R) as (es & Htext & Hs & Hget & HcX & HcR).
  exists es. split_and!; [done|done|].
  apply Forall_app. split; [|by repeat constructor].
  destruct remotes as [|R0 remotes0]; [constructor|].
  destruct (IH localContent ltac:(done)) as (es' & HX & Hs' & Hc').
  fold X in HX. apply List.Forall_forall. intros Ri HRi id r' Hin.
  rewrite List.Forall_forall in Hc'. destruct (Hc' Ri HRi id r' Hin) as (r0 & Hr0 & Hle).
  destruct Hs' as (_ & Hg' & _).
  assert (In (id, r0) (validEntries env X)) as Hin0.
  { rewrite HX, (validEntries_historyText es' Hg'). by apply JsMap_get_Some_In. }
  destruct (HcX id r0 Hin0) as (r & Hr & Hle'). exists r. split; [done|]. lia.
Qed.

(** Merging the same remote files into the merged text changes nothing. *)
Lemma fold_merge_idempotent remotes localContent :
  let merged := fold_left (mergedText env) remotes localContent in
  fold_left (mergedText env) remotes merged = merged.
Proof.
  intros merged. destruct remotes as [|R remotes]; [done|].
  destruct (fold_merge_settled (R :: remotes) localContent ltac:(done))
    as (es & Htext & Hs & Hc).
  unfold merged. rewrite Htext. by apply fold_merge_absorbs.
Qed.

(** *** The merge of the code at typed texts *)

(** The lines of a merged text: the lines of its records and the empty line
    after the last line feed. *)
Lemma split_historyText es :
  Forall (genuine env) es → es ≠ [] →
  Js.split "010" (historyText (map snd es)) = map line (map snd es) ++ [""].
Proof.
  intros Hes Hne. unfold historyText.
  destruct es as [|kv es]; [done|].
  set (ls := map line (map snd (kv :: es))) in *.
  assert (Js.join SyncService.LF ls +:+ SyncService.LF
          = Js.join SyncService.LF (ls ++ [""])) as ->.
  { rewrite join_snoc by done. unfold SyncService.LF.
    rewrite (append_cons _ "" ""), append_empty_l. done. }
  unfold SyncService.LF. rewrite split_join; [done|by destruct ls|].
  apply Forall_app. split; [|by repeat constructor].
  unfold ls. clear -Hes. induction Hes as [|x l [_ Hx] _ IH]; [constructor|].
  by constructor.
Qed.

Lemma historyText_wellTyped es :
  Forall (genuine env) es → wellTyped env (historyText (map snd es)).
Proof.
  intros Hes. unfold wellTyped.
  destruct (decide (es = [])) as [->|Hne]; [done|].
  rewrite (split_historyText es Hes Hne).
  rewrite forallb_app. apply andb_true_iff. split; [|done].
  apply forallb_forall. intros l Hl.
  apply in_map_iff in Hl as (r & <- & Hr). apply in_map_iff in Hr as (kv & <- & Hkv).
  rewrite List.Forall_forall in Hes. destruct (Hes kv Hkv) as [Hread _].
  by eapply readEntry_typedLine.
Qed.

(** On typed texts the merge does not throw, and its text is the typed
    merge. *)
Lemma mergeHistoryFiles_typed localContent remoteContent :
  wellTyped env localContent → wellTyped env remoteContent →
  SyncService.mergeHistoryFiles env localContent remoteContent
  = Ok (mergedText env localContent remoteContent).
Proof.
  intros Hl Hr. unfold SyncService.mergeHistoryFiles, mergedText.
  change (@nil (JsValue * KeptLine)) with (map rawOf []).
  rewrite (parseLines_typed localContent [] Hl), (parseLines_typed remoteContent _ Hr).
  rewrite <- fold_left_app. cbv zeta.
  rewrite values_rawOf, sortByTimestampDesc_keptOf. unfold historyText.
  by rewrite map_map.
Qed.

Lemma mergedText_wellTyped localContent remoteContent :
  wellTyped env (mergedText env localContent remoteContent).
Proof.
  destruct (mergedText_settled localContent remoteContent)
    as (es & -> & (_ & Hg & _) & _).
  by apply historyText_wellTyped.
Qed.

Lemma mergeOrKeep_typed merged remoteContent :
  wellTyped env merged → wellTyped env remoteContent →
  mergeOrKeep env merged remoteContent = mergedText env merged remoteContent.
Proof. intros Hm Hr. unfold mergeOrKeep. by rewrite mergeHistoryFiles_typed. Qed.

Lemma fold_mergeOrKeep_typed remotes : ∀ localContent,
  wellTyped env localContent → Forall (wellTyped env) remotes →
  fold_left (mergeOrKeep env) remotes localContent
  = fold_left (mergedText env) remotes localContent
  ∧ wellTyped env (fold_left (mergedText env) remotes localContent).
Proof.
  induction remotes as [|R remotes IH]; intros localContent Hl Hrs; [done|].
  apply Forall_cons in Hrs as [HR Hrs]. cbn [fold_left].
  rewrite (mergeOrKeep_typed _ _ Hl HR).
  apply IH; [apply mergedText_wellTyped|done].
Qed.

(** Merging [A] and [B] and then [C] maps every identifier as one pass over
    [A], [B] and [C] does. *)
Lemma merge_then_merge_one_pass A B C id :
  wellTyped env A → wellTyped env B → wellTyped env C →
  JsAnyMap.get id (mergeInOnePass env [mergedText env A B; C])
  = JsAnyMap.get id (mergeInOnePass env [A; B; C]).
Proof.
  intros HA HB HC. unfold mergeInOnePass. cbn [fold_left].
  change (@nil (JsValue * KeptLine)) with (map rawOf []).
  rewrite (parseLines_typed A [] HA), (parseLines_typed B _ HB), (parseLines_typed C _ HC).
  rewrite (parseLines_typed _ [] (mergedText_wellTyped A B)), (parseLines_typed C _ HC).
  apply get_rawOf_congr. intros s.
  apply fold_upsert_congr.
  destruct (mergedText_settled A B) as (es & Htext & (Hnd & Hg & _) & Hget & _).
  rewrite Htext, (validEntries_historyText es Hg).
  rewrite (fold_upsert_fresh es []) by (done || by intros ? ? []).
  rewrite app_nil_l, Hget. by rewrite fold_left_app.
Qed.

(** The raw map of two typed texts, by the typed entries of both. *)
Lemma parseLines_entries localContent remoteContent :
  wellTyped env localContent → wellTyped env remoteContent →
  SyncService.parseLines env remoteContent (SyncService.parseLines env localContent [])
  = map rawOf (fold_left upsert
                 (validEntries env localContent ++ validEntries env remoteContent) []).
Proof.
  intros Hl Hr. change (@nil (JsValue * KeptLine)) with (map rawOf []).
  rewrite (parseLines_typed localContent [] Hl), (parseLines_typed remoteContent _ Hr).
  by rewrite <- fold_left_app.
Qed.

End History.

Example mergeHistoryFiles_sample :
  let a5 := Sample.historyLine "a" "5" in
  let b7 := Sample.historyLine "b" "7" in
  let a9 := Sample.historyLine "a" "9" in
  let c7 := Sample.historyLine "c" "7" in
  let a9' := Sample.historyLine "a" "09" in
  SyncService.mergeHistoryFiles Sample.env
    (a5 +:+ SyncService.LF +:+ b7 +:+ SyncService.LF +:+ "not json" +:+ SyncService.LF)
    (a9 +:+ SyncService.LF +:+ SyncService.LF +:+ c7 +:+ SyncService.LF +:+ a9')
  = Ok (a9 +:+ SyncService.LF +:+ b7 +:+ SyncService.LF +:+ c7 +:+ SyncService.LF).
Proof. vm_compute. reflexivity. Qed.

(** ** The orchestrator and its files *)

Section Files.
Variable env : Env.

Lemma onClient_run {A} (m : M WebDavClient.State A) w :
  onClient m w = (result m (conn w), set_conn (fun _ => exec m (conn w)) w).
Proof. unfold onClient, result, exec. by destruct (m (conn w)). Qed.

Lemma preserves_onClient {A} (I : World → Prop) (m : M WebDavClient.State A) :
  (∀ w, I w → I (set_conn (fun _ => exec m (conn w)) w)) → preserves I (onClient m).
Proof. intros H w Hw. unfold exec at 1. rewrite onClient_run. by apply H. Qed.

(** The local files and the log of writes are as given. *)
Definition filesAre (f0 : gmap string Node) (ws0 : list (string * string)) (w : World)
    : Prop :=
  fs w = f0 ∧ fsWrites w = ws0.

Lemma listRemoteHosts_files f0 ws0 : preserves (filesAre f0 ws0) (SyncService.listRemoteHosts env).
Proof.
  unfold SyncService.listRemoteHosts. apply preserves_bind; [apply preserves_gets|].
  intros c. destruct (negb c); [apply preserves_ret|].
  apply preserves_tryCatch; [|intros; apply preserves_ret].
  apply preserves_bind; [|intros; apply preserves_ret].
  by apply preserves_onClient.
Qed.

Lemma listRemoteHosts_returns : returns (SyncService.listRemoteHosts env).
Proof.
  intros w. unfold SyncService.listRemoteHosts, result, bind, gets.
  destruct (negb (client w)); [by eexists|].
  unfold tryCatch, bind, ret.
  destruct (onClient _ w) as [[items|e] w1]; by eexists.
Qed.

(** The merged text is the local text merged with the remote histories that
    could be fetched, in host order, a merge that throws leaving the text as
    it was; no local file is touched. *)
Lemma mergeRemoteHistories_run hosts : ∀ merged w,
  ∃ contents w',
    SyncService.mergeRemoteHistories env hosts merged w
    = (Ok (fold_left (mergeOrKeep env) contents merged), w')
    ∧ fs w' = fs w ∧ fsWrites w' = fsWrites w.
Proof.
  induction hosts as [|host hosts IH]; intros merged w.
  - by exists [], w.
  - cbn [SyncService.mergeRemoteHistories].
    destruct (String.eqb host (hostname env)); [apply IH|].
    unfold bind at 1. unfold tryCatch at 1. unfold bind at 1.
    rewrite onClient_run.
    destruct (result (WebDavClient.download _) (conn w)) as [rc|e].
    + unfold outcome at 1.
      destruct (IH (mergeOrKeep env merged rc)
                  (set_conn (fun _ => exec (WebDavClient.download
                     ("/hosts/" +:+ host +:+ "/history.jsonl")) (conn w)) w))
        as (contents & w' & E & Hf & Hw).
      exists (rc :: contents), w'. cbn [fold_left].
      split; [|done]. rewrite <- E. unfold mergeOrKeep at 1.
      by destruct (SyncService.mergeHistoryFiles env merged rc) as [text|e].
    + unfold ret at 1.
      destruct (IH merged
                  (set_conn (fun _ => exec (WebDavClient.download
                     ("/hosts/" +:+ host +:+ "/history.jsonl")) (conn w)) w))
        as (contents & w' & E & Hf & Hw).
      exists contents, w'. by rewrite E.
Qed.

Lemma writeFileSync_run p content w :
  (∃ e, writeFileSync p content w = (Throw e, w))
  ∨ (∃ w', writeFileSync p content w = (Ok tt, w')
           ∧ fsWrites w' = fsWrites w ++ [(p, content)]
           ∧ Fs.readFileSync (S:=unit) (fs w') p tt = (Ok content, tt)
           ∧ conn w' = conn w).
Proof.
  unfold writeFileSync, dateNow, bind, gets, Fs.writeFile, Fs.readFileSync.
  destruct (fs w !! p) as [[c mt|names]|] eqn:E.
  - right. eexists. split; [done|]. simpl. by rewrite lookup_insert_eq.
  - left. by eexists.
  - right. eexists. split; [done|]. simpl. by rewrite lookup_insert_eq.
Qed.

Lemma bind_Ok {S A B} (m : M S A) (k : A → M S B) s a s1 :
  m s = (Ok a, s1) → bind m k s = k a s1.
Proof. intros E. unfold bind. by rewrite E. Qed.

Lemma bind_Throw {S A B} (m : M S A) (k : A → M S B) s e s1 :
  m s = (Throw e, s1) → bind m k s = (Throw e, s1).
Proof. intros E. unfold bind. by rewrite E. Qed.

Lemma listRemoteHosts_run w :
  ∃ hosts w', SyncService.listRemoteHosts env w = (Ok hosts, w')
    ∧ fs w' = fs w ∧ fsWrites w' = fsWrites w.
Proof.
  destruct (listRemoteHosts_returns w) as [hosts Hr].
  pose proof (listRemoteHosts_files (fs w) (fsWrites w) w (conj eq_refl eq_refl)) as [H1 H2].
  unfold result, exec in *.
  destruct (SyncService.listRemoteHosts env w) as [r w']. simpl in *. subst r.
  by exists hosts, w'.
Qed.

(** [syncHistoryFile] writes the local history at most once, and only a
    merged text that differs from what the file held. *)
Lemma syncHistoryFile_writes w :
  let w' := exec (SyncService.syncHistoryFile env) w in
  fsWrites w' = fsWrites w
  ∨ ∃ d localContent contents,
      SyncService.primaryDir env = Some d
      ∧ ((Fs.existsSync (fs w) (path_join env d "history.jsonl") = false
          ∧ localContent = "")
         ∨ ∃ mt, fs w !! path_join env d "history.jsonl" = Some (File localContent mt))
      ∧ fold_left (mergeOrKeep env) contents localContent ≠ localContent
      ∧ fsWrites w'
        = fsWrites w
          ++ [(path_join env d "history.jsonl",
               fold_left (mergeOrKeep env) contents localContent)].
Proof.
  intros w'. assert (Ew' : w' = exec (SyncService.syncHistoryFile env) w) by done.
  clearbody w'. unfold SyncService.syncHistoryFile, exec in Ew'.
  unfold bind at 1 in Ew'. unfold gets at 1 in Ew'.
  destruct (negb (client w)); [left; by subst w'|].
  destruct (SyncService.primaryDir env) as [d|] eqn:Ed; [|left; by subst w'].
  cbn [SyncService.truthy] in Ew'.
  change (default "" (Some d)) with d in Ew'.
  destruct (negb (negb (String.eqb d ""))); [left; by subst w'|].
  unfold bind at 1 in Ew'. unfold gets at 1 in Ew'.
  set (p := path_join env d "history.jsonl") in *.
  assert (Hread : ∃ localContent,
            ((Fs.existsSync (fs w) p = false ∧ localContent = "")
             ∨ ∃ mt, fs w !! p = Some (File localContent mt))
            ∧ (if Fs.existsSync (fs w) p then Fs.readFileSync (fs w) p else ret "") w
              = (Ok localContent, w)
          ∨ ∃ e, (if Fs.existsSync (fs w) p then Fs.readFileSync (fs w) p else ret "") w
                 = (Throw e, w)).
  { destruct (Fs.existsSync (fs w) p) eqn:Ex.
    - unfold Fs.readFileSync. destruct (fs w !! p) as [[c mt|names]|] eqn:E.
      + exists c. left. split; [right; by exists mt|done].
      + exists "". right. by eexists.
      + exists "". right. by eexists.
    - exists "". left. split; [by left|done]. }
  destruct Hread as (localContent & [[Hlocal E]|[e E]]);
    [rewrite (bind_Ok _ _ _ _ _ E) in Ew'
    |rewrite (bind_Throw _ _ _ _ _ E) in Ew'; left; by subst w'].
  unfold tryCatch in Ew'.
  (* the upload of the local history *)
  set (up := when (negb (String.eqb localContent ""))
               (onClient (WebDavClient.upload (SyncService.hostPrefix env +:+ "/history.jsonl")
                            localContent))) in *.
  assert (Hup : ∃ r w1, up w = (r, w1) ∧ fs w1 = fs w ∧ fsWrites w1 = fsWrites w).
  { unfold up, when. destruct (negb _); [|by exists (Ok tt), w].
    rewrite onClient_run. by eexists _, _. }
  destruct Hup as ([[]|e] & w1 & Eup & Hf1 & Hw1);
    [rewrite (bind_Ok _ _ _ _ _ Eup) in Ew'
    |rewrite (bind_Throw _ _ _ _ _ Eup) in Ew'; left; by subst w'].
  destruct (listRemoteHosts_run w1) as (hosts & w2 & Eh & Hf2 & Hw2).
  rewrite (bind_Ok _ _ _ _ _ Eh) in Ew'.
  destruct (mergeRemoteHistories_run hosts localContent w2)
    as (contents & w3 & Em & Hf3 & Hw3).
  rewrite (bind_Ok _ _ _ _ _ Em) in Ew'.
  set (merged := fold_left (mergeOrKeep env) contents localContent) in *.
  unfold when in Ew'. destruct (String.eqb merged localContent) eqn:Eeq; cbn [negb] in Ew'.
  - left. subst w'. cbn [snd ret]. congruence.
  - apply String.eqb_neq in Eeq.
    destruct (writeFileSync_run p merged w3) as [[e Ew]|(w4 & Ew & Hw4 & _)];
      rewrite Ew in Ew'.
    + left. subst w'. cbn [snd ret]. congruence.
    + right. exists d, localContent, contents. split_and!; [done|done|done|].
      subst w'. cbn [snd]. by rewrite Hw4, Hw3, Hw2, Hw1.
Qed.

End Files.

(** C3 (as amended).  Where every line of both inputs is as the declared
    types have it (passed over, or with a string for its [sessionId] and a
    number for its [timestamp]), [mergeHistoryFiles] maps each session
    identifier to the record with the greatest time stamp among the entries
    of both inputs, the first one in scan order (local lines, then remote
    lines) among equals, and holds nothing else; the text returned is the
    surviving records, newest first, one per line, each line ended by a line
    feed, and is typed again; merging the same remote text again, or the
    same list of typed remote texts again, returns the merged text
    unchanged; merging [A] with [B] and the result with [C] maps every key
    as one pass over [A], [B] and [C] does.  Whatever the lines are, a line
    that is blank, does not parse or has a missing, null, false, zero or
    empty [sessionId] changes nothing, and [syncHistoryFile] writes the
    local file at most once and only a merged text that differs from the one
    it read. *)
Theorem mergeHistoryFiles_newest_per_session
    (env : Env) (localContent remoteContent : string) :
  wellTyped env localContent → wellTyped env remoteContent →
  let entries :=
    SyncService.parseLines env remoteContent (SyncService.parseLines env localContent []) in
  let es := validEntries env localContent ++ validEntries env remoteContent in
  (∀ key kept, JsAnyMap.get key entries = Some kept ↔
       ∃ id r, key = JsString id ∧ kept = keptOf r ∧ newestOf id r es)
  ∧ NoDup (JsAnyMap.keys entries)
  ∧ (∀ m l, skipped env l → SyncService.parseLine env m l = m)
  ∧ (∃ rs, SyncService.mergeHistoryFiles env localContent remoteContent
           = Ok (Js.join SyncService.LF (map line rs) +:+ SyncService.LF)
       ∧ Permutation (map keptOf rs) (JsAnyMap.values entries)
       ∧ StronglySorted newerFirst rs)
  ∧ (∀ A B, wellTyped env A → wellTyped env B →
       ∃ text, SyncService.mergeHistoryFiles env A B = Ok text ∧ wellTyped env text)
  ∧ (∃ merged, SyncService.mergeHistoryFiles env localContent remoteContent = Ok merged
       ∧ SyncService.mergeHistoryFiles env merged remoteContent = Ok merged)
  ∧ (∀ remotes, Forall (wellTyped env) remotes →
       let merged := fold_left (mergeOrKeep env) remotes localContent in
       wellTyped env merged ∧ fold_left (mergeOrKeep env) remotes merged = merged)
  ∧ (∀ w,
       let w' := exec (SyncService.syncHistoryFile env) w in
       fsWrites w' = fsWrites w
       ∨ ∃ d text contents,
           SyncService.primaryDir env = Some d
           ∧ ((Fs.existsSync (fs w) (path_join env d "history.jsonl") = false ∧ text = "")
              ∨ ∃ mt, fs w !! path_join env d "history.jsonl" = Some (File text mt))
           ∧ fold_left (mergeOrKeep env) contents text ≠ text
           ∧ fsWrites w'
             = fsWrites w
               ++ [(path_join env d "history.jsonl",
                    fold_left (mergeOrKeep env) contents text)])
  ∧ (∀ A B C, wellTyped env A → wellTyped env B → wellTyped env C →
       ∃ merged, SyncService.mergeHistoryFiles env A B = Ok merged
         ∧ ∀ key, JsAnyMap.get key (mergeInOnePass env [merged; C])
                  = JsAnyMap.get key (mergeInOnePass env [A; B; C])).
Proof.
  intros Hl Hr entries es.
  assert (Hentries : entries = map rawOf (fold_left upsert es [])).
  { unfold entries, es. by apply parseLines_entries. }
  split_and!.
  - intros key kept. rewrite Hentries. split.
    + intros Hget. destruct key as [| |b|n|id|ref];
        try (rewrite get_rawOf_other in Hget; done).
      rewrite get_rawOf in Hget.
      destruct (JsMap.get id (fold_left upsert es [])) as [r|] eqn:E; [|done].
      injection Hget as <-. exists id, r. split_and!; [done|done|].
      by apply fold_upsert_newest.
    + intros (id & r & -> & -> & Hnew). rewrite get_rawOf.
      apply fold_upsert_newest in Hnew. by rewrite Hnew.
  - rewrite Hentries. apply keys_rawOf_NoDup, fold_upsert_NoDup, NoDup_nil_2.
  - intros m l Hskip. by apply parseLine_skipped.
  - exists (sortRecords (JsMap.values (fold_left upsert es []))). split_and!.
    + by rewrite (mergeHistoryFiles_typed env _ _ Hl Hr).
    + rewrite Hentries, values_rawOf. apply Permutation_map, sortRecords_perm.
    + apply sortRecords_sorted.
  - intros A B HA HB. exists (mergedText env A B).
    split; [by apply mergeHistoryFiles_typed|apply mergedText_wellTyped].
  - exists (mergedText env localContent remoteContent).
    split; [by apply mergeHistoryFiles_typed|].
    rewrite (mergeHistoryFiles_typed env _ _ (mergedText_wellTyped env _ _) Hr).
    f_equal. apply (fold_merge_idempotent env [remoteContent] localContent).
  - intros remotes Hrs merged.
    destruct (fold_mergeOrKeep_typed env remotes localContent Hl Hrs) as [E Hty].
    assert (Hm : wellTyped env merged) by (unfold merged; by rewrite E).
    split; [done|].
    destruct (fold_mergeOrKeep_typed env remotes merged Hm Hrs) as [E' _].
    rewrite E'. unfold merged. rewrite E. apply fold_merge_idempotent.
  - intros w. apply syncHistoryFile_writes.
  - intros A B C HA HB HC. exists (mergedText env A B).
    split; [by apply mergeHistoryFiles_typed|].
    intros key. by apply merge_then_merge_one_pass.
Qed.

Lemma mergeHistoryFiles_witness :
  let a5 := Sample.historyLine "a" "5" in
  let b7 := Sample.historyLine "b" "7" in
  let a9 := Sample.historyLine "a" "9" in
  let localContent := a5 +:+ SyncService.LF +:+ b7 +:+ SyncService.LF +:+ "not json" in
  let remoteContent := a9 +:+ SyncService.LF in
  wellTyped Sample.env localContent ∧ wellTyped Sample.env remoteContent
  ∧ JsAnyMap.get (JsString "a")
      (SyncService.parseLines Sample.env remoteContent
         (SyncService.parseLines Sample.env localContent []))
    = Some {| kept_line := a9; kept_timestamp := JsNumber 9 |}.
Proof.
  intros a5 b7 a9 localContent remoteContent.
  assert (Hl : wellTyped Sample.env localContent) by (vm_compute; reflexivity).
  assert (Hr : wellTyped Sample.env remoteContent) by (vm_compute; reflexivity).
  split; [exact Hl|]. split; [exact Hr|].
  apply (proj1 (mergeHistoryFiles_newest_per_session
                  Sample.env localContent remoteContent Hl Hr)).
  exists "a", {| line := a9; hr_timestamp := 9 |}. split_and!; [done|done|].
  exists [("a", {| line := a5; hr_timestamp := 5 |}); ("b", {| line := b7; hr_timestamp := 7 |})],
         [].
  split_and!.
  - vm_compute. reflexivity.
  - intros r' [[= <-]|[[=]|[]]]. simpl. lia.
  - intros r' [].
Defined.

(** Two inputs with a line that is not as the declared types have it.  In
    the first, the local line of session [a] has no time stamp and the remote
    line of [a] has one: the map keeps the local line, since no number is
    greater than a missing one.  In the second, the [sessionId] of the one
    remote line is an object, which is a new key each time it is parsed:
    merging the same remote text into the merged text adds the line again. *)
Lemma mergeHistoryFiles_untyped_lines :
  (let bare := Sample.bareLine "a" in
   let a1 := Sample.historyLine "a" "1" in
   parseHistoryLine Sample.env bare
   = Some {| sessionId := JsString "a"; timestamp := JsUndefined |}
   ∧ parseHistoryLine Sample.env a1
     = Some {| sessionId := JsString "a"; timestamp := JsNumber 1 |}
   ∧ SyncService.parseLines Sample.env a1 (SyncService.parseLines Sample.env bare [])
     = [(JsString "a", {| kept_line := bare; kept_timestamp := JsUndefined |})]
   ∧ SyncService.mergeHistoryFiles Sample.env bare a1 = Ok (bare +:+ SyncService.LF))
  ∧ (let o1 := Sample.objectLine "1" in
     ∃ merged,
       SyncService.mergeHistoryFiles Sample.env "" o1 = Ok merged
       ∧ merged = o1 +:+ SyncService.LF
       ∧ SyncService.mergeHistoryFiles Sample.env merged o1
         = Ok (o1 +:+ SyncService.LF +:+ o1 +:+ SyncService.LF)
       ∧ SyncService.mergeHistoryFiles Sample.env merged o1 ≠ Ok merged).
Proof.
  split.
  - split_and!; vm_compute; reflexivity.
  - eexists. split_and!; [vm_compute; reflexivity|vm_compute; reflexivity
                         |vm_compute; reflexivity|vm_compute; discriminate].
Qed.

(** ** What the client sends *)

Section Sends.
Import WebDavClient.

(** Every call of [request] reaches [fetch] at least once, with the request
    asked for. *)
Lemma request_sends m p o s :
  ∃ res pre post,
    trace (exec (request m p o) s)
    = trace s ++ pre ++ Fetch (requestOf s m p o) res :: post
    ∧ Forall isSleep pre.
Proof.
  unfold request. set (mr := default 3%nat (opt_retries o)).
  destruct (throttled_fields s) as (_ & _ & _ & _ & Ht).
  assert (Hpre : ∃ pre, trace (throttled s) = trace s ++ pre ∧ Forall isSleep pre).
  { destruct Ht as [-> | ->]; [exists []|eexists]; split; try done.
    - by rewrite app_nil_r.
    - by repeat constructor. }
  destruct Hpre as (pre & Hpre & Hsl).
  destruct (network s) as [|[r|e] rest] eqn:Enet.
  - destruct (requestLoop_reject m p o mr mr 0 s) as [e He].
    { intros ??. by rewrite Enet. }
    destruct (rejected_fields s (requestOf s m p o) e) as (_ & _ & _ & Hrt).
    exists (Rejected e), pre, []. unfold exec. rewrite He. cbn [snd].
    rewrite Hrt, Hpre. by rewrite <- app_assoc.
  - destruct (decide (status r = 503 ∧ (0 < mr)%nat)) as [[H5 Hlt]|Hno].
    + destruct (requestLoop_shape m p o mr mr 1
                  (backedOff s (requestOf s m p o) r rest 0)) as (_ & _ & evs & Hevs & _).
      destruct (backedOff_fields s (requestOf s m p o) r rest 0) as (_ & _ & _ & _ & Hbt).
      exists (Answer r), pre, (Sleep (Z.min (3000 * 2 ^ Z.of_nat 0) 30000) :: evs).
      unfold exec in *. rewrite (requestLoop_retry m p o mr mr 0 s r rest Enet H5 Hlt).
      rewrite Hevs, Hbt, Hpre. by rewrite <- !app_assoc.
    + destruct (returned_fields s (requestOf s m p o) r rest) as (_ & _ & _ & _ & Hrt).
      exists (Answer r), pre, []. unfold exec.
      rewrite (requestLoop_return m p o mr mr 0 s r rest Enet).
      2:{ destruct (decide (status r = 503)); [right|left]; tauto. }
      cbn [snd]. rewrite Hrt, Hpre. by rewrite <- app_assoc.
  - destruct (requestLoop_reject m p o mr mr 0 s) as [e' He].
    { intros ??. by rewrite Enet. }
    destruct (rejected_fields s (requestOf s m p o) e') as (_ & _ & _ & Hrt).
    exists (Rejected e'), pre, []. unfold exec. rewrite He. cbn [snd].
    rewrite Hrt, Hpre. by rewrite <- app_assoc.
Qed.

End Sends.

(** ** The shared name overrides *)

Section Names.
Variable env : Env.

Lemma spread_lookup (local remote : gmap string string) k :
  SyncService.spread local remote !! k
  = match remote !! k with
    | Some v => Some v
    | None => local !! k
    end.
Proof.
  unfold SyncService.spread. rewrite lookup_union.
  destruct (remote !! k), (local !! k); done.
Qed.

Lemma bind_gets {S A B} (f : S → A) (k : A → M S B) s : bind (gets f) k s = k (f s) s.
Proof. reflexivity. Qed.

Lemma existsSync_false (f : gmap string Node) p : Fs.existsSync f p = false → f !! p = None.
Proof.
  unfold Fs.existsSync. intros H%bool_decide_eq_false_1.
  destruct (f !! p); [|done]. exfalso. apply H. eauto.
Qed.

Lemma existsSync_true (f : gmap string Node) p node :
  f !! p = Some node → Fs.existsSync f p = true.
Proof. intros H. unfold Fs.existsSync. apply bool_decide_eq_true_2. eauto. Qed.

Lemma writeFileSync_ok p content w :
  fs w !! p = None ∨ (∃ c mt, fs w !! p = Some (File c mt)) →
  ∃ w', writeFileSync p content w = (Ok tt, w')
    ∧ fsWrites w' = fsWrites w ++ [(p, content)]
    ∧ fs w' !! p = Some (File content (WebDavClient.now (conn w)))
    ∧ conn w' = conn w.
Proof.
  intros H. unfold writeFileSync, dateNow, bind, gets, Fs.writeFile.
  destruct H as [-> | (c & mt & ->)]; eexists; (split; [done|]); simpl;
    by rewrite lookup_insert_eq.
Qed.

Lemma onClient_fields {A} (m : M WebDavClient.State A) w r w1 :
  onClient m w = (r, w1) →
  fs w1 = fs w ∧ fsWrites w1 = fsWrites w ∧ manifest w1 = manifest w
  ∧ client w1 = client w ∧ conn w1 = exec m (conn w) ∧ r = result m (conn w).
Proof. rewrite onClient_run. by intros [= <- <-]. Qed.

(** C4. When the remote [/session-names.json] exists and both documents
    parse, the merged mapping has exactly the keys of the local and the
    remote mapping, a key of the remote mapping has its remote value, a key
    of the local mapping alone has its local value; and, with no comparison
    against either input, the merged document is written to the local file and
    then sent in a PUT to [/session-names.json]. *)
Theorem syncSessionNames_writes_the_union
    (w w1 w2 : World) (d localText remoteContent : string)
    (local remote : gmap string string) :
  client w = true →
  SyncService.primaryDir env = Some d → d ≠ "" →
  (Fs.existsSync (fs w) (path_join env d "session-names.json") = false ∧ localText = "{}")
  ∨ (∃ mt, fs w !! path_join env d "session-names.json" = Some (File localText mt)) →
  onClient (WebDavClient.exists_ "/session-names.json") w = (Ok true, w1) →
  onClient (WebDavClient.download "/session-names.json") w1 = (Ok remoteContent, w2) →
  parseNames env localText = Some local →
  parseNames env remoteContent = Some remote →
  let merged := SyncService.spread local remote in
  let mergedStr := stringifyNames env merged in
  let w' := exec (SyncService.syncSessionNames env) w in
  (∀ k, is_Some (merged !! k) ↔ is_Some (local !! k) ∨ is_Some (remote !! k))
  ∧ (∀ k v, remote !! k = Some v → merged !! k = Some v)
  ∧ (∀ k, remote !! k = None → merged !! k = local !! k)
  ∧ fsWrites w' = fsWrites w ++ [(path_join env d "session-names.json", mergedStr)]
  ∧ (∃ mt, fs w' !! path_join env d "session-names.json" = Some (File mergedStr mt))
  ∧ conn w' = exec (WebDavClient.upload "/session-names.json" mergedStr) (conn w2)
  ∧ ∃ res pre post,
      WebDavClient.trace (conn w')
      = WebDavClient.trace (conn w2)
        ++ pre
        ++ WebDavClient.Fetch
             {| WebDavClient.method := WebDavClient.PUT;
                WebDavClient.remotePath := "/session-names.json";
                WebDavClient.headers :=
                  [("Authorization", WebDavClient.authHeader (conn w2));
                   ("Content-Type", "application/octet-stream")];
                WebDavClient.body := Some mergedStr |} res
           :: post.
Proof.
  intros Hc Hd Hne Hlocal Hex Hdl Hpl Hpr merged mergedStr w'.
  set (p := path_join env d "session-names.json") in *.
  assert (Hmerged : (∀ k, is_Some (merged !! k) ↔ is_Some (local !! k) ∨ is_Some (remote !! k))
                    ∧ (∀ k v, remote !! k = Some v → merged !! k = Some v)
                    ∧ (∀ k, remote !! k = None → merged !! k = local !! k)).
  { split_and!.
    - intros k. unfold merged. rewrite spread_lookup.
      destruct (remote !! k), (local !! k); split; intros H; eauto;
        try (destruct H as [[? ?]|[? ?]]; done); by destruct H.
    - intros k v H. unfold merged. by rewrite spread_lookup, H.
    - intros k H. unfold merged. by rewrite spread_lookup, H. }
  destruct Hmerged as (Hm1 & Hm2 & Hm3).
  destruct (onClient_fields _ _ _ _ Hex) as (Hf1 & Hw1 & _ & _ & Hc1 & _).
  destruct (onClient_fields _ _ _ _ Hdl) as (Hf2 & Hw2 & _ & _ & Hc2 & _).
  (* the local document *)
  assert (Eread : (if Fs.existsSync (fs w) p then Fs.readFileSync (fs w) p else ret "{}") w
                  = (Ok localText, w)).
  { destruct Hlocal as [[Hx ->]|[mt Hfile]].
    - by rewrite Hx.
    - rewrite (existsSync_true _ _ _ Hfile). unfold Fs.readFileSync. by rewrite Hfile. }
  assert (Hp : fs w2 !! p = None ∨ (∃ c mt, fs w2 !! p = Some (File c mt))).
  { rewrite Hf2, Hf1. destruct Hlocal as [[Hx _]|[mt Hfile]].
    - left. by apply existsSync_false.
    - right. eauto. }
  destruct (writeFileSync_ok p mergedStr w2 Hp) as (w3 & Ew3 & Hw3 & Hf3 & Hc3).
  (* the run *)
  assert (Erun : ∃ r, SyncService.syncSessionNames env w
                      = (r, set_conn (fun _ => exec (WebDavClient.upload "/session-names.json"
                                                       mergedStr) (conn w3)) w3)).
  { unfold SyncService.syncSessionNames.
    rewrite bind_gets, Hc. cbn [negb]. rewrite Hd. cbn [SyncService.truthy].
    apply String.eqb_neq in Hne. rewrite Hne. cbn [negb].
    change (default "" (Some d)) with d. fold p.
    rewrite bind_gets. rewrite (bind_Ok _ _ _ _ _ Eread).
    unfold tryCatch. rewrite (bind_Ok _ _ _ _ _ Hex). rewrite (bind_Ok _ _ _ _ _ Hdl).
    unfold SyncService.jsonParseNames. rewrite Hpl, Hpr.
    unfold bind at 1. unfold ret at 1. unfold bind at 1. unfold ret at 1.
    fold merged. fold mergedStr. rewrite (bind_Ok _ _ _ _ _ Ew3).
    rewrite onClient_run.
    destruct (result (WebDavClient.upload "/session-names.json" mergedStr) (conn w3));
      by eexists. }
  destruct Erun as [r Erun].
  assert (Ew' : w' = set_conn (fun _ => exec (WebDavClient.upload "/session-names.json"
                                             mergedStr) (conn w3)) w3).
  { unfold w', exec. by rewrite Erun. }
  clearbody w'. subst w'. split_and!; [done|done|done| | | |].
  - cbn [fsWrites set_conn]. by rewrite Hw3, Hw2, Hw1.
  - exists (WebDavClient.now (conn w2)). exact Hf3.
  - cbn [conn set_conn]. by rewrite Hc3.
  - cbn [conn set_conn]. rewrite Hc3, upload_state.
    destruct (request_sends WebDavClient.PUT "/session-names.json"
                {| WebDavClient.opt_body := Some mergedStr;
                   WebDavClient.opt_headers := [("Content-Type", "application/octet-stream")];
                   WebDavClient.opt_retries := None |} (conn w2))
      as (res & pre & post & Ht & _).
    exists res, pre, post. exact Ht.
Qed.

End Names.

Lemma syncSessionNames_witness :
  fsWrites (exec (SyncService.syncSessionNames Sample.env) Sample.namesWorld)
  = [("/home/u/.claude/session-names.json",
      Sample.writeNames (SyncService.spread {[ "b" := "y" ]} {[ "a" := "x" ]}))].
Proof.
  pose (w := Sample.namesWorld).
  pose (w1 := exec (onClient (WebDavClient.exists_ "/session-names.json")) w).
  pose (w2 := exec (onClient (WebDavClient.download "/session-names.json")) w1).
  assert (Hd : SyncService.primaryDir Sample.env = Some "/home/u/.claude")
    by (vm_compute; reflexivity).
  assert (Hne : "/home/u/.claude" ≠ "") by done.
  assert (Hlocal :
    (Fs.existsSync (fs w) (path_join Sample.env "/home/u/.claude" "session-names.json") = false
     ∧ "b=y" = "{}")
    ∨ (∃ mt, fs w !! path_join Sample.env "/home/u/.claude" "session-names.json"
             = Some (File "b=y" mt))).
  { right. exists 1000. vm_compute. reflexivity. }
  assert (Hex : onClient (WebDavClient.exists_ "/session-names.json") w = (Ok true, w1))
    by (vm_compute; reflexivity).
  assert (Hdl : onClient (WebDavClient.download "/session-names.json") w1 = (Ok "a=x", w2))
    by (vm_compute; reflexivity).
  assert (Hpl : parseNames Sample.env "b=y" = Some ({[ "b" := "y" ]} : gmap string string))
    by (vm_compute; reflexivity).
  assert (Hpr : parseNames Sample.env "a=x" = Some ({[ "a" := "x" ]} : gmap string string))
    by (vm_compute; reflexivity).
  destruct (syncSessionNames_writes_the_union Sample.env w w1 w2 "/home/u/.claude" "b=y" "a=x"
              {[ "b" := "y" ]} {[ "a" := "x" ]} eq_refl Hd Hne Hlocal Hex Hdl Hpl Hpr)
    as (_ & _ & _ & Hw & _).
  exact Hw.
Defined.

(** ** Planning the downloads *)

Section LocalState.
Context {W L : Type}.

Lemma preserves_withLocal (I : W → Prop) (init : L) (m : M (W * L) unit) :
  preserves (fun s => I (fst s)) m → preserves I (withLocal init m).
Proof.
  munfold. intros H w Hw. specialize (H (w, init) Hw).
  destruct (m (w, init)) as [[?|?] [w' l]]; done.
Qed.

Lemma preserves_liftL {A} (I : W → Prop) (m : M W A) :
  preserves I m → preserves (fun s : W * L => I (fst s)) (liftL m).
Proof.
  munfold. intros H [w l] Hw. simpl in *. specialize (H w Hw). by destruct (m w).
Qed.


Lemma modifyL_keeps_world (I : W → Prop) (f : L → L) :
  preserves (fun s : W * L => I (fst s)) (modifyL f).
Proof. by munfold. Qed.




End LocalState.


(** ** What a scan of the store finds *)


Section Listed.
Variable env : Env.
Variable host : string.





End Listed.

Section Downloads.
Variable env : Env.




Lemma downloadNeeded_spec f m p info :
  downloadNeeded env f m (p, info) = true ↔
  Fs.existsSync f (path_join env (cacheDir env) p) = false
  ∨ SyncManifest.getEntry p m = None
  ∨ ∃ e t, SyncManifest.getEntry p m = Some e ∧ lastModified info = Some t
           ∧ me_syncedAt e + 1000 < t.
Proof.
  unfold downloadNeeded, SyncService.remoteNewer. simpl.
  destruct (Fs.existsSync f _); simpl; [|by split; [left|]].
  destruct (SyncManifest.getEntry p m) as [e|]; [|by split; [right; left|]].
  destruct (lastModified info) as [t|].
  - rewrite Z.gtb_gt. split.
    + intros H. right. right. exists e, t. split_and!; [done..|lia].
    + intros [?|[?|(e' & t' & [= <-] & [= <-] & H)]]; [done..|lia].
  - split; [done|]. by intros [?|[?|(e' & t' & _ & ? & _)]].
Qed.












Lemma startsWith_cons a b (p s : string) :
  Js.startsWith (String a p) (String b s) = if Ascii.eqb a b then Js.startsWith p s else false.
Proof. reflexivity. Qed.

Lemma startsWith_append p s t : Js.startsWith (p +:+ s) (p +:+ t) = Js.startsWith s t.
Proof.
  induction p as [|a p IH]; [done|].
  by rewrite !append_cons, startsWith_cons, Ascii.eqb_refl.
Qed.



End Downloads.


Section Held.
Variable env : Env.






End Held.



Example planDownloads_sample :
  let w := {| conn := Sample.newClient
                        [Sample.reply 207 ("p2/" +:+ String "010" "readme.txt");
                         Sample.reply 207 ("s2.jsonl" +:+ String "010" "agent-1.jsonl")];
              client := true;
              manifest := {| lastSyncTime := 0; files := ∅ |};
              savedManifest := {| lastSyncTime := 0; files := ∅ |};
              fs := Sample.disk; fsWrites := []; status := Idle; syncLock := false |} in
  result (SyncService.planDownloads Sample.env ["H1"; "H2"] []) w
  = Ok [ {| relativePath := "hosts/H2/projects/p2/s2.jsonl"; localPath := None;
            action := download; localMtime := None; remoteMtime := Some 5000;
            fc_size := Some 10 |} ].
Proof. vm_compute. reflexivity. Qed.

(** ** Deleting a session *)

Section Delete.
Variable env : Env.

Lemma split_append_sep c a b :
  Js.split c (a +:+ String c b) = Js.split c a ++ Js.split c b.
Proof.
  induction a as [|x a IH].
  - rewrite append_empty_l. simpl. by rewrite Ascii.eqb_refl.
  - rewrite append_cons. simpl. destruct (Ascii.eqb x c); [by rewrite IH|].
    rewrite IH. pose proof (split_nonempty c a). by destruct (Js.split c a).
Qed.

Lemma backslashToSlash_id s : Js.lacks "\" s = true → Js.backslashToSlash s = s.
Proof.
  induction s as [|a s IH]; simpl; [done|].
  intros [Ha Hs]%andb_true_iff. apply negb_true_iff in Ha. by rewrite Ha, (IH Hs).
Qed.

(** For a file [base/projectDir/file], the path that [deleteRemote] builds is
    the key under which [scanLocalFiles] records it. *)
Lemma deletedRelativePath_local base projectDir file :
  Js.lacks "\" (base +:+ "/" +:+ projectDir +:+ "/" +:+ file) = true →
  Js.lacks "/" projectDir = true → Js.lacks "/" file = true →
  SyncService.deletedRelativePath env (base +:+ "/" +:+ projectDir +:+ "/" +:+ file)
  = SyncService.localRelativePath env projectDir file.
Proof.
  intros Hb Hp Hf. unfold SyncService.deletedRelativePath, SyncService.localRelativePath.
  rewrite (backslashToSlash_id _ Hb).
  change ("/" +:+ projectDir +:+ "/" +:+ file)
    with (String "/" (projectDir +:+ String "/" file)).
  rewrite !split_append_sep, (split_whole _ _ Hp), (split_whole _ _ Hf).
  unfold Js.fromEnd. rewrite !rev_app_distr. done.
Qed.

(** [deleteRemote] first makes sure of its client. *)
Lemma deleteRemote_ready filePath w :
  SyncService.deleteRemote env filePath w
  = SyncService.deleteRemote env filePath (ready env w).
Proof.
  unfold ready. destruct (client w) eqn:Hc; [done|].
  unfold SyncService.deleteRemote at 1. rewrite bind_gets, Hc. cbn [negb when].
  unfold exec, SyncService.deleteRemote, SyncService.initialize.
  destruct (credentials env) as [auth|]; [reflexivity|].
  rewrite (bind_gets client).
  change (client (snd (modify (set_status Disabled) w))) with (client w).
  rewrite Hc. reflexivity.
Qed.

Lemma ready_local w : fs (ready env w) = fs w ∧ manifest (ready env w) = manifest w.
Proof.
  unfold ready. destruct (client w); [done|].
  unfold exec, SyncService.initialize. by destruct (credentials env).
Qed.

(** What [deleteRemote] does when the client is there. *)
Lemma deleteRemote_run filePath w :
  client w = true →
  let rel := SyncService.deletedRelativePath env filePath in
  let cachePath := path_join env (cacheDir env) rel in
  let w3 := set_savedManifest (SyncManifest.removeEntry rel (manifest w))
              (set_manifest (SyncManifest.removeEntry rel)
                 (set_conn (fun _ => exec (WebDavClient.delete ("/" +:+ rel)) (conn w)) w)) in
  SyncService.deleteRemote env filePath w
  = match fs w !! cachePath with
    | None => (Ok tt, w3)
    | Some (File _ _) => (Ok tt, set_fs (fun _ => base.delete cachePath (fs w)) w3)
    | Some (Dir _) => (Throw Fs.enoent, w3)
    end.
Proof.
  intros Hc rel cachePath w3. unfold SyncService.deleteRemote.
  rewrite bind_gets, Hc. cbn [negb when]. unfold bind at 1. unfold ret at 1.
  rewrite bind_gets, Hc. cbn [negb]. fold rel. fold cachePath.
  assert (E1 : tryCatch (onClient (WebDavClient.delete ("/" +:+ rel))) (fun _ => ret tt) w
               = (Ok tt, set_conn (fun _ => exec (WebDavClient.delete ("/" +:+ rel)) (conn w)) w)).
  { unfold tryCatch. rewrite onClient_run.
    by destruct (result (WebDavClient.delete ("/" +:+ rel)) (conn w)) as [[]|e]. }
  rewrite (bind_Ok _ _ _ _ _ E1).
  unfold bind at 1. unfold modify at 1.
  unfold SyncService.manifestSave. unfold bind at 1. rewrite bind_gets.
  unfold modify at 1. rewrite bind_gets.
  cbn [fs manifest set_savedManifest set_manifest set_conn]. fold w3.
  unfold Fs.existsSync.
  destruct (fs w !! cachePath) as [[c mt|names]|] eqn:E.
  - rewrite bool_decide_eq_true_2 by eauto. unfold when, unlinkSync.
    rewrite bind_gets. unfold Fs.unlink.
    replace (fs w3) with (fs w) by done. by rewrite E.
  - rewrite bool_decide_eq_true_2 by eauto. unfold when, unlinkSync.
    rewrite bind_gets. unfold Fs.unlink.
    replace (fs w3) with (fs w) by done. by rewrite E.
  - rewrite bool_decide_eq_false_2; [done|]. by intros [? ?].
Qed.

End Delete.

Lemma startsWith_prefix p t : Js.startsWith p (p +:+ t) = true.
Proof.
  induction p as [|a p IH]; [done|]. by rewrite append_cons, startsWith_cons, Ascii.eqb_refl.
Qed.

Lemma delete_404 p s r rest :
  WebDavClient.network s = WebDavClient.Answer r :: rest →
  WebDavClient.status r = 404 →
  result (WebDavClient.delete p) s = Ok tt.
Proof.
  intros Hnet H404. unfold result, WebDavClient.delete.
  assert (E : WebDavClient.request WebDavClient.DELETE p WebDavClient.noOptions s
              = (Ok r, returned s (requestOf s WebDavClient.DELETE p WebDavClient.noOptions)
                         r rest)).
  { unfold WebDavClient.request. apply requestLoop_return; [done|]. left. lia. }
  rewrite (bind_Ok _ _ _ _ _ E), H404. done.
Qed.

Section OwnPaths.
Variable env : Env.

Lemma startsWith_weaken p q : ∀ s,
  Js.startsWith (p +:+ q) s = true → Js.startsWith p s = true.
Proof.
  induction p as [|a p IH]; intros s; [done|].
  destruct s as [|b s]; [done|]. rewrite append_cons, !startsWith_cons.
  destruct (Ascii.eqb a b); [apply IH|done].
Qed.

Lemma clean_slash x : WebDavClient.clean ("/" +:+ x) = "/" +:+ x.
Proof. reflexivity. Qed.

Lemma clean_hostPrefix x :
  WebDavClient.clean (SyncService.hostPrefix env +:+ x) = SyncService.hostPrefix env +:+ x.
Proof. unfold SyncService.hostPrefix. rewrite append_assoc. reflexivity. Qed.

Lemma ownPath_hostPrefix x :
  Js.startsWith "/" x = true → ownPath env (SyncService.hostPrefix env +:+ x).
Proof. intros H. unfold ownPath. by rewrite startsWith_append. Qed.

Lemma localRelativePath_own projectDir file :
  ownSession env (SyncService.localRelativePath env projectDir file).
Proof.
  unfold ownSession, SyncService.localRelativePath.
  rewrite !startsWith_append. apply startsWith_prefix.
Qed.

Lemma deletedRelativePath_own filePath :
  ownSession env (SyncService.deletedRelativePath env filePath).
Proof.
  unfold ownSession, SyncService.deletedRelativePath.
  rewrite !startsWith_append. apply startsWith_prefix.
Qed.

Lemma ownPath_session rel : ownSession env rel → ownPath env ("/" +:+ rel).
Proof.
  unfold ownSession, ownPath, SyncService.hostPrefix. intros H.
  rewrite append_assoc.
  change ("/hosts/" +:+ hostname env +:+ "/") with ("/" +:+ "hosts/" +:+ hostname env +:+ "/").
  rewrite startsWith_append.
  apply (startsWith_weaken _ "projects/"). by rewrite !append_assoc.
Qed.

(** Every upload that [computeUploadChanges] plans from a local scan is for
    a path under this machine's [projects] folder. *)
Lemma computeUploadChanges_own m f t remoteFiles c :
  In c (SyncService.computeUploadChanges m (SyncService.scanLocalFiles env f t) remoteFiles) →
  ownSession env (relativePath c).
Proof.
  unfold SyncService.computeUploadChanges. rewrite planUpload_fold. simpl.
  intros ([p local] & <- & Hin)%in_map_iff. apply filter_In in Hin as [Hin _].
  pose proof (scanLocalFiles_sound env f t) as Hs.
  rewrite List.Forall_forall in Hs.
  destruct (Hs _ Hin) as (d & projectDir & file & content & mtime & _ & _ & Hk & _).
  simpl in *. subst p. apply localRelativePath_own.
Qed.

End OwnPaths.

(** X25.  Having made sure of its client, [deleteRemote] takes
    the last two segments of the deleted file's path as project directory and
    file name, whatever directory the file was in, and sends DELETE for
    [/hosts/{hostname}/projects/{projectDir}/{fileName}], a path under this
    machine's own prefix, and no other request; for a file that the local
    scan records, that is the path it was uploaded to.  The client's [delete]
    returns normally on a 404.  Whatever the outcome of the request, the
    manifest entry of that path is removed, the manifest is saved, and the
    cache copy at that path, if it is a file, is unlinked; no other local
    file changes. *)
Theorem deleteRemote_deletes_under_own_prefix (env : Env) (filePath : string) (w : World) :
  client (ready env w) = true →
  let rel := SyncService.deletedRelativePath env filePath in
  let cachePath := path_join env (cacheDir env) rel in
  let w0 := ready env w in
  let w' := exec (SyncService.deleteRemote env filePath) w in
  ownPath env ("/" +:+ rel)
  ∧ (∀ base projectDir file,
       filePath = base +:+ "/" +:+ projectDir +:+ "/" +:+ file →
       Js.lacks "\" filePath = true →
       Js.lacks "/" projectDir = true → Js.lacks "/" file = true →
       rel = SyncService.localRelativePath env projectDir file)
  ∧ conn w' = exec (WebDavClient.delete ("/" +:+ rel)) (conn w0)
  ∧ (∃ evs res pre post,
       WebDavClient.trace (conn w') = WebDavClient.trace (conn w0) ++ evs
       ∧ Forall (eventOf WebDavClient.DELETE ("/" +:+ rel)) evs
       ∧ evs = pre
               ++ WebDavClient.Fetch
                    {| WebDavClient.method := WebDavClient.DELETE;
                       WebDavClient.remotePath := "/" +:+ rel;
                       WebDavClient.headers :=
                         [("Authorization", WebDavClient.authHeader (conn w0))];
                       WebDavClient.body := None |} res
                  :: post
       ∧ Forall isSleep pre)
  ∧ (∀ r rest,
       WebDavClient.network (conn w0) = WebDavClient.Answer r :: rest →
       WebDavClient.status r = 404 →
       result (WebDavClient.delete ("/" +:+ rel)) (conn w0) = Ok tt)
  ∧ manifest w' = SyncManifest.removeEntry rel (manifest w)
  ∧ SyncManifest.getEntry rel (manifest w') = None
  ∧ savedManifest w' = manifest w'
  ∧ (∀ c mt, fs w !! cachePath = Some (File c mt) →
       fs w' = base.delete cachePath (fs w))
  ∧ ((∀ c mt, fs w !! cachePath ≠ Some (File c mt)) → fs w' = fs w).
Proof.
  intros Hc rel cachePath w0 w'.
  destruct (ready_local env w) as [Hf0 Hm0]. fold w0 in Hf0, Hm0, Hc.
  pose proof (deleteRemote_run env filePath w0 Hc) as Hrun.
  cbv zeta in Hrun. fold rel in Hrun. fold cachePath in Hrun.
  rewrite Hf0, Hm0 in Hrun.
  set (w3 := set_savedManifest _ _) in Hrun.
  assert (Hw' : (w' = w3 ∧ ∀ c mt, fs w !! cachePath ≠ Some (File c mt))
                ∨ (w' = set_fs (fun _ => base.delete cachePath (fs w)) w3
                   ∧ ∃ c mt, fs w !! cachePath = Some (File c mt))).
  { unfold w', exec. rewrite deleteRemote_ready. fold w0. rewrite Hrun.
    destruct (fs w !! cachePath) as [[c mt|names]|]; [right; eauto|left..]; done. }
  clearbody w'. clear Hrun.
  assert (H3 : conn w3 = exec (WebDavClient.delete ("/" +:+ rel)) (conn w0)
               ∧ manifest w3 = SyncManifest.removeEntry rel (manifest w)
               ∧ savedManifest w3 = SyncManifest.removeEntry rel (manifest w)
               ∧ fs w3 = fs w).
  { unfold w3. cbn [conn manifest savedManifest fs set_savedManifest set_manifest set_conn].
    by rewrite Hm0, Hf0. }
  clearbody w3. destruct H3 as (Hconn & Hman & Hsaved & Hfs).
  assert (Hfields : conn w' = conn w3 ∧ manifest w' = manifest w3
                    ∧ savedManifest w' = savedManifest w3).
  { by destruct Hw' as [[-> _]|[-> _]]. }
  destruct Hfields as (Ec & Em & Es).
  clearbody w0.
  split_and!.
  - apply ownPath_session, deletedRelativePath_own.
  - intros base projectDir file -> Hb Hp Hf. by apply deletedRelativePath_local.
  - by rewrite Ec.
  - rewrite Ec, Hconn, delete_state.
    destruct (request_sends WebDavClient.DELETE ("/" +:+ rel) WebDavClient.noOptions (conn w0))
      as (res & pre & post & Ht & Hpre).
    destruct (request_shape WebDavClient.DELETE ("/" +:+ rel) WebDavClient.noOptions (conn w0))
      as (_ & _ & evs & Hevs & Hall & _).
    exists evs, res, pre, post. split_and!; [done|done| |done].
    rewrite Hevs in Ht. by apply app_inv_head in Ht.
  - intros r rest Hnet H404. by apply (delete_404 _ _ r rest).
  - by rewrite Em.
  - rewrite Em, Hman. unfold SyncManifest.getEntry, SyncManifest.removeEntry. simpl.
    apply lookup_delete_eq.
  - by rewrite Es, Em, Hsaved.
  - intros c mt Hfile. destruct Hw' as [[_ Hno]|[-> _]]; [by destruct (Hno c mt)|].
    done.
  - intros Hno. destruct Hw' as [[-> _]|[_ (c & mt & Hfile)]]; [done|].
    by destruct (Hno c mt).
Qed.

Lemma deleteRemote_witness :
  manifest (exec (SyncService.deleteRemote Sample.env "/home/u/.claude/projects/p1/s1.jsonl")
              Sample.syncedWorld)
  = SyncManifest.removeEntry "hosts/H1/projects/p1/s1.jsonl" (manifest Sample.syncedWorld)
  ∧ result (WebDavClient.delete "/hosts/H1/projects/p1/s1.jsonl") (conn Sample.syncedWorld)
    = Ok tt.
Proof.
  destruct (deleteRemote_deletes_under_own_prefix Sample.env
              "/home/u/.claude/projects/p1/s1.jsonl" Sample.syncedWorld eq_refl)
    as (_ & _ & _ & _ & H404 & Hm & _).
  split; [exact Hm|].
  exact (H404 {| WebDavClient.status := 404; WebDavClient.statusText := "";
                 WebDavClient.text := "" |} [] eq_refl eq_refl).
Defined.

(** C7.  The code at the input where it departs from the specification: on
    host H1, with nothing of its own to synchronise, deleting the session
    whose only copy is the cache mirror of a file of host H2 sends a DELETE,
    and sends it to [/hosts/H1/projects/p2/s2.jsonl], a path under H1's own
    prefix that the mirrored file never had.  The specification has no remote
    delete issued for such a session. *)
Lemma deleteRemote_of_cached_mirror_sends_DELETE :
  SyncService.scanLocalFiles Sample.env (fs Sample.mirrorWorld) Sample.today = []
  ∧ Fs.existsSync (fs Sample.mirrorWorld) "/cache/.claude/hosts/H2/projects/p2/s2.jsonl" = true
  ∧ map fst (fetches (WebDavClient.trace (conn
        (exec (SyncService.deleteRemote Sample.env
                 "/cache/.claude/hosts/H2/projects/p2/s2.jsonl") Sample.mirrorWorld))))
    = [ {| WebDavClient.method := WebDavClient.DELETE;
           WebDavClient.remotePath := "/hosts/H1/projects/p2/s2.jsonl";
           WebDavClient.headers := [("Authorization", "Basic dTpw")];
           WebDavClient.body := None |} ].
Proof. vm_compute. done. Qed.

(** ** The paths the service writes *)

Section Confined.
Variable env : Env.
Variable t0 : list WebDavClient.Event.

(** Since the trace was [t0], the client sent confined requests only. *)
Definition clientConfined (s : WebDavClient.State) : Prop :=
  ∃ evs, WebDavClient.trace s = t0 ++ evs ∧ Forall (confined env) evs.

Definition worldConfined (w : World) : Prop := clientConfined (conn w).

Lemma request_confined m p o :
  (∀ ev, eventOf m (WebDavClient.clean p) ev → confined env ev) →
  preserves clientConfined (WebDavClient.request m p o).
Proof.
  intros H s (evs & Ht & Hev).
  destruct (request_shape m p o s) as (_ & _ & evs' & Ht' & Hev' & _).
  exists (evs ++ evs'). rewrite Ht', Ht, app_assoc. split; [done|].
  apply Forall_app. split; [done|]. eapply List.Forall_impl; [|exact Hev']. exact H.
Qed.

Lemma read_confined m p ev :
  m = WebDavClient.GET ∨ m = WebDavClient.PROPFIND → eventOf m p ev → confined env ev.
Proof.
  intros Hm. destruct ev as [ms|rq res]; [done|]. simpl. intros [-> _].
  by destruct Hm as [-> | ->].
Qed.

Lemma download_confined p : preserves clientConfined (WebDavClient.download p).
Proof.
  intros s Hs. rewrite download_state. apply request_confined; [|done].
  intros ev. apply read_confined. by left.
Qed.

Lemma list_confined parse p : preserves clientConfined (WebDavClient.list_ parse p).
Proof.
  intros s Hs. rewrite list_state. apply request_confined; [|done].
  intros ev. apply read_confined. by right.
Qed.

Lemma exists_confined p : preserves clientConfined (WebDavClient.exists_ p).
Proof.
  intros s Hs. rewrite exists_state. apply request_confined; [|done].
  intros ev. apply read_confined. by right.
Qed.

Lemma upload_confined p content :
  ownPath env (WebDavClient.clean p) ∨ WebDavClient.clean p = "/session-names.json" →
  preserves clientConfined (WebDavClient.upload p content).
Proof.
  intros Hp s Hs. rewrite upload_state. apply request_confined; [|done].
  intros [ms|rq res]; [done|]. simpl. by intros [-> ->].
Qed.

Lemma delete_confined p :
  ownPath env (WebDavClient.clean p) → preserves clientConfined (WebDavClient.delete p).
Proof.
  intros Hp s Hs. rewrite delete_state. apply request_confined; [|done].
  intros [ms|rq res]; [done|]. simpl. by intros [-> ->].
Qed.

Lemma mkdirp_confined p :
  (∀ d, ancestorOf d p →
     ancestorOf d (SyncService.hostPrefix env +:+ "/projects")
     ∨ ∃ rel, ownSession env rel ∧ ancestorOf d ("/" +:+ path_dirname env rel)) →
  preserves clientConfined (WebDavClient.mkdirp p).
Proof.
  intros Hp s Hs. unfold WebDavClient.mkdirp, exec. rewrite mkdirpLoop_forOf.
  apply (preserves_forOf clientConfined); [|done].
  intros d Hd s1 Hs1. unfold exec. rewrite ensureDir_step.
  destruct (decide (d ∈ WebDavClient.knownDirs s1)); [done|].
  assert (Hc : WebDavClient.clean d = d).
  { eapply clean_prefixesFrom; [|exact Hd]. by left. }
  assert (H2 : clientConfined (exec (WebDavClient.mkdir d) s1)).
  { rewrite mkdir_state. apply request_confined; [|done].
    intros [ms|rq res]; [done|]. simpl. rewrite Hc. intros [-> ->]. by apply Hp. }
  unfold exec in H2. by destruct (WebDavClient.mkdir d s1) as [[[]|e] s2].
Qed.

End Confined.

Section Service.
Variable env : Env.
Variable t0 : list WebDavClient.Event.

Lemma onClient_confined {A} (m : M WebDavClient.State A) :
  preserves (clientConfined env t0) m → preserves (worldConfined env t0) (onClient m).
Proof. intros H. apply preserves_onClient. intros w Hw. apply (H (conn w) Hw). Qed.

Lemma local_confined (f : World → World) :
  (∀ w, conn (f w) = conn w) → preserves (worldConfined env t0) (modify f).
Proof.
  intros H. apply preserves_modify. intros w Hw. unfold worldConfined. by rewrite H.
Qed.

Ltac confine :=
  repeat match goal with
  | |- preserves _ (bind _ _) => apply preserves_bind; [|intros ?]
  | |- preserves _ (ret _) => apply preserves_ret
  | |- preserves _ (throw _) => apply preserves_throw
  | |- preserves _ (outcome _) => apply preserves_outcome
  | |- preserves _ (gets _) => apply preserves_gets
  | |- preserves _ dateNow => apply preserves_gets
  | |- preserves _ (tryCatch _ _) => apply preserves_tryCatch; [|intros ?]
  | |- preserves _ (when _ _) => apply preserves_when
  | |- preserves _ (modify _) => apply local_confined; by intros ?
  | |- preserves _ (onClient _) => apply onClient_confined
  | |- preserves _ (if ?b then _ else _) => destruct b
  | |- preserves _ (WebDavClient.download _) => apply download_confined
  | |- preserves _ (WebDavClient.list_ _ _) => apply list_confined
  | |- preserves _ (WebDavClient.exists_ _) => apply exists_confined
  end.

Lemma writeFileSync_confined p content : preserves (worldConfined env t0) (writeFileSync p content).
Proof. unfold writeFileSync. confine. destruct (Fs.writeFile _ _ _ _); confine. Qed.

Lemma mkdirSync_confined p : preserves (worldConfined env t0) (mkdirSync p).
Proof. unfold mkdirSync. confine. destruct (Fs.mkdir _ _); confine. Qed.

Lemma unlinkSync_confined p : preserves (worldConfined env t0) (unlinkSync p).
Proof. unfold unlinkSync. confine. destruct (Fs.unlink _ _); confine. Qed.

Lemma readFileSync_confined f p : preserves (worldConfined env t0) (Fs.readFileSync f p).
Proof. unfold Fs.readFileSync. destruct (f !! p) as [[]|]; confine. Qed.

Lemma initialize_confined : preserves (worldConfined env t0) (SyncService.initialize env).
Proof.
  unfold SyncService.initialize. destruct (credentials env); confine.
  apply preserves_modify. intros w (evs & Ht & Hev). by exists evs.
Qed.

Lemma listRemoteHosts_confined : preserves (worldConfined env t0) (SyncService.listRemoteHosts env).
Proof. unfold SyncService.listRemoteHosts. confine. Qed.

Lemma scanHostRemoteFiles_confined host :
  preserves (worldConfined env t0) (SyncService.scanHostRemoteFiles env host).
Proof.
  unfold SyncService.scanHostRemoteFiles. confine.
  apply preserves_withLocal.
  apply preserves_tryCatch; [|intros; apply preserves_ret].
  apply preserves_bind.
  { apply (preserves_liftL (worldConfined env t0)). confine. }
  intros projectDirs. apply preserves_forOf. intros projDir _.
  destruct (negb (isDirectory projDir)); [apply preserves_ret|].
  apply preserves_bind.
  { apply (preserves_liftL (worldConfined env t0)). confine. }
  intros sessionFiles. apply preserves_forOf. intros file _.
  destruct (SyncService.skipRemoteFile file); [apply preserves_ret|].
  apply (modifyL_keeps_world (worldConfined env t0)).
Qed.

Lemma planDownloads_confined hosts : ∀ changes,
  preserves (worldConfined env t0) (SyncService.planDownloads env hosts changes).
Proof.
  induction hosts as [|host rest IH]; intros changes; simpl; [confine|].
  destruct (String.eqb host (hostname env)); [apply IH|].
  apply preserves_bind; [apply scanHostRemoteFiles_confined|]. intros hostFiles.
  confine. apply IH.
Qed.

Lemma uploadFile_confined change :
  ownSession env (relativePath change) → preserves (worldConfined env t0) (SyncService.uploadFile env change).
Proof.
  intros Hown. unfold SyncService.uploadFile. confine.
  - apply mkdirp_confined. intros d Hd. right. by exists (relativePath change).
  - apply readFileSync_confined.
  - apply upload_confined. left. rewrite clean_slash. by apply ownPath_session.
Qed.

Lemma downloadFile_confined change : preserves (worldConfined env t0) (SyncService.downloadFile env change).
Proof.
  unfold SyncService.downloadFile. confine.
  - apply mkdirSync_confined.
  - apply writeFileSync_confined.
Qed.

Lemma uploadMachineDescriptor_confined :
  preserves (worldConfined env t0) (SyncService.uploadMachineDescriptor env).
Proof.
  unfold SyncService.uploadMachineDescriptor. confine.
  apply upload_confined. left. rewrite clean_hostPrefix. by apply ownPath_hostPrefix.
Qed.

Lemma downloadMachineDescriptors_confined :
  preserves (worldConfined env t0) (SyncService.downloadMachineDescriptors env).
Proof.
  unfold SyncService.downloadMachineDescriptors. confine.
  - apply mkdirSync_confined.
  - apply listRemoteHosts_confined.
  - apply preserves_forOf. intros host _. confine. apply writeFileSync_confined.
Qed.

Lemma mergeRemoteHistories_confined hosts : ∀ merged,
  preserves (worldConfined env t0) (SyncService.mergeRemoteHistories env hosts merged).
Proof.
  induction hosts as [|host rest IH]; intros merged; simpl; [confine|].
  destruct (String.eqb host (hostname env)); [apply IH|].
  confine. apply IH.
Qed.

Lemma syncHistoryFile_confined : preserves (worldConfined env t0) (SyncService.syncHistoryFile env).
Proof.
  unfold SyncService.syncHistoryFile. confine.
  - apply readFileSync_confined.
  - apply upload_confined. left. rewrite clean_hostPrefix. by apply ownPath_hostPrefix.
  - apply listRemoteHosts_confined.
  - apply mergeRemoteHistories_confined.
  - apply writeFileSync_confined.
Qed.

Lemma syncSessionNames_confined :
  preserves (worldConfined env t0) (SyncService.syncSessionNames env).
Proof.
  unfold SyncService.syncSessionNames, SyncService.jsonParseNames. confine.
  - apply readFileSync_confined.
  - destruct (parseNames env _); confine.
  - destruct (parseNames env _); confine.
  - apply writeFileSync_confined.
  - apply upload_confined. by right.
  - apply upload_confined. by right.
Qed.

Lemma syncMetadata_confined : preserves (worldConfined env t0) (SyncService.syncMetadata env).
Proof.
  unfold SyncService.syncMetadata. confine.
  - apply uploadMachineDescriptor_confined.
  - apply downloadMachineDescriptors_confined.
  - apply syncHistoryFile_confined.
  - apply syncSessionNames_confined.
Qed.

Lemma performSync_confined : preserves (worldConfined env t0) (SyncService.performSync env).
Proof.
  unfold SyncService.performSync. confine.
  - apply mkdirp_confined. intros d Hd. by left.
  - apply scanHostRemoteFiles_confined.
  - apply listRemoteHosts_confined.
  - apply planDownloads_confined.
  - apply preserves_forOf. intros change Hin. apply uploadFile_confined.
    by apply computeUploadChanges_own in Hin.
  - apply preserves_forOf. intros change _. apply downloadFile_confined.
  - apply syncMetadata_confined.
Qed.

Lemma syncNow_confined : preserves (worldConfined env t0) (SyncService.syncNow env).
Proof.
  unfold SyncService.syncNow, SyncService.manifestSave. confine.
  - apply initialize_confined.
  - apply performSync_confined.
Qed.

Lemma deleteRemote_confined filePath :
  preserves (worldConfined env t0) (SyncService.deleteRemote env filePath).
Proof.
  unfold SyncService.deleteRemote, SyncService.manifestSave. confine.
  - apply initialize_confined.
  - apply delete_confined. rewrite clean_slash.
    apply ownPath_session, deletedRelativePath_own.
  - apply unlinkSync_confined.
Qed.

Lemma runCommands_confined cs : ∀ w,
  worldConfined env t0 w → worldConfined env t0 (runCommands env cs w).
Proof.
  induction cs as [|c cs IH]; intros w Hw; [done|].
  simpl. apply IH. destruct c; simpl.
  - by apply syncNow_confined.
  - by apply deleteRemote_confined.
Qed.

End Service.

(** C6. Whatever commands the service runs, every request it sends from
    then on is confined: a PUT goes to a path under the machine's own prefix
    [/hosts/{hostname}/] or to [/session-names.json]; a DELETE goes to a path
    under the own prefix; an MKCOL goes to a collection on the way to the own
    [projects] folder or to the folder of an own session file.  The session
    files, the machine descriptor and the history document are put at
    [/hosts/{hostname}/projects/...], [/hosts/{hostname}/machine.json] and
    [/hosts/{hostname}/history.jsonl]. *)
Theorem writes_stay_under_own_prefix (env : Env) (cs : list Command) (w : World) :
  (∃ evs, WebDavClient.trace (conn (runCommands env cs w))
          = WebDavClient.trace (conn w) ++ evs
          ∧ Forall (confined env) evs)
  ∧ (∀ projectDir file,
       ownPath env ("/" +:+ SyncService.localRelativePath env projectDir file))
  ∧ ownPath env (SyncService.hostPrefix env +:+ "/machine.json")
  ∧ ownPath env (SyncService.hostPrefix env +:+ "/history.jsonl")
  ∧ (∀ filePath, ownPath env ("/" +:+ SyncService.deletedRelativePath env filePath)).
Proof.
  split_and!.
  - apply (runCommands_confined env (WebDavClient.trace (conn w)) cs w).
    exists []. by rewrite app_nil_r.
  - intros projectDir file. apply ownPath_session, localRelativePath_own.
  - by apply ownPath_hostPrefix.
  - by apply ownPath_hostPrefix.
  - intros filePath. apply ownPath_session, deletedRelativePath_own.
Qed.

Example writes_of_a_cycle_and_a_deletion :
  let w := runCommands Sample.env
             [SyncNow; DeleteRemote "/home/u/.claude/projects/p1/s1.jsonl"]
             Sample.cycleWorld in
  status w = Idle
  ∧ List.filter (fun mp => match fst mp with
                           | WebDavClient.GET | WebDavClient.PROPFIND => false
                           | _ => true
                           end)
      (map (fun x => (WebDavClient.method (fst x), WebDavClient.remotePath (fst x)))
           (fetches (WebDavClient.trace (conn w))))
    = [ (WebDavClient.MKCOL, "/hosts");
        (WebDavClient.MKCOL, "/hosts/H1");
        (WebDavClient.MKCOL, "/hosts/H1/projects");
        (WebDavClient.MKCOL, "/hosts/H1/projects/p1");
        (WebDavClient.PUT, "/hosts/H1/projects/p1/s1.jsonl");
        (WebDavClient.PUT, "/hosts/H1/machine.json");
        (WebDavClient.PUT, "/hosts/H1/history.jsonl");
        (WebDavClient.PUT, "/session-names.json");
        (WebDavClient.DELETE, "/hosts/H1/projects/p1/s1.jsonl") ].
Proof. vm_compute. done. Qed.

(** * Further properties of the client *)

Section Attempts.
Import WebDavClient.

Lemma fetches_sleep ms : fetches [Sleep ms] = [].
Proof. reflexivity. Qed.

Lemma throttled_fetches s :
  ∃ pre, trace (throttled s) = trace s ++ pre ∧ fetches pre = [].
Proof.
  destruct (throttled_fields s) as (_ & _ & _ & _ & [H|H]).
  - exists []. by rewrite app_nil_r.
  - eexists. split; [exact H|done].
Qed.

(** The retry loop with [S remaining] turns left at attempt [attempt] fetches
    at least once and at most [S remaining] times; an answer of 503 is handed
    back only by the last turn; it throws only what the transport rejected
    with. *)
Lemma requestLoop_attempts m p o maxRetries : ∀ remaining attempt s,
  (attempt + remaining = maxRetries)%nat →
  ∃ res s' evs,
    requestLoop m p o maxRetries (S remaining) attempt s = (res, s')
    ∧ trace s' = trace s ++ evs
    ∧ (1 ≤ length (fetches evs) ≤ S remaining)%nat
    ∧ match res with
      | Ok r => status r = 503 → length (fetches evs) = S remaining
      | Throw e => ∃ pre rq, evs = pre ++ [Fetch rq (Rejected e)]
      end.
Proof.
  assert (Hrej : ∀ remaining attempt s,
    (∀ r rest, network s ≠ Answer r :: rest) →
    ∃ res s' evs,
      requestLoop m p o maxRetries (S remaining) attempt s = (res, s')
      ∧ trace s' = trace s ++ evs
      ∧ (1 ≤ length (fetches evs) ≤ S remaining)%nat
      ∧ match res with
        | Ok r => status r = 503 → length (fetches evs) = S remaining
        | Throw e => ∃ pre rq, evs = pre ++ [Fetch rq (Rejected e)]
        end).
  { intros remaining attempt s Hnet.
    destruct (throttled_fetches s) as (pre & Hpre & Hfp).
    destruct (requestLoop_reject m p o maxRetries remaining attempt s Hnet) as [e He].
    destruct (rejected_fields s (requestOf s m p o) e) as (_ & _ & _ & Ht).
    exists (Throw e), (rejected s (requestOf s m p o) e),
      (pre ++ [Fetch (requestOf s m p o) (Rejected e)]).
    split; [exact He|]. rewrite Ht, Hpre, fetches_app, Hfp, <- app_assoc.
    split_and!; [done|simpl; lia..|eauto]. }
  assert (Hret : ∀ remaining attempt s r rest,
    network s = Answer r :: rest →
    status r ≠ 503 ∨ (attempt = maxRetries ∧ remaining = 0%nat) →
    ∃ res s' evs,
      requestLoop m p o maxRetries (S remaining) attempt s = (res, s')
      ∧ trace s' = trace s ++ evs
      ∧ (1 ≤ length (fetches evs) ≤ S remaining)%nat
      ∧ match res with
        | Ok r => status r = 503 → length (fetches evs) = S remaining
        | Throw e => ∃ pre rq, evs = pre ++ [Fetch rq (Rejected e)]
        end).
  { intros remaining attempt s r rest Enet Hcond.
    destruct (throttled_fetches s) as (pre & Hpre & Hfp).
    destruct (returned_fields s (requestOf s m p o) r rest) as (_ & _ & _ & _ & Ht).
    exists (Ok r), (returned s (requestOf s m p o) r rest),
      (pre ++ [Fetch (requestOf s m p o) (Answer r)]).
    split.
    { apply requestLoop_return; [done|]. destruct Hcond as [?|[-> _]]; [by left|right; lia]. }
    rewrite Ht, Hpre, fetches_app, Hfp, <- app_assoc.
    split_and!; [done|simpl; lia..|].
    intros H5. destruct Hcond as [?|[_ ->]]; [done|]. reflexivity. }
  induction remaining as [|remaining IH]; intros attempt s Hsum.
  - destruct (network s) as [|[r|e] rest] eqn:Enet.
    + apply Hrej. intros ??. by rewrite Enet.
    + apply (Hret _ _ _ r rest Enet). right. split; [lia|done].
    + apply Hrej. intros ??. by rewrite Enet.
  - destruct (network s) as [|[r|e] rest] eqn:Enet.
    + apply Hrej. intros ??. by rewrite Enet.
    + destruct (decide (status r = 503)) as [H5|Hno]; [|apply (Hret _ _ _ r rest Enet); by left].
      assert (Hlt : (attempt < maxRetries)%nat) by lia.
      destruct (throttled_fetches s) as (pre & Hpre & Hfp).
      destruct (backedOff_fields s (requestOf s m p o) r rest attempt) as (_ & _ & _ & _ & Ht).
      destruct (IH (S attempt) (backedOff s (requestOf s m p o) r rest attempt))
        as (res & s' & evs & E & Hevs & Hlen & Hres); [lia|].
      exists res, s',
        (pre ++ [Fetch (requestOf s m p o) (Answer r);
                 Sleep (Z.min (3000 * 2 ^ Z.of_nat attempt) 30000)] ++ evs).
      split.
      { rewrite (requestLoop_retry m p o maxRetries (S remaining) attempt s r rest Enet H5 Hlt).
        exact E. }
      rewrite Hevs, Ht, Hpre, !fetches_app, Hfp, <- !app_assoc.
      split_and!; [done|simpl; lia..|].
      destruct res as [r'|e'].
      * intros H. simpl. by rewrite (Hres H).
      * destruct Hres as (pre' & rq & ->).
        exists (pre ++ [Fetch (requestOf s m p o) (Answer r);
                        Sleep (Z.min (3000 * 2 ^ Z.of_nat attempt) 30000)] ++ pre'), rq.
        by rewrite <- !app_assoc.
    + apply Hrej. intros ??. by rewrite Enet.
Qed.

End Attempts.

(** X1. A call of [request] with [retries] retries allowed (3 when not
    given) fetches at least once and at most [retries + 1] times, every
    fetch being of the method and path asked for; it hands back an answer of
    503 only after [retries + 1] fetches; and it throws only the error that
    the transport rejected its last fetch with, never the fallback error
    after the loop. *)
Theorem request_fetches_at_most_retries_plus_one
    (m : WebDavClient.Method) (p : string) (o : WebDavClient.Options)
    (s : WebDavClient.State) :
  let retries := default 3%nat (WebDavClient.opt_retries o) in
  ∃ evs,
    WebDavClient.trace (exec (WebDavClient.request m p o) s) = WebDavClient.trace s ++ evs
    ∧ Forall (eventOf m (WebDavClient.clean p)) evs
    ∧ (1 ≤ length (fetches evs) ≤ retries + 1)%nat
    ∧ match result (WebDavClient.request m p o) s with
      | Ok r => WebDavClient.status r = 503 → length (fetches evs) = (retries + 1)%nat
      | Throw e => ∃ pre rq, evs = pre ++ [WebDavClient.Fetch rq (WebDavClient.Rejected e)]
      end.
Proof.
  intros retries.
  destruct (requestLoop_attempts m p o retries retries 0 s eq_refl)
    as (res & s' & evs & E & Ht & Hlen & Hres).
  assert (E' : WebDavClient.request m p o s = (res, s')) by exact E.
  destruct (request_shape m p o s) as (_ & _ & evs' & Ht' & Hall & _).
  unfold exec, result in *. rewrite E' in *. cbn [fst snd] in *.
  assert (evs' = evs) as ->.
  { rewrite Ht in Ht'. by apply app_inv_head in Ht'. }
  exists evs. split_and!; [done|done|lia..|].
  destruct res; [|done]. intros H. rewrite (Hres H). lia.
Qed.

Section Answers.
Import WebDavClient.

(** A first answer other than 503 ends the call at once. *)
Lemma request_first m p o s r rest :
  network s = Answer r :: rest → status r ≠ 503 →
  ∃ s', request m p o s = (Ok r, s')
    ∧ network s' = rest
    ∧ knownDirs s' = knownDirs s
    ∧ fetches (trace s') = fetches (trace s) ++ [(requestOf s m p o, Answer r)].
Proof.
  intros Hnet H5. exists (returned s (requestOf s m p o) r rest).
  destruct (returned_fields s (requestOf s m p o) r rest) as (Hn & _ & Hk & _ & Ht).
  destruct (throttled_fetches s) as (pre & Hpre & Hfp).
  split_and!; [|done|done|].
  - unfold request. apply requestLoop_return; [done|by left].
  - by rewrite Ht, Hpre, !fetches_app, Hfp, app_nil_r.
Qed.

Lemma request_rejected m p o s :
  (∀ r rest, network s ≠ Answer r :: rest) →
  ∃ e s', request m p o s = (Throw e, s').
Proof.
  intros H. destruct (requestLoop_reject m p o (default 3%nat (opt_retries o))
                        (default 3%nat (opt_retries o)) 0 s H) as [e He].
  by exists e, (rejected s (requestOf s m p o) e).
Qed.

End Answers.

(** X2. [upload] sends the content as the body of a PUT with the content
    type [application/octet-stream]; it returns when the answer that
    [request] hands back has a status below 400 (a redirect included) and
    throws [upload failed] with that status from 400 on; an error of
    [request] passes through. *)
Theorem upload_throws_from_status_400 (p content : string) (s : WebDavClient.State) :
  let o := {| WebDavClient.opt_body := Some content;
              WebDavClient.opt_headers := [("Content-Type", "application/octet-stream")];
              WebDavClient.opt_retries := None |} in
  (∀ resp s', WebDavClient.request WebDavClient.PUT p o s = (Ok resp, s') →
     (WebDavClient.status resp < 400 → WebDavClient.upload p content s = (Ok tt, s'))
     ∧ (400 ≤ WebDavClient.status resp →
        WebDavClient.upload p content s
        = (Throw (HttpError "upload failed" (WebDavClient.status resp)
                    (WebDavClient.statusText resp)), s')))
  ∧ (∀ e s', WebDavClient.request WebDavClient.PUT p o s = (Throw e, s') →
       WebDavClient.upload p content s = (Throw e, s'))
  ∧ (∀ r rest,
       WebDavClient.network s = WebDavClient.Answer r :: rest →
       WebDavClient.status r < 400 →
       ∃ s', WebDavClient.upload p content s = (Ok tt, s')
         ∧ fetches (WebDavClient.trace s')
           = fetches (WebDavClient.trace s)
             ++ [({| WebDavClient.method := WebDavClient.PUT;
                     WebDavClient.remotePath := WebDavClient.clean p;
                     WebDavClient.headers :=
                       [("Authorization", WebDavClient.authHeader s);
                        ("Content-Type", "application/octet-stream")];
                     WebDavClient.body := Some content |}, WebDavClient.Answer r)]).
Proof.
  intros o. split_and!.
  - intros resp s' E. unfold WebDavClient.upload. fold o. rewrite (bind_Ok _ _ _ _ _ E).
    split; intros H.
    + by assert ((WebDavClient.status resp >=? 400) = false) as -> by lia.
    + by assert ((WebDavClient.status resp >=? 400) = true) as -> by lia.
  - intros e s' E. unfold WebDavClient.upload. fold o. by rewrite (bind_Throw _ _ _ _ _ E).
  - intros r rest Hnet Hst.
    destruct (request_first WebDavClient.PUT p o s r rest Hnet) as (s' & E & _ & _ & Hf);
      [lia|].
    exists s'. split; [|exact Hf].
    unfold WebDavClient.upload. fold o. rewrite (bind_Ok _ _ _ _ _ E).
    by assert ((WebDavClient.status r >=? 400) = false) as -> by lia.
Qed.

(** X3. [download] throws [File not found] on a 404, throws
    [download failed] on any other status from 400 on, and otherwise returns
    the body of the answer, whatever the status below 400. *)
Theorem download_returns_the_body_below_400 (p : string) (s : WebDavClient.State) :
  (∀ resp s',
     WebDavClient.request WebDavClient.GET p WebDavClient.noOptions s = (Ok resp, s') →
     (WebDavClient.status resp = 404 →
      WebDavClient.download p s = (Throw (Error ("File not found: " +:+ p)), s'))
     ∧ (400 ≤ WebDavClient.status resp → WebDavClient.status resp ≠ 404 →
        WebDavClient.download p s
        = (Throw (HttpError "download failed" (WebDavClient.status resp)
                    (WebDavClient.statusText resp)), s'))
     ∧ (WebDavClient.status resp < 400 →
        WebDavClient.download p s = (Ok (WebDavClient.text resp), s')))
  ∧ (∀ e s',
       WebDavClient.request WebDavClient.GET p WebDavClient.noOptions s = (Throw e, s') →
       WebDavClient.download p s = (Throw e, s'))
  ∧ (∀ content s', WebDavClient.download p s = (Ok content, s') →
       ∃ resp, WebDavClient.request WebDavClient.GET p WebDavClient.noOptions s = (Ok resp, s')
               ∧ WebDavClient.status resp < 400
               ∧ content = WebDavClient.text resp).
Proof.
  split_and!.
  - intros resp s' E. unfold WebDavClient.download. rewrite (bind_Ok _ _ _ _ _ E).
    split_and!; intros H.
    + by rewrite H.
    + intros H4. assert ((WebDavClient.status resp =? 404) = false) as -> by lia.
      by assert ((WebDavClient.status resp >=? 400) = true) as -> by lia.
    + assert ((WebDavClient.status resp =? 404) = false) as -> by lia.
      by assert ((WebDavClient.status resp >=? 400) = false) as -> by lia.
  - intros e s' E. unfold WebDavClient.download. by rewrite (bind_Throw _ _ _ _ _ E).
  - intros content s'. unfold WebDavClient.download.
    destruct (WebDavClient.request WebDavClient.GET p WebDavClient.noOptions s)
      as [[resp|e] s1] eqn:E.
    + rewrite (bind_Ok _ _ _ _ _ E).
      destruct (WebDavClient.status resp =? 404) eqn:E4; [done|].
      destruct (WebDavClient.status resp >=? 400) eqn:E400; [done|].
      intros [= <- <-]. exists resp. split_and!; [done|lia|done].
    + by rewrite (bind_Throw _ _ _ _ _ E).
Qed.


(** X5. [getFileInfo] never throws.  It gives the first parsed item when the
    answer is a 207 with at least one item, and nothing in every other case:
    a 404, any other status, an empty listing, or a failed request. *)
Theorem getFileInfo_never_throws
    (parse : string → string → list WebDavFileInfo) (p : string) (s : WebDavClient.State) :
  (∃ r s', WebDavClient.getFileInfo parse p s = (Ok r, s'))
  ∧ (∀ resp s',
       WebDavClient.request WebDavClient.PROPFIND p WebDavClient.depth0 s = (Ok resp, s') →
       (WebDavClient.status resp = 207 →
        WebDavClient.getFileInfo parse p s = (Ok (head (parse (WebDavClient.text resp) p)), s'))
       ∧ (WebDavClient.status resp ≠ 207 →
          WebDavClient.getFileInfo parse p s = (Ok None, s')))
  ∧ (∀ e s',
       WebDavClient.request WebDavClient.PROPFIND p WebDavClient.depth0 s = (Throw e, s') →
       WebDavClient.getFileInfo parse p s = (Ok None, s'))
  ∧ (∀ info s', WebDavClient.getFileInfo parse p s = (Ok (Some info), s') →
       ∃ resp rest,
         WebDavClient.request WebDavClient.PROPFIND p WebDavClient.depth0 s = (Ok resp, s')
         ∧ WebDavClient.status resp = 207
         ∧ parse (WebDavClient.text resp) p = info :: rest).
Proof.
  assert (Hok : ∀ resp s',
    WebDavClient.request WebDavClient.PROPFIND p WebDavClient.depth0 s = (Ok resp, s') →
    WebDavClient.getFileInfo parse p s
    = (Ok (if WebDavClient.status resp =? 207
           then head (parse (WebDavClient.text resp) p) else None), s')).
  { intros resp s' E. unfold WebDavClient.getFileInfo, tryCatch.
    rewrite (bind_Ok _ _ _ _ _ E).
    destruct (WebDavClient.status resp =? 404) eqn:E4.
    - by assert ((WebDavClient.status resp =? 207) = false) as -> by lia.
    - by destruct (WebDavClient.status resp =? 207). }
  assert (Hthrow : ∀ e s',
    WebDavClient.request WebDavClient.PROPFIND p WebDavClient.depth0 s = (Throw e, s') →
    WebDavClient.getFileInfo parse p s = (Ok None, s')).
  { intros e s' E. unfold WebDavClient.getFileInfo, tryCatch.
    by rewrite (bind_Throw _ _ _ _ _ E). }
  split_and!.
  - destruct (WebDavClient.request WebDavClient.PROPFIND p WebDavClient.depth0 s)
      as [[resp|e] s1] eqn:E.
    + rewrite (Hok _ _ eq_refl). by eexists _, _.
    + rewrite (Hthrow _ _ eq_refl). by eexists _, _.
  - intros resp s' E. rewrite (Hok _ _ E). split; intros H.
    + by rewrite H.
    + by assert ((WebDavClient.status resp =? 207) = false) as -> by lia.
  - exact Hthrow.
  - intros info s'.
    destruct (WebDavClient.request WebDavClient.PROPFIND p WebDavClient.depth0 s)
      as [[resp|e] s1] eqn:E.
    + rewrite (Hok _ _ eq_refl).
      destruct (WebDavClient.status resp =? 207) eqn:E7; [|done].
      destruct (parse (WebDavClient.text resp) p) as [|i rest] eqn:Ep; [done|].
      intros [= <- <-]. exists resp, rest. split_and!; [done|lia|done].
    + by rewrite (Hthrow _ _ eq_refl).
Qed.

Section KnownDirs.
Import WebDavClient.

Lemma ensureDir_ok d s s1 :
  ensureDir d s = (Ok tt, s1) → d ∈ knownDirs s1 ∧ knownDirs s ⊆ knownDirs s1.
Proof.
  rewrite ensureDir_step. destruct (decide (d ∈ knownDirs s)) as [Hin|Hnew].
  - by intros [= <-].
  - pose proof (mkdir_state d s) as Hst.
    destruct (request_shape MKCOL d noOptions s) as (Hk & _).
    rewrite <- Hst in Hk. unfold exec in Hk.
    destruct (mkdir d s) as [[[]|e] s2]; [|done]. cbn [snd] in Hk.
    intros [= <-]. cbn [knownDirs set_knownDirs]. rewrite Hk. split.
    + apply elem_of_union. right. by apply elem_of_singleton.
    + apply union_subseteq_l.
Qed.

Lemma forOf_ensureDir_ok xs : ∀ s s1,
  forOf xs ensureDir s = (Ok tt, s1) →
  (∀ d, In d xs → d ∈ knownDirs s1) ∧ knownDirs s ⊆ knownDirs s1.
Proof.
  induction xs as [|x xs IH]; intros s s1.
  - intros [= <-]. by split; [intros ? []|].
  - cbn [forOf]. destruct (ensureDir x s) as [[[]|e] s2] eqn:E.
    + rewrite (bind_Ok _ _ _ _ _ E). intros H.
      destruct (ensureDir_ok _ _ _ E) as [Hx Hsub].
      destruct (IH _ _ H) as [Hall Hsub2]. split.
      * intros d [<-|Hd]; [by apply Hsub2|by apply Hall].
      * by transitivity (knownDirs s2).
    + by rewrite (bind_Throw _ _ _ _ _ E).
Qed.

Lemma forOf_ensureDir_known xs : ∀ s,
  (∀ d, In d xs → d ∈ knownDirs s) → forOf xs ensureDir s = (Ok tt, s).
Proof.
  induction xs as [|x xs IH]; intros s H; [done|].
  cbn [forOf]. assert (E : ensureDir x s = (Ok tt, s)).
  { rewrite ensureDir_step. destruct (decide (x ∈ knownDirs s)) as [|Hn]; [done|].
    destruct Hn. apply H. by left. }
  rewrite (bind_Ok _ _ _ _ _ E). apply IH. intros d Hd. apply H. by right.
Qed.

End KnownDirs.

(** X6. Once [mkdirp] has returned for a path, every directory on the way to
    that path is in the client's set of known directories, no directory
    known before has been forgotten, and calling [mkdirp] for the same path
    again returns at once: it sends nothing and changes nothing. *)
Theorem mkdirp_again_sends_nothing (p : string) (s s1 : WebDavClient.State) :
  WebDavClient.mkdirp p s = (Ok tt, s1) →
  (∀ d, ancestorOf d p → d ∈ WebDavClient.knownDirs s1)
  ∧ WebDavClient.knownDirs s ⊆ WebDavClient.knownDirs s1
  ∧ WebDavClient.mkdirp p s1 = (Ok tt, s1).
Proof.
  unfold WebDavClient.mkdirp. rewrite !mkdirpLoop_forOf. intros H.
  destruct (forOf_ensureDir_ok _ _ _ H) as [Hall Hsub].
  split_and!; [exact Hall|exact Hsub|]. by apply forOf_ensureDir_known.
Qed.

Lemma mkdirp_again_witness :
  let s := Sample.newClient [Sample.reply 201 ""; Sample.reply 405 ""; Sample.reply 201 ""] in
  let s1 := exec (WebDavClient.mkdirp "/hosts/H1/projects") s in
  WebDavClient.mkdirp "/hosts/H1/projects" s = (Ok tt, s1)
  ∧ WebDavClient.mkdirp "/hosts/H1/projects" s1 = (Ok tt, s1).
Proof.
  intros s s1.
  assert (H : WebDavClient.mkdirp "/hosts/H1/projects" s = (Ok tt, s1))
    by (vm_compute; reflexivity).
  split; [exact H|].
  exact (proj2 (proj2 (mkdirp_again_sends_nothing "/hosts/H1/projects" s s1 H))).
Defined.

(** * Further properties of the service *)

Section Clock.
Import WebDavClient.

Lemma throttled_now s : now s ≤ now (throttled s).
Proof.
  unfold throttled, sleep. munfold.
  destruct (now s - lastRequestTime s <? minInterval s) eqn:E; simpl; lia.
Qed.

Lemma returned_now s rq r rest : now (returned s rq r rest) = now (throttled s).
Proof. reflexivity. Qed.

Lemma rejected_now s rq e : now (rejected s rq e) = now (throttled s).
Proof. reflexivity. Qed.

Lemma backedOff_now s rq r rest attempt :
  now (throttled s) ≤ now (backedOff s rq r rest attempt).
Proof.
  unfold backedOff, sleep. munfold. cbn -[throttled Z.min Z.pow Z.mul].
  assert (0 < 3000 * 2 ^ Z.of_nat attempt) by (apply Z.mul_pos_pos; [lia|apply Z.pow_pos_nonneg; lia]).
  lia.
Qed.

(** The clock of the client only moves forward. *)
Lemma requestLoop_clock m p o maxRetries : ∀ remaining attempt s,
  now s ≤ now (exec (requestLoop m p o maxRetries remaining attempt) s).
Proof.
  induction remaining as [|remaining IH]; intros attempt s; [done|].
  pose proof (throttled_now s) as Ht.
  destruct (network s) as [|[r|e] rest] eqn:Enet.
  - destruct (requestLoop_reject m p o maxRetries remaining attempt s) as [e He].
    { intros ??. by rewrite Enet. }
    unfold exec. rewrite He. cbn [snd]. by rewrite rejected_now.
  - destruct (decide (status r = 503 ∧ (attempt < maxRetries)%nat)) as [[H5 Hlt]|Hno].
    + unfold exec in *. rewrite (requestLoop_retry m p o maxRetries remaining attempt s r rest Enet H5 Hlt).
      pose proof (backedOff_now s (requestOf s m p o) r rest attempt).
      pose proof (IH (S attempt) (backedOff s (requestOf s m p o) r rest attempt)). lia.
    + unfold exec. rewrite (requestLoop_return m p o maxRetries remaining attempt s r rest Enet).
      2:{ destruct (decide (status r = 503)); [right|left]; tauto. }
      cbn [snd]. by rewrite returned_now.
  - destruct (requestLoop_reject m p o maxRetries remaining attempt s) as [e' He].
    { intros ??. by rewrite Enet. }
    unfold exec. rewrite He. cbn [snd]. by rewrite rejected_now.
Qed.

(** From [t0] on. *)
Definition notBefore (t0 : Z) (s : State) : Prop := t0 ≤ now s.

Lemma request_notBefore t0 m p o : preserves (notBefore t0) (request m p o).
Proof.
  intros s Hs. unfold notBefore in *. unfold request.
  pose proof (requestLoop_clock m p o (default 3%nat (opt_retries o))
                (S (default 3%nat (opt_retries o))) 0 s). lia.
Qed.

Lemma upload_notBefore t0 p content : preserves (notBefore t0) (upload p content).
Proof. intros s Hs. rewrite upload_state. by apply request_notBefore. Qed.

Lemma mkdirp_notBefore t0 p : preserves (notBefore t0) (mkdirp p).
Proof.
  intros s Hs. unfold mkdirp, exec. rewrite mkdirpLoop_forOf.
  apply (preserves_forOf (notBefore t0)); [|done].
  intros d _ s1 Hs1. unfold exec. rewrite ensureDir_step.
  destruct (decide (d ∈ knownDirs s1)); [done|].
  assert (H2 : notBefore t0 (exec (mkdir d) s1)).
  { rewrite mkdir_state. by apply request_notBefore. }
  unfold exec in H2. by destruct (mkdir d s1) as [[[]|e] s2].
Qed.

End Clock.

Section Transfers.
Variable env : Env.

Lemma onClient_eq {A} (m : M WebDavClient.State A) w r s1 :
  m (conn w) = (r, s1) → onClient m w = (r, set_conn (fun _ => s1) w).
Proof. intros E. unfold onClient. by rewrite E. Qed.

(** [uploadFile], step by step, when the client is there and the change
    names a local file. *)
Lemma uploadFile_run change w lp :
  client w = true → localPath change = Some lp → lp ≠ "" →
  SyncService.uploadFile env change w
  = match WebDavClient.mkdirp ("/" +:+ path_dirname env (relativePath change)) (conn w) with
    | (Throw e, s1) => (Throw e, set_conn (fun _ => s1) w)
    | (Ok _, s1) =>
        match fs w !! lp with
        | Some (File content _) =>
            match WebDavClient.upload ("/" +:+ relativePath change) content s1 with
            | (Throw e, s2) => (Throw e, set_conn (fun _ => s2) w)
            | (Ok _, s2) =>
                (Ok tt,
                 set_manifest
                   (SyncManifest.setEntry (relativePath change)
                      {| me_size := Z.of_nat (String.length content);
                         me_mtimeMs := orNow (localMtime change) (WebDavClient.now s2);
                         me_syncedAt := WebDavClient.now s2 |})
                   (set_conn (fun _ => s2) w))
            end
        | Some (Dir _) => (Throw (Error "EISDIR"), set_conn (fun _ => s1) w)
        | None => (Throw Fs.enoent, set_conn (fun _ => s1) w)
        end
    end.
Proof.
  intros Hc Hlp Hne. unfold SyncService.uploadFile.
  rewrite bind_gets, Hc, Hlp. cbn [negb orb SyncService.truthy].
  apply String.eqb_neq in Hne. rewrite Hne. cbn [negb].
  change (default "" (Some lp)) with lp.
  destruct (WebDavClient.mkdirp ("/" +:+ path_dirname env (relativePath change)) (conn w))
    as [[[]|e] s1] eqn:E1.
  2:{ by rewrite (bind_Throw _ _ _ _ _ (onClient_eq _ _ _ _ E1)). }
  rewrite (bind_Ok _ _ _ _ _ (onClient_eq _ _ _ _ E1)).
  rewrite bind_gets. cbn [fs set_conn]. unfold Fs.readFileSync.
  destruct (fs w !! lp) as [[content mt|names]|]; [|done..].
  unfold bind at 1. unfold ret at 1.
  destruct (WebDavClient.upload ("/" +:+ relativePath change) content s1)
    as [[[]|e] s2] eqn:E2.
  - assert (E2' : onClient (WebDavClient.upload ("/" +:+ relativePath change) content)
                    (set_conn (fun _ => s1) w)
                  = (Ok tt, set_conn (fun _ => s2) w)).
    { unfold onClient. cbn [conn set_conn]. by rewrite E2. }
    rewrite (bind_Ok _ _ _ _ _ E2'). reflexivity.
  - assert (E2' : onClient (WebDavClient.upload ("/" +:+ relativePath change) content)
                    (set_conn (fun _ => s1) w)
                  = (Throw e, set_conn (fun _ => s2) w)).
    { unfold onClient. cbn [conn set_conn]. by rewrite E2. }
    by rewrite (bind_Throw _ _ _ _ _ E2').
Qed.

Lemma uploadFile_skip change w :
  client w = false ∨ SyncService.truthy (localPath change) = false →
  SyncService.uploadFile env change w = (Ok tt, w).
Proof.
  intros H. unfold SyncService.uploadFile. rewrite bind_gets.
  destruct H as [-> | ->]; [done|]. by rewrite orb_true_r.
Qed.

Lemma truthy_Some o : SyncService.truthy o = true → ∃ v, o = Some v ∧ v ≠ "".
Proof.
  destruct o as [v|]; [|done]. simpl. intros H%negb_true_iff%String.eqb_neq. eauto.
Qed.

End Transfers.

(** X8. [uploadFile] does nothing without a client or without a local path.
    Otherwise it makes the remote folder, reads the local file and puts it; it
    never changes a local file or the saved manifest.  When any step throws,
    the error passes on and the manifest is as before; when it returns, the
    manifest entry of the path records the length of the content sent, the
    modification time of the change (the clock's when that is absent or 0)
    and the clock's time as the time of synchronisation. *)
Theorem uploadFile_records_what_it_sent (env : Env) (change : FileChange) (w : World) :
  let w' := exec (SyncService.uploadFile env change) w in
  fs w' = fs w ∧ fsWrites w' = fsWrites w ∧ savedManifest w' = savedManifest w
  ∧ (client w = false ∨ SyncService.truthy (localPath change) = false →
     SyncService.uploadFile env change w = (Ok tt, w))
  ∧ (∀ e, result (SyncService.uploadFile env change) w = Throw e → manifest w' = manifest w)
  ∧ (client w = true → SyncService.truthy (localPath change) = true →
     result (SyncService.uploadFile env change) w = Ok tt →
     ∃ lp content mt s1,
       localPath change = Some lp
       ∧ fs w !! lp = Some (File content mt)
       ∧ WebDavClient.mkdirp ("/" +:+ path_dirname env (relativePath change)) (conn w)
         = (Ok tt, s1)
       ∧ WebDavClient.upload ("/" +:+ relativePath change) content s1 = (Ok tt, conn w')
       ∧ manifest w'
         = SyncManifest.setEntry (relativePath change)
             {| me_size := Z.of_nat (String.length content);
                me_mtimeMs := orNow (localMtime change) (WebDavClient.now (conn w'));
                me_syncedAt := WebDavClient.now (conn w') |}
             (manifest w)).
Proof.
  intros w'.
  destruct (decide (client w = true ∧ SyncService.truthy (localPath change) = true))
    as [[Hc Ht]|Hno].
  - destruct (truthy_Some _ Ht) as (lp & Hlp & Hne).
    pose proof (uploadFile_run env change w lp Hc Hlp Hne) as Hrun.
    unfold w', exec, result. rewrite Hrun. clear Hrun w'.
    destruct (WebDavClient.mkdirp _ (conn w)) as [[[]|e1] s1];
      [|split_and!; try done; intros [?|?]; congruence].
    destruct (fs w !! lp) as [[content mt|names]|] eqn:Efs;
      [|split_and!; try done; intros [?|?]; congruence..].
    destruct (WebDavClient.upload ("/" +:+ relativePath change) content s1)
      as [[[]|e2] s2] eqn:E2;
      [|split_and!; try done; intros [?|?]; congruence].
    split_and!; try done.
    + intros [?|?]; congruence.
    + intros _ _ _. by exists lp, content, mt, s1.
  - assert (Hskip : client w = false ∨ SyncService.truthy (localPath change) = false).
    { destruct (client w); [|by left]. destruct (SyncService.truthy (localPath change));
        [|by right]. by destruct Hno. }
    unfold w', exec, result. rewrite (uploadFile_skip env change w Hskip). cbn [fst snd].
    split_and!; try done. intros Hc Ht. destruct Hskip; congruence.
Qed.

Section LocalSteps.

Lemma writeFileSync_step p content w :
  writeFileSync p content w
  = match fs w !! p with
    | Some (Dir _) => (Throw (Error "EISDIR"), w)
    | _ => (Ok tt,
            set_fsWrites (fun l => l ++ [(p, content)])
              (set_fs (fun _ => <[p := File content (WebDavClient.now (conn w))]> (fs w)) w))
    end.
Proof.
  unfold writeFileSync, dateNow. rewrite !bind_gets. unfold Fs.writeFile.
  by destruct (fs w !! p) as [[c mt|names]|].
Qed.

Lemma mkdirSync_step d w :
  mkdirSync d w
  = match fs w !! d with
    | Some (File _ _) => (Throw (Error "EEXIST"), w)
    | Some (Dir _) => (Ok tt, set_fs (fun _ => fs w) w)
    | None => (Ok tt, set_fs (fun _ => <[d := Dir []]> (fs w)) w)
    end.
Proof.
  unfold mkdirSync. rewrite bind_gets. unfold Fs.mkdir.
  by destruct (fs w !! d) as [[c mt|names]|].
Qed.

End LocalSteps.

(** X9. A file that [uploadFile] has sent is not planned for upload again
    while the store lists it and its size and modification time stay as they
    were: the entry the upload leaves in the manifest makes the test of
    [computeUploadChanges] fail for it. *)
Theorem uploaded_file_is_not_planned_again
    (env : Env) (p : string) (local : LocalFile) (w w' : World) :
  client w = true → fullPath local ≠ "" → 0 ≤ WebDavClient.now (conn w) →
  SyncService.uploadFile env (SyncService.uploadOf p local) w = (Ok tt, w') →
  ∃ content mt,
    fs w !! fullPath local = Some (File content mt)
    ∧ ∀ localFiles remoteFiles,
        (∀ l, In (p, l) localFiles →
           lf_size l = Z.of_nat (String.length content)
           ∧ lf_mtimeMs l = lf_mtimeMs local) →
        is_Some (JsMap.get p remoteFiles) →
        ¬ planned p (SyncService.computeUploadChanges (manifest w') localFiles remoteFiles).
Proof.
  intros Hc Hne Hclock Hrun.
  rewrite (uploadFile_run env (SyncService.uploadOf p local) w (fullPath local) Hc eq_refl Hne)
    in Hrun.
  cbn [relativePath localMtime SyncService.uploadOf] in Hrun.
  pose proof (mkdirp_notBefore 0 ("/" +:+ path_dirname env p) (conn w) Hclock) as Hk1.
  unfold exec in Hk1.
  destruct (WebDavClient.mkdirp ("/" +:+ path_dirname env p) (conn w)) as [[[]|e1] s1];
    [|done]. cbn [snd] in Hk1.
  destruct (fs w !! fullPath local) as [[content mt|names]|]; [|done..].
  pose proof (upload_notBefore 0 ("/" +:+ p) content s1 Hk1) as Hk2. unfold exec in Hk2.
  destruct (WebDavClient.upload ("/" +:+ p) content s1) as [[[]|e2] s2]; [|done].
  cbn [snd] in Hk2. unfold notBefore in Hk2.
  injection Hrun as <-. exists content, mt. split; [done|].
  intros localFiles remoteFiles Hsame [info Hinfo] (c & Hin & Hp).
  unfold SyncService.computeUploadChanges in Hin. rewrite planUpload_fold in Hin.
  cbn [app] in Hin. apply in_map_iff in Hin as ([q l] & <- & Hin).
  apply filter_In in Hin as [Hin Hneed]. cbn [relativePath SyncService.uploadOf fst] in Hp.
  subst q. destruct (Hsame l Hin) as [Hsize Hmtime].
  unfold uploadNeeded in Hneed. cbn [fst snd manifest set_manifest] in Hneed.
  rewrite Hinfo in Hneed. unfold SyncManifest.getEntry, SyncManifest.setEntry in Hneed.
  cbn [files] in Hneed. rewrite lookup_insert_eq in Hneed.
  cbn [me_size me_mtimeMs] in Hneed. rewrite Hsize, Z.eqb_refl in Hneed.
  cbn [negb orb] in Hneed. apply Z.gtb_gt in Hneed.
  unfold orNow in Hneed. rewrite Hmtime in Hneed.
  destruct (lf_mtimeMs local =? 0) eqn:E0; lia.
Qed.

Lemma uploaded_file_witness :
  ∃ content mt,
    fs Sample.cycleWorld !! fullPath Sample.s1 = Some (File content mt)
    ∧ ∀ localFiles remoteFiles,
        (∀ l, In ("hosts/H1/projects/p1/s1.jsonl", l) localFiles →
           lf_size l = Z.of_nat (String.length content)
           ∧ lf_mtimeMs l = lf_mtimeMs Sample.s1) →
        is_Some (JsMap.get "hosts/H1/projects/p1/s1.jsonl" remoteFiles) →
        ¬ planned "hosts/H1/projects/p1/s1.jsonl"
            (SyncService.computeUploadChanges
               (manifest (exec (SyncService.uploadFile Sample.env
                                  (SyncService.uploadOf "hosts/H1/projects/p1/s1.jsonl"
                                     Sample.s1)) Sample.cycleWorld))
               localFiles remoteFiles).
Proof.
  assert (Hne : fullPath Sample.s1 ≠ "") by done.
  assert (Hclock : 0 ≤ WebDavClient.now (conn Sample.cycleWorld))
    by (vm_compute; discriminate).
  assert (Hrun : SyncService.uploadFile Sample.env
                   (SyncService.uploadOf "hosts/H1/projects/p1/s1.jsonl" Sample.s1)
                   Sample.cycleWorld
                 = (Ok tt, exec (SyncService.uploadFile Sample.env
                                   (SyncService.uploadOf "hosts/H1/projects/p1/s1.jsonl"
                                      Sample.s1)) Sample.cycleWorld))
    by (vm_compute; reflexivity).
  exact (uploaded_file_is_not_planned_again Sample.env "hosts/H1/projects/p1/s1.jsonl"
           Sample.s1 Sample.cycleWorld _ eq_refl Hne Hclock Hrun).
Defined.

Section Mirror.
Variable env : Env.

(** [downloadFile], step by step, when the client is there. *)
Lemma downloadFile_run change w :
  client w = true →
  let rel := relativePath change in
  let cachePath := path_join env (cacheDir env) rel in
  let cacheFileDir := path_dirname env cachePath in
  SyncService.downloadFile env change w
  = match WebDavClient.download ("/" +:+ rel) (conn w) with
    | (Throw e, s1) => (Throw e, set_conn (fun _ => s1) w)
    | (Ok content, s1) =>
        let w1 := set_conn (fun _ => s1) w in
        let w2 := if Fs.existsSync (fs w) cacheFileDir then w1
                  else set_fs (fun _ => <[cacheFileDir := Dir []]> (fs w)) w1 in
        match fs w2 !! cachePath with
        | Some (Dir _) => (Throw (Error "EISDIR"), w2)
        | _ =>
            (Ok tt,
             set_manifest
               (SyncManifest.setEntry rel
                  {| me_size := Z.of_nat (String.length content);
                     me_mtimeMs := orNow (remoteMtime change) (WebDavClient.now s1);
                     me_syncedAt := WebDavClient.now s1 |})
               (set_fsWrites (fun l => l ++ [(cachePath, content)])
                  (set_fs (fun _ => <[cachePath := File content (WebDavClient.now s1)]> (fs w2))
                     w2)))
        end
    end.
Proof.
  intros Hc rel cachePath cacheFileDir. unfold SyncService.downloadFile.
  rewrite bind_gets, Hc. cbn [negb]. fold rel. fold cachePath. fold cacheFileDir.
  destruct (WebDavClient.download ("/" +:+ rel) (conn w)) as [[content|e] s1] eqn:E1.
  2:{ by rewrite (bind_Throw _ _ _ _ _ (onClient_eq _ _ _ _ E1)). }
  rewrite (bind_Ok _ _ _ _ _ (onClient_eq _ _ _ _ E1)).
  rewrite bind_gets. cbn [fs set_conn]. cbv zeta.
  set (w1 := set_conn (fun _ => s1) w).
  assert (Emk : when (negb (Fs.existsSync (fs w) cacheFileDir)) (mkdirSync cacheFileDir) w1
                = (Ok tt, if Fs.existsSync (fs w) cacheFileDir then w1
                          else set_fs (fun _ => <[cacheFileDir := Dir []]> (fs w)) w1)).
  { destruct (Fs.existsSync (fs w) cacheFileDir) eqn:Ex; [done|].
    cbn [negb when]. rewrite mkdirSync_step.
    replace (fs w1) with (fs w) by done. by rewrite (existsSync_false _ _ Ex). }
  rewrite (bind_Ok _ _ _ _ _ Emk).
  set (w2 := if Fs.existsSync (fs w) cacheFileDir then w1 else _).
  assert (Hw2 : conn w2 = s1) by (unfold w2; by destruct (Fs.existsSync _ _)).
  clearbody w2. unfold bind at 1. rewrite writeFileSync_step, Hw2.
  destruct (fs w2 !! cachePath) as [[c mt|names]|]; [|done|].
  - unfold dateNow. rewrite bind_gets. unfold modify.
    cbn [conn set_fsWrites set_fs]. by rewrite Hw2.
  - unfold dateNow. rewrite bind_gets. unfold modify.
    cbn [conn set_fsWrites set_fs]. by rewrite Hw2.
Qed.

End Mirror.

(** X10. [downloadFile] does nothing without a client.  When the download
    fails, the error passes on and nothing local changes; when a later local
    step throws, the manifest is still as before.  When it returns, the
    content is in the cache at the mirrored path, the write is the only one
    made, and the manifest entry of the path records the size of the content
    and the clock's time as the time of synchronisation; from then on
    the test of the download loop holds for this path exactly when the
    store reports a modification more than 1000 ms after that time. *)
Theorem downloadFile_mirrors_then_records (env : Env) (change : FileChange) (w : World) :
  let rel := relativePath change in
  let cachePath := path_join env (cacheDir env) rel in
  let w' := exec (SyncService.downloadFile env change) w in
  savedManifest w' = savedManifest w
  ∧ (client w = false → SyncService.downloadFile env change w = (Ok tt, w))
  ∧ (client w = true → ∀ e s1,
       WebDavClient.download ("/" +:+ rel) (conn w) = (Throw e, s1) →
       SyncService.downloadFile env change w = (Throw e, set_conn (fun _ => s1) w))
  ∧ (∀ e, result (SyncService.downloadFile env change) w = Throw e →
       manifest w' = manifest w ∧ fsWrites w' = fsWrites w)
  ∧ (client w = true → result (SyncService.downloadFile env change) w = Ok tt →
     ∃ content,
       WebDavClient.download ("/" +:+ rel) (conn w) = (Ok content, conn w')
       ∧ fs w' !! cachePath = Some (File content (WebDavClient.now (conn w')))
       ∧ fsWrites w' = fsWrites w ++ [(cachePath, content)]
       ∧ manifest w'
         = SyncManifest.setEntry rel
             {| me_size := Z.of_nat (String.length content);
                me_mtimeMs := orNow (remoteMtime change) (WebDavClient.now (conn w'));
                me_syncedAt := WebDavClient.now (conn w') |}
             (manifest w)
       ∧ ∀ info,
           downloadNeeded env (fs w') (manifest w') (rel, info) = true
           ↔ ∃ t, lastModified info = Some t ∧ WebDavClient.now (conn w') + 1000 < t).
Proof.
  intros rel cachePath w'. destruct (client w) eqn:Hc.
  2:{ assert (E : SyncService.downloadFile env change w = (Ok tt, w)).
      { unfold SyncService.downloadFile. by rewrite bind_gets, Hc. }
      unfold w', exec, result. rewrite E. cbn [fst snd]. by split_and!. }
  pose proof (downloadFile_run env change w Hc) as Hrun. cbv zeta in Hrun.
  fold rel in Hrun. fold cachePath in Hrun.
  unfold w', exec, result. rewrite Hrun. clear Hrun w'.
  destruct (WebDavClient.download ("/" +:+ rel) (conn w)) as [[content|e] s1];
    [|cbn [fst snd]; split_and!; [done|done| |done|done];
      by intros _ e' s' [= <- <-]].
  set (w2 := if Fs.existsSync (fs w) _ then _ else _).
  assert (Hw2 : conn w2 = s1 ∧ manifest w2 = manifest w ∧ savedManifest w2 = savedManifest w
                ∧ fsWrites w2 = fsWrites w).
  { unfold w2. by destruct (Fs.existsSync _ _). }
  clearbody w2. destruct Hw2 as (Hconn & Hman & Hsaved & Hwrites).
  assert (Hgood : ∀ f2,
    let w3 := set_manifest
                (SyncManifest.setEntry rel
                   {| me_size := Z.of_nat (String.length content);
                      me_mtimeMs := orNow (remoteMtime change) (WebDavClient.now s1);
                      me_syncedAt := WebDavClient.now s1 |})
                (set_fsWrites (fun l => l ++ [(cachePath, content)])
                   (set_fs (fun _ => <[cachePath := File content (WebDavClient.now s1)]> f2)
                      w2)) in
    ∃ content0,
      (Ok content, s1) = (Ok content0, conn w3)
      ∧ fs w3 !! cachePath = Some (File content0 (WebDavClient.now (conn w3)))
      ∧ fsWrites w3 = fsWrites w ++ [(cachePath, content0)]
      ∧ manifest w3
        = SyncManifest.setEntry rel
            {| me_size := Z.of_nat (String.length content0);
               me_mtimeMs := orNow (remoteMtime change) (WebDavClient.now (conn w3));
               me_syncedAt := WebDavClient.now (conn w3) |}
            (manifest w)
      ∧ ∀ info,
          downloadNeeded env (fs w3) (manifest w3) (rel, info) = true
          ↔ ∃ t, lastModified info = Some t ∧ WebDavClient.now (conn w3) + 1000 < t).
  { intros f2 w3. exists content.
    assert (Hc3 : conn w3 = s1) by exact Hconn.
    assert (Hf3 : fs w3 !! cachePath = Some (File content (WebDavClient.now s1))).
    { unfold w3. cbn [fs set_manifest set_fsWrites set_fs]. apply lookup_insert_eq. }
    assert (Hm3 : manifest w3
                  = SyncManifest.setEntry rel
                      {| me_size := Z.of_nat (String.length content);
                         me_mtimeMs := orNow (remoteMtime change) (WebDavClient.now s1);
                         me_syncedAt := WebDavClient.now s1 |} (manifest w)).
    { unfold w3. cbn [manifest set_manifest set_fsWrites set_fs]. by rewrite Hman. }
    assert (Hw3 : fsWrites w3 = fsWrites w ++ [(cachePath, content)]).
    { unfold w3. cbn [fsWrites set_manifest set_fsWrites set_fs]. by rewrite Hwrites. }
    clearbody w3. rewrite Hc3. split_and!; [done..|].
    intros info. rewrite downloadNeeded_spec.
    assert (Hex : Fs.existsSync (fs w3) (path_join env (cacheDir env) rel) = true).
    { by apply (existsSync_true _ _ _ Hf3). }
    rewrite Hex, Hm3. unfold SyncManifest.getEntry, SyncManifest.setEntry. cbn [files].
    rewrite lookup_insert_eq. split.
    - intros [?|[?|(e & t & [= <-] & Ht & Hlt)]]; [done..|]. by exists t.
    - intros (t & Ht & Hlt). right. right. by eexists _, t. }
  destruct (fs w2 !! cachePath) as [[c mt|names]|]; cbn [fst snd].
  - split_and!; [done|done|by intros _ ? ? [=]|done|]. intros _ _. apply Hgood.
  - split_and!; [done|done|by intros _ ? ? [=]|by intros ? _|done].
  - split_and!; [done|done|by intros _ ? ? [=]|done|]. intros _ _. apply Hgood.
Qed.

(** ** What a cycle leaves alone *)

Ltac walk :=
  repeat match goal with
  | |- preserves _ (bind _ _) => apply preserves_bind; [|intros ?]
  | |- preserves _ (ret _) => apply preserves_ret
  | |- preserves _ (throw _) => apply preserves_throw
  | |- preserves _ (outcome _) => apply preserves_outcome
  | |- preserves _ (gets _) => apply preserves_gets
  | |- preserves _ dateNow => apply preserves_gets
  | |- preserves _ (tryCatch _ _) => apply preserves_tryCatch; [|intros ?]
  | |- preserves _ (when _ _) => apply preserves_when
  | |- preserves _ (forOf _ _) => apply preserves_forOf; intros ? ?
  | |- preserves _ (if ?b then _ else _) => destruct b
  | |- preserves _ (onClient _) => apply preserves_onClient; by intros ?
  | |- preserves _ (modify _) => apply preserves_modify; by intros ?
  end.

(** The fields that say where the service stands: the saved manifest, the
    lock, the status and whether there is a client. *)
Definition control (w : World) : ManifestData * bool * SyncStatus * bool :=
  (savedManifest w, syncLock w, status w, client w).

Section Control.
Variable env : Env.
Variable k : ManifestData * bool * SyncStatus * bool.

Definition controlIs (w : World) : Prop := control w = k.

Lemma writeFileSync_control p content : preserves controlIs (writeFileSync p content).
Proof. unfold writeFileSync. walk. destruct (Fs.writeFile _ _ _ _); walk. Qed.

Lemma mkdirSync_control p : preserves controlIs (mkdirSync p).
Proof. unfold mkdirSync. walk. destruct (Fs.mkdir _ _); walk. Qed.

Lemma unlinkSync_control p : preserves controlIs (unlinkSync p).
Proof. unfold unlinkSync. walk. destruct (Fs.unlink _ _); walk. Qed.

Lemma readFileSync_control f p : preserves controlIs (Fs.readFileSync f p).
Proof. unfold Fs.readFileSync. destruct (f !! p) as [[]|]; walk. Qed.

Lemma listRemoteHosts_control : preserves controlIs (SyncService.listRemoteHosts env).
Proof. unfold SyncService.listRemoteHosts. walk. Qed.

Lemma scanHostRemoteFiles_control host :
  preserves controlIs (SyncService.scanHostRemoteFiles env host).
Proof.
  unfold SyncService.scanHostRemoteFiles. walk.
  apply preserves_withLocal.
  apply preserves_tryCatch; [|intros; apply preserves_ret].
  apply preserves_bind.
  { apply (preserves_liftL controlIs). walk. }
  intros projectDirs. apply preserves_forOf. intros projDir _.
  destruct (negb (isDirectory projDir)); [apply preserves_ret|].
  apply preserves_bind.
  { apply (preserves_liftL controlIs). walk. }
  intros sessionFiles. apply preserves_forOf. intros file _.
  destruct (SyncService.skipRemoteFile file); [apply preserves_ret|].
  apply (modifyL_keeps_world controlIs).
Qed.

Lemma planDownloads_control hosts : ∀ changes,
  preserves controlIs (SyncService.planDownloads env hosts changes).
Proof.
  induction hosts as [|host rest IH]; intros changes; simpl; [walk|].
  destruct (String.eqb host (hostname env)); [apply IH|].
  apply preserves_bind; [apply scanHostRemoteFiles_control|]. intros hostFiles.
  walk. apply IH.
Qed.

Lemma uploadFile_control change : preserves controlIs (SyncService.uploadFile env change).
Proof. unfold SyncService.uploadFile. walk. apply readFileSync_control. Qed.

Lemma downloadFile_control change : preserves controlIs (SyncService.downloadFile env change).
Proof.
  unfold SyncService.downloadFile. walk.
  - apply mkdirSync_control.
  - apply writeFileSync_control.
Qed.

Lemma mergeRemoteHistories_control hosts : ∀ merged,
  preserves controlIs (SyncService.mergeRemoteHistories env hosts merged).
Proof.
  induction hosts as [|host rest IH]; intros merged; simpl; [walk|].
  destruct (String.eqb host (hostname env)); [apply IH|].
  walk. apply IH.
Qed.

Lemma syncMetadata_control : preserves controlIs (SyncService.syncMetadata env).
Proof.
  unfold SyncService.syncMetadata, SyncService.uploadMachineDescriptor,
    SyncService.downloadMachineDescriptors, SyncService.syncHistoryFile,
    SyncService.syncSessionNames, SyncService.jsonParseNames.
  walk;
    first [ apply mkdirSync_control | apply writeFileSync_control
          | apply readFileSync_control | apply listRemoteHosts_control
          | apply mergeRemoteHistories_control
          | destruct (parseNames env _); walk ].
Qed.

Lemma performSync_control : preserves controlIs (SyncService.performSync env).
Proof.
  unfold SyncService.performSync. walk;
    first [ apply scanHostRemoteFiles_control | apply listRemoteHosts_control
          | apply planDownloads_control | apply uploadFile_control
          | apply downloadFile_control | apply syncMetadata_control ].
Qed.

End Control.

Section Cycle.
Variable env : Env.

Lemma bind_modify {S B} (f : S → S) (k : unit → M S B) s :
  bind (modify f) k s = k tt (f s).
Proof. reflexivity. Qed.

Lemma initialize_ready w :
  when (negb (client w)) (SyncService.initialize env) w = (Ok tt, ready env w).
Proof.
  unfold ready. destruct (client w); [done|]. cbn [negb when].
  unfold exec, SyncService.initialize. by destruct (credentials env).
Qed.

Lemma ready_control w :
  savedManifest (ready env w) = savedManifest w ∧ syncLock (ready env w) = syncLock w.
Proof.
  unfold ready. destruct (client w); [done|].
  unfold exec, SyncService.initialize. by destruct (credentials env).
Qed.

(** [syncNow], step by step. *)
Lemma syncNow_run w :
  syncLock w = false → client (ready env w) = true →
  let w1 := set_status Syncing (set_syncLock true (ready env w)) in
  SyncService.syncNow env w
  = match SyncService.performSync env w1 with
    | (Ok _, w2) =>
        (Ok tt,
         set_syncLock false
           (set_status Idle
              (set_savedManifest
                 (SyncManifest.setLastSyncTime (WebDavClient.now (conn w2)) (manifest w2))
                 (set_manifest (SyncManifest.setLastSyncTime (WebDavClient.now (conn w2)))
                    w2))))
    | (Throw _, w2) => (Ok tt, set_syncLock false (set_status Failed w2))
    end.
Proof.
  intros Hlock Hc w1. unfold SyncService.syncNow.
  rewrite bind_gets, Hlock. rewrite bind_gets.
  rewrite (bind_Ok _ _ _ _ _ (initialize_ready w)).
  rewrite bind_gets, Hc. cbn [negb]. rewrite !bind_modify. fold w1.
  unfold bind at 1. unfold tryCatch.
  destruct (SyncService.performSync env w1) as [[[]|e] w2] eqn:E.
  - rewrite (bind_Ok _ _ _ _ _ E). unfold dateNow. rewrite bind_gets, bind_modify.
    unfold SyncService.manifestSave. unfold bind at 1. rewrite bind_gets.
    reflexivity.
  - rewrite (bind_Throw _ _ _ _ _ E). reflexivity.
Qed.

End Cycle.

(** X11. [syncNow] never throws.  With the lock taken it does nothing.
    With no client and none to be had it only leaves what [initialize]
    leaves.  Otherwise it runs one cycle with the lock taken and the status
    [Syncing], and always ends with the lock released: after a cycle that
    returned, the status is [Idle], the time of the last cycle is the
    clock's and the manifest is saved; after a cycle that threw, the status
    is the error status and the saved manifest is the one from before, so
    what the cycle recorded before it failed is not saved. *)
Theorem syncNow_releases_the_lock (env : Env) (w : World) :
  let w' := exec (SyncService.syncNow env) w in
  result (SyncService.syncNow env) w = Ok tt
  ∧ (syncLock w = true → SyncService.syncNow env w = (Ok tt, w))
  ∧ (syncLock w = false → client (ready env w) = false → w' = ready env w)
  ∧ (syncLock w = false → client (ready env w) = true →
     let w1 := set_status Syncing (set_syncLock true (ready env w)) in
     syncLock w' = false ∧ client w' = true
     ∧ conn w' = conn (exec (SyncService.performSync env) w1)
     ∧ fs w' = fs (exec (SyncService.performSync env) w1)
     ∧ files (manifest w') = files (manifest (exec (SyncService.performSync env) w1))
     ∧ match result (SyncService.performSync env) w1 with
       | Ok _ =>
           status w' = Idle
           ∧ lastSyncTime (manifest w') = WebDavClient.now (conn w')
           ∧ savedManifest w' = manifest w'
       | Throw _ =>
           status w' = Failed
           ∧ manifest w' = manifest (exec (SyncService.performSync env) w1)
           ∧ savedManifest w' = savedManifest w
       end).
Proof.
  intros w'.
  assert (Hlocked : syncLock w = true → SyncService.syncNow env w = (Ok tt, w)).
  { intros H. unfold SyncService.syncNow. by rewrite bind_gets, H. }
  assert (Hnone : syncLock w = false → client (ready env w) = false →
                  SyncService.syncNow env w = (Ok tt, ready env w)).
  { intros Hl Hc. unfold SyncService.syncNow. rewrite bind_gets, Hl, bind_gets.
    rewrite (bind_Ok _ _ _ _ _ (initialize_ready env w)). by rewrite bind_gets, Hc. }
  assert (Hrun := syncNow_run env w). cbv zeta in Hrun.
  destruct (ready_control env w) as [Hsaved _].
  pose proof (performSync_control env
                (control (set_status Syncing (set_syncLock true (ready env w))))
                (set_status Syncing (set_syncLock true (ready env w))) eq_refl) as Hctl.
  unfold controlIs, control, exec in Hctl.
  split_and!.
  - unfold result. destruct (syncLock w) eqn:Hl; [by rewrite Hlocked|].
    destruct (client (ready env w)) eqn:Hc; [|by rewrite Hnone].
    rewrite (Hrun eq_refl eq_refl).
    by destruct (SyncService.performSync env _) as [[[]|e] w2].
  - exact Hlocked.
  - intros Hl Hc. unfold w', exec. by rewrite (Hnone Hl Hc).
  - intros Hl Hc w1. fold w1 in Hctl, Hrun. unfold w', exec, result.
    rewrite (Hrun Hl Hc). clear Hrun w'.
    destruct (SyncService.performSync env w1) as [[[]|e] w2]; cbn [fst snd] in *.
    + injection Hctl as Hs _ _ Hcl. split_and!; try done.
      cbn [client set_syncLock set_status set_savedManifest set_manifest]. congruence.
    + injection Hctl as Hs _ _ Hcl. split_and!; try done.
      * cbn [client set_syncLock set_status]. congruence.
      * cbn [savedManifest set_syncLock set_status]. by rewrite Hs, <- Hsaved.
Qed.

Section Offline.
Variable env : Env.
Hypothesis Hnone : credentials env = None.

(** Nothing but the status differs from [w0], and there is no client. *)
Definition idleAs (w0 w : World) : Prop :=
  conn w = conn w0 ∧ fs w = fs w0 ∧ fsWrites w = fsWrites w0
  ∧ manifest w = manifest w0 ∧ savedManifest w = savedManifest w0
  ∧ syncLock w = syncLock w0 ∧ client w = false.

Lemma ready_offline w0 w : idleAs w0 w → idleAs w0 (ready env w).
Proof.
  intros (Hc & Hf & Hw & Hm & Hs & Hl & Hcl). unfold ready. rewrite Hcl.
  unfold exec, SyncService.initialize. rewrite Hnone. by split_and!.
Qed.

Lemma syncNow_offline w0 w : idleAs w0 w → idleAs w0 (exec (SyncService.syncNow env) w).
Proof.
  intros H. pose proof (ready_offline w0 w H) as Hr.
  destruct Hr as (Hc & Hf & Hw & Hm & Hs & Hl & Hcl).
  unfold exec, SyncService.syncNow. rewrite bind_gets.
  destruct (syncLock w) eqn:El; [done|]. rewrite bind_gets.
  rewrite (bind_Ok _ _ _ _ _ (initialize_ready env w)). rewrite bind_gets, Hcl.
  cbn [negb ret snd]. by split_and!.
Qed.

Lemma deleteRemote_offline filePath w0 w :
  idleAs w0 w → idleAs w0 (exec (SyncService.deleteRemote env filePath) w).
Proof.
  intros H. pose proof (ready_offline w0 w H) as Hr.
  pose proof (ready_offline w0 _ Hr) as Hrr.
  unfold exec. rewrite deleteRemote_ready. unfold SyncService.deleteRemote.
  rewrite bind_gets. rewrite (bind_Ok _ _ _ _ _ (initialize_ready env (ready env w))).
  destruct Hrr as (Hc & Hf & Hw & Hm & Hs & Hl & Hcl).
  rewrite bind_gets, Hcl. cbn [negb ret snd]. by split_and!.
Qed.

Lemma runCommands_offline cs : ∀ w0 w, idleAs w0 w → idleAs w0 (runCommands env cs w).
Proof.
  induction cs as [|c cs IH]; intros w0 w H; [done|].
  simpl. apply IH. destruct c; simpl.
  - by apply syncNow_offline.
  - by apply deleteRemote_offline.
Qed.

End Offline.

(** X12. While synchronisation is not configured (or no password is
    stored) and there is no client, [syncNow] and [deleteRemote] send nothing
    and change neither a local file nor the manifest, in memory or saved;
    no client is made. *)
Theorem without_credentials_nothing_is_sent (env : Env) (cs : list Command) (w : World) :
  credentials env = None → client w = false →
  let w' := runCommands env cs w in
  conn w' = conn w ∧ fs w' = fs w ∧ fsWrites w' = fsWrites w
  ∧ manifest w' = manifest w ∧ savedManifest w' = savedManifest w
  ∧ syncLock w' = syncLock w ∧ client w' = false.
Proof.
  intros Hnone Hc w'. apply (runCommands_offline env Hnone cs w w). by split_and!.
Qed.

Lemma without_credentials_witness :
  WebDavClient.trace
    (conn (runCommands Sample.offline
             [SyncNow; DeleteRemote "/home/u/.claude/projects/p1/s1.jsonl"; SyncNow]
             Sample.coldWorld))
  = [].
Proof.
  destruct (without_credentials_nothing_is_sent Sample.offline
              [SyncNow; DeleteRemote "/home/u/.claude/projects/p1/s1.jsonl"; SyncNow]
              Sample.coldWorld eq_refl eq_refl) as (Hc & _).
  cbv zeta in Hc. by rewrite Hc.
Defined.

(** ** The local paths the service touches *)



Section Touch.
Variable env : Env.
Variable f0 : gmap string Node.
Variable ws0 : list (string * string).




















End Touch.


(** ** Scanning a host of the store *)

Section RemoteScan.
Variable env : Env.



End RemoteScan.


(** ** The plan of uploads as a whole *)

(** X15. The uploads planned from a local scan follow the order of the
    scan and name each path at most once; each is an upload of a scanned file
    with its local path, size and modification time; and against a store that
    lists nothing, every scanned file is planned. *)
Theorem computeUploadChanges_plans_each_file_once
    (env : Env) (m : ManifestData) (f : gmap string Node) (t : Z)
    (remoteFiles : list (string * WebDavFileInfo)) :
  let files := SyncService.scanLocalFiles env f t in
  let changes := SyncService.computeUploadChanges m files remoteFiles in
  map relativePath changes `sublist_of` JsMap.keys files
  ∧ NoDup (map relativePath changes)
  ∧ (∀ c, In c changes →
       ∃ local, In (relativePath c, local) files
                ∧ c = SyncService.uploadOf (relativePath c) local
                ∧ action c = upload
                ∧ localPath c = Some (fullPath local))
  ∧ (remoteFiles = [] → map relativePath changes = JsMap.keys files).
Proof.
  intros files changes.
  assert (Hch : changes = map (fun kv => SyncService.uploadOf (fst kv) (snd kv))
                            (List.filter (uploadNeeded m remoteFiles) files)).
  { unfold changes, SyncService.computeUploadChanges. by rewrite planUpload_fold. }
  assert (Hkeys : map relativePath changes
                  = map fst (List.filter (uploadNeeded m remoteFiles) files)).
  { rewrite Hch, map_map. apply map_ext. by intros []. }
  assert (Hsub : map relativePath changes `sublist_of` JsMap.keys files).
  { rewrite Hkeys. unfold JsMap.keys.
    clear. induction files as [|kv l IH]; simpl; [constructor|].
    destruct (uploadNeeded m remoteFiles kv); simpl; by constructor. }
  split_and!.
  - exact Hsub.
  - apply (sublist_NoDup _ (JsMap.keys files)); [apply scanLocalFiles_NoDup|exact Hsub].
  - intros c Hc. rewrite Hch in Hc. apply in_map_iff in Hc as ([p local] & <- & Hin).
    apply filter_In in Hin as [Hin _]. by exists local.
  - intros ->. rewrite Hkeys. unfold JsMap.keys. f_equal.
    clear. induction files as [|kv l IH]; simpl; [done|]. by rewrite IH.
Qed.

(** ** The hosts of the store *)

Section Hosts.
Variable env : Env.

Lemma stripTrailingSlash_slash n : Js.stripTrailingSlash (n +:+ "/") = n.
Proof.
  induction n as [|a n IH]; [done|].
  rewrite append_cons. cbn [Js.stripTrailingSlash].
  destruct (n +:+ "/") as [|b rest] eqn:E.
  - by destruct n.
  - by rewrite IH.
Qed.

End Hosts.

(** X16. [listRemoteHosts] never throws and touches neither a local file
    nor the manifest.  Without a client it gives no host and sends nothing;
    when the listing of [/hosts] fails it gives no host; otherwise it gives,
    in the order of the listing, the names of the listed directories with
    the slash at their end dropped, so a directory listed as [name/] is the
    host [name]. *)
Theorem listRemoteHosts_names_the_listed_directories (env : Env) (w : World) :
  (client w = false → SyncService.listRemoteHosts env w = (Ok [], w))
  ∧ (client w = true → ∀ items s1,
       WebDavClient.list_ (parsePropfind env) "/hosts" (conn w) = (Ok items, s1) →
       SyncService.listRemoteHosts env w
       = (Ok (map (fun i => Js.stripTrailingSlash (path i)) (List.filter isDirectory items)),
          set_conn (fun _ => s1) w))
  ∧ (client w = true → ∀ e s1,
       WebDavClient.list_ (parsePropfind env) "/hosts" (conn w) = (Throw e, s1) →
       SyncService.listRemoteHosts env w = (Ok [], set_conn (fun _ => s1) w))
  ∧ (∃ hosts w', SyncService.listRemoteHosts env w = (Ok hosts, w')
                 ∧ fs w' = fs w ∧ fsWrites w' = fsWrites w)
  ∧ (∀ n, Js.stripTrailingSlash (n +:+ "/") = n).
Proof.
  split_and!.
  - intros Hc. unfold SyncService.listRemoteHosts. by rewrite bind_gets, Hc.
  - intros Hc items s1 E. unfold SyncService.listRemoteHosts. rewrite bind_gets, Hc.
    cbn [negb]. unfold tryCatch. by rewrite (bind_Ok _ _ _ _ _ (onClient_eq _ _ _ _ E)).
  - intros Hc e s1 E. unfold SyncService.listRemoteHosts. rewrite bind_gets, Hc.
    cbn [negb]. unfold tryCatch. by rewrite (bind_Throw _ _ _ _ _ (onClient_eq _ _ _ _ E)).
  - apply listRemoteHosts_run.
  - apply stripTrailingSlash_slash.
Qed.

(** ** The machine descriptor *)

Section Descriptor.
Variable env : Env.
Variable f : gmap string Node.

(** A directory that the descriptor may name: listed under the [projects]
    folder of a root other than the cache, a directory itself, its name not
    starting with a dot. *)
Definition projectOfARoot (n : string) : Prop :=
  ∃ d names,
    In d (claudeDirs env) ∧ dir d ≠ cacheDir env
    ∧ f !! path_join env (dir d) "projects" = Some (Dir names)
    ∧ In n names
    ∧ (∃ ns, f !! path_join env (path_join env (dir d) "projects") n = Some (Dir ns))
    ∧ Js.startsWith "." n = false.

Lemma collectProjectDirs_fold ds : ∀ acc,
  (∀ d, In d ds → In d (claudeDirs env)) →
  Forall projectOfARoot acc →
  Forall projectOfARoot
    (fold_left
       (fun projectDirs d =>
          if String.eqb (dir d) (cacheDir env) then projectDirs
          else
            let projectsDir := path_join env (dir d) "projects" in
            if negb (Fs.existsSync f projectsDir) then projectDirs
            else match result (SyncService.listProjectDirs env f projectsDir) tt with
                 | Ok dirs => projectDirs ++ dirs
                 | Throw _ => projectDirs
                 end)
       ds acc).
Proof.
  induction ds as [|d ds IH]; intros acc Hds Hacc; [done|].
  cbn [fold_left]. apply IH; [intros d' Hd'; apply Hds; by right|].
  destruct (String.eqb (dir d) (cacheDir env)) eqn:Ed; [done|].
  apply String.eqb_neq in Ed. cbv zeta.
  destruct (negb (Fs.existsSync f _)); [done|].
  destruct (result (SyncService.listProjectDirs env f _) tt) as [dirs|e] eqn:El; [|done].
  apply listProjectDirs_Ok in El as (names & Hnames & ->).
  apply Forall_app. split; [done|]. apply List.Forall_forall. intros n Hn.
  apply filter_In in Hn as [Hn Htr]. apply trackedDir_spec in Htr as [Hdir Hdot].
  exists d, names. split_and!; [apply Hds; by left|done..].
Qed.

Lemma collectProjectDirs_sound :
  Forall projectOfARoot (SyncService.collectProjectDirs env f).
Proof. unfold SyncService.collectProjectDirs. by apply collectProjectDirs_fold. Qed.

(** A root that gives the machine no name: the cache folder, or a root
    without a name or with an empty one. *)
Definition namesNothing (x : ClaudeDir) : Prop :=
  dir x = cacheDir env ∨ name x = None ∨ name x = Some "".

Lemma find_first {A} (test : A → bool) (l : list A) :
  match List.find test l with
  | Some x => ∃ pre post, l = pre ++ x :: post ∧ Forall (fun y => test y = false) pre
                          ∧ test x = true
  | None => Forall (fun y => test y = false) l
  end.
Proof.
  induction l as [|a l IH]; simpl; [constructor|].
  destruct (test a) eqn:E.
  - exists [], l. by split_and!.
  - destruct (List.find test l) as [x|].
    + destruct IH as (pre & post & -> & Hpre & Hx).
      exists (a :: pre), post. split_and!; [done| |done]. by constructor.
    + by constructor.
Qed.

Lemma named_false x :
  negb (String.eqb (dir x) (cacheDir env)) && SyncService.truthy (name x) = false →
  namesNothing x.
Proof.
  unfold namesNothing, SyncService.truthy. intros H.
  apply andb_false_iff in H as [H|H].
  - left. apply negb_false_iff in H. by apply String.eqb_eq.
  - right. destruct (name x) as [n|]; [|by left]. right.
    apply negb_false_iff, String.eqb_eq in H. by subst.
Qed.

(** The name is the one of the first root that has one and is not the cache
    folder, and the host name when no root is such. *)
Lemma configuredName_cases :
  (∃ pre d post n,
     claudeDirs env = pre ++ d :: post ∧ Forall namesNothing pre
     ∧ dir d ≠ cacheDir env ∧ name d = Some n ∧ n ≠ ""
     ∧ SyncService.configuredName env = n)
  ∨ (Forall namesNothing (claudeDirs env) ∧ SyncService.configuredName env = hostname env).
Proof.
  unfold SyncService.configuredName.
  pose proof (find_first
    (fun d => negb (String.eqb (dir d) (cacheDir env)) && SyncService.truthy (name d))
    (claudeDirs env)) as H.
  destruct (find _ (claudeDirs env)) as [d|].
  - destruct H as (pre & post & E & Hpre & Hp).
    apply andb_true_iff in Hp as [Hd Hn]. rewrite Hn.
    destruct (truthy_Some _ Hn) as (n & Hname & Hne).
    left. exists pre, d, post, n. rewrite Hname. split_and!; try done.
    + eapply Forall_impl; [exact Hpre|]. intros x. apply named_false.
    + apply negb_true_iff in Hd. by apply String.eqb_neq.
  - right. split; [|done]. eapply Forall_impl; [exact H|]. intros x. apply named_false.
Qed.

End Descriptor.

(** X17. [uploadMachineDescriptor] never throws, whatever the store
    answers, and changes neither a local file nor the manifest; without a
    client it does nothing.  With one, it sends a single document, to
    [machine.json] under the machine's own prefix: the descriptor with this
    machine's host name and platform, the clock's time, a name and project
    directories.  The name is the name of the first root, in the order of the
    roots, that is not the cache folder and has a name that is not empty:
    every root before it is the cache folder or has no name; when no root is
    such, the name is the host name.  Each project directory is a directory,
    not hidden, listed under the [projects] folder of a root other than the
    cache. *)
Theorem uploadMachineDescriptor_describes_this_machine (env : Env) (w : World) :
  let descriptor :=
    {| md_name := SyncService.configuredName env; md_platform := platform env;
       md_hostname := hostname env;
       md_projectDirs := SyncService.collectProjectDirs env (fs w);
       md_lastSeen := WebDavClient.now (conn w) |} in
  let w' := exec (SyncService.uploadMachineDescriptor env) w in
  result (SyncService.uploadMachineDescriptor env) w = Ok tt
  ∧ fs w' = fs w ∧ fsWrites w' = fsWrites w ∧ manifest w' = manifest w
  ∧ (client w = false → w' = w)
  ∧ (client w = true →
     conn w' = exec (WebDavClient.upload (SyncService.hostPrefix env +:+ "/machine.json")
                       (stringifyDescriptor env descriptor)) (conn w))
  ∧ ownPath env (SyncService.hostPrefix env +:+ "/machine.json")
  ∧ Forall (projectOfARoot env (fs w)) (md_projectDirs descriptor)
  ∧ ((∃ pre d post n,
        claudeDirs env = pre ++ d :: post ∧ Forall (namesNothing env) pre
        ∧ dir d ≠ cacheDir env ∧ name d = Some n ∧ n ≠ ""
        ∧ md_name descriptor = n)
     ∨ (Forall (namesNothing env) (claudeDirs env) ∧ md_name descriptor = hostname env)).
Proof.
  intros descriptor w'.
  assert (Hrun : SyncService.uploadMachineDescriptor env w
                 = if client w
                   then (Ok tt,
                         set_conn (fun _ =>
                           exec (WebDavClient.upload
                                   (SyncService.hostPrefix env +:+ "/machine.json")
                                   (stringifyDescriptor env descriptor)) (conn w)) w)
                   else (Ok tt, w)).
  { unfold SyncService.uploadMachineDescriptor. rewrite bind_gets.
    destruct (client w); [|done]. cbn [negb]. rewrite bind_gets. unfold dateNow.
    rewrite bind_gets. cbv zeta. fold descriptor. unfold tryCatch. rewrite onClient_run.
    by destruct (result _ (conn w)) as [[]|e]. }
  unfold w', exec, result. rewrite Hrun.
  split_and!.
  - by destruct (client w).
  - by destruct (client w).
  - by destruct (client w).
  - by destruct (client w).
  - by intros ->.
  - by intros ->.
  - by apply ownPath_hostPrefix.
  - apply collectProjectDirs_sound.
  - apply configuredName_cases.
Qed.

(** ** The shared documents when the store has none *)

(** X18. [syncSessionNames] reads the local document before its [try]
    block: when [session-names.json] of the primary root is there and cannot
    be read (it is a directory), the call throws that error, with nothing
    sent.  When the local document is absent or a file and the store has no
    [/session-names.json], it writes no local file and does not throw,
    whatever the upload answers: it sends the local document as it is when
    that is anything but the two characters [{}], and sends nothing
    otherwise. *)
Theorem syncSessionNames_without_remote (env : Env) (w : World) (d : string) :
  client w = true →
  SyncService.primaryDir env = Some d → d ≠ "" →
  let p := path_join env d "session-names.json" in
  let w' := exec (SyncService.syncSessionNames env) w in
  (∀ names, fs w !! p = Some (Dir names) →
     SyncService.syncSessionNames env w = (Throw (Error "EISDIR"), w))
  ∧ (∀ localText w1,
       (Fs.existsSync (fs w) p = false ∧ localText = "{}")
       ∨ (∃ mt, fs w !! p = Some (File localText mt)) →
       onClient (WebDavClient.exists_ "/session-names.json") w = (Ok false, w1) →
       result (SyncService.syncSessionNames env) w = Ok tt
       ∧ fs w' = fs w ∧ fsWrites w' = fsWrites w ∧ manifest w' = manifest w
       ∧ (localText = "{}" → w' = w1)
       ∧ (localText ≠ "{}" →
          conn w' = exec (WebDavClient.upload "/session-names.json" localText) (conn w1))).
Proof.
  intros Hc Hd Hne p w'.
  assert (Estart : ∀ r,
    (if Fs.existsSync (fs w) p then Fs.readFileSync (fs w) p else ret "{}") w = (r, w) →
    SyncService.syncSessionNames env w
    = bind (fun s => (r, s))
        (fun localContent =>
           tryCatch
             (let! remoteExists := onClient (WebDavClient.exists_ "/session-names.json") in
              if remoteExists then
                let! remoteContent := onClient (WebDavClient.download "/session-names.json") in
                let! local := SyncService.jsonParseNames env localContent in
                let! remote := SyncService.jsonParseNames env remoteContent in
                let merged := SyncService.spread local remote in
                let mergedStr := stringifyNames env merged in
                writeFileSync p mergedStr ;;
                onClient (WebDavClient.upload "/session-names.json" mergedStr)
              else
                when (negb (String.eqb localContent "{}"))
                  (onClient (WebDavClient.upload "/session-names.json" localContent)))
             (fun _ => ret tt)) w).
  { intros r Er. unfold SyncService.syncSessionNames.
    rewrite bind_gets, Hc. cbn [negb]. rewrite Hd. cbn [SyncService.truthy].
    apply String.eqb_neq in Hne. rewrite Hne. cbn [negb].
    change (default "" (Some d)) with d. fold p.
    rewrite bind_gets. unfold bind at 1 3. by rewrite Er. }
  split.
  - intros names Hdir. rewrite (Estart (Throw (Error "EISDIR"))); [done|].
    rewrite (existsSync_true _ _ _ Hdir). unfold Fs.readFileSync. by rewrite Hdir.
  - intros localText w1 Hlocal Hex.
    destruct (onClient_fields _ _ _ _ Hex) as (Hf1 & Hw1 & Hm1 & _ & _ & _).
    assert (Eread : (if Fs.existsSync (fs w) p then Fs.readFileSync (fs w) p else ret "{}") w
                    = (Ok localText, w)).
    { destruct Hlocal as [[Hx ->]|[mt Hfile]].
      - by rewrite Hx.
      - rewrite (existsSync_true _ _ _ Hfile). unfold Fs.readFileSync. by rewrite Hfile. }
    assert (Erun : SyncService.syncSessionNames env w
                   = if String.eqb localText "{}" then (Ok tt, w1)
                     else (Ok tt,
                           set_conn (fun _ =>
                             exec (WebDavClient.upload "/session-names.json" localText)
                               (conn w1)) w1)).
    { rewrite (Estart _ Eread). unfold bind at 1.
      unfold tryCatch. rewrite (bind_Ok _ _ _ _ _ Hex).
      destruct (String.eqb localText "{}"); [done|]. cbn [negb when].
      rewrite onClient_run. by destruct (result _ (conn w1)) as [[]|e]. }
    unfold w', exec, result. rewrite Erun. clear Erun Estart w'.
    destruct (String.eqb localText "{}") eqn:E; cbn [fst snd].
    + apply String.eqb_eq in E. by split_and!.
    + apply String.eqb_neq in E. by split_and!.
Qed.

Lemma syncSessionNames_without_remote_witness :
  let w := set_conn (fun _ => Sample.newClient [Sample.reply 404 ""; Sample.reply 201 ""])
             Sample.namesWorld in
  map (fun x => (WebDavClient.method (fst x), WebDavClient.body (fst x)))
      (fetches (WebDavClient.trace (conn (exec (SyncService.syncSessionNames Sample.env) w))))
  = [(WebDavClient.PROPFIND, None); (WebDavClient.PUT, Some "b=y")].
Proof.
  intros w.
  pose (w1 := exec (onClient (WebDavClient.exists_ "/session-names.json")) w).
  assert (Hd : SyncService.primaryDir Sample.env = Some "/home/u/.claude")
    by (vm_compute; reflexivity).
  assert (Hne : "/home/u/.claude" ≠ "") by done.
  assert (Hlocal :
    (Fs.existsSync (fs w) (path_join Sample.env "/home/u/.claude" "session-names.json") = false
     ∧ "b=y" = "{}")
    ∨ (∃ mt, fs w !! path_join Sample.env "/home/u/.claude" "session-names.json"
             = Some (File "b=y" mt))).
  { right. exists 1000. vm_compute. reflexivity. }
  assert (Hex : onClient (WebDavClient.exists_ "/session-names.json") w = (Ok false, w1))
    by (vm_compute; reflexivity).
  destruct (syncSessionNames_without_remote Sample.env w "/home/u/.claude"
              eq_refl Hd Hne) as (_ & Hrun).
  destruct (Hrun "b=y" w1 Hlocal Hex) as (_ & _ & _ & _ & _ & Hconn).
  rewrite (Hconn ltac:(done)). vm_compute. reflexivity.
Defined.

(** A timer or a request that only reads. *)
Definition isRead (ev : WebDavClient.Event) : Prop :=
  match ev with
  | WebDavClient.Sleep _ => True
  | WebDavClient.Fetch rq _ =>
      WebDavClient.method rq = WebDavClient.GET
      ∨ WebDavClient.method rq = WebDavClient.PROPFIND
  end.

Section Reads.
Variable env : Env.
Variable t0 : list WebDavClient.Event.

(** Since the trace was [t0], the client has only read. *)
Definition readsSince (s : WebDavClient.State) : Prop :=
  ∃ evs, WebDavClient.trace s = t0 ++ evs ∧ Forall isRead evs.

Definition worldReads (w : World) : Prop := readsSince (conn w).

Lemma request_reads m p o :
  m = WebDavClient.GET ∨ m = WebDavClient.PROPFIND →
  preserves readsSince (WebDavClient.request m p o).
Proof.
  intros Hm s (evs & Ht & Hev).
  destruct (request_shape m p o s) as (_ & _ & evs' & Ht' & Hev' & _).
  exists (evs ++ evs'). rewrite Ht', Ht, app_assoc. split; [done|].
  apply Forall_app. split; [done|]. eapply List.Forall_impl; [|exact Hev'].
  intros [ms|rq res]; [done|]. simpl. intros [-> _]. exact Hm.
Qed.

Lemma download_reads p : preserves readsSince (WebDavClient.download p).
Proof. intros s Hs. rewrite download_state. apply request_reads; [by left|done]. Qed.

Lemma list_reads parse p : preserves readsSince (WebDavClient.list_ parse p).
Proof. intros s Hs. rewrite list_state. apply request_reads; [by right|done]. Qed.

Lemma onClient_reads {A} (m : M WebDavClient.State A) :
  preserves readsSince m → preserves worldReads (onClient m).
Proof. intros H. apply preserves_onClient. intros w Hw. apply (H (conn w) Hw). Qed.

Lemma writeFileSync_reads p content : preserves worldReads (writeFileSync p content).
Proof. unfold writeFileSync. walk. destruct (Fs.writeFile _ _ _ _); walk. Qed.

Lemma listRemoteHosts_reads : preserves worldReads (SyncService.listRemoteHosts env).
Proof.
  unfold SyncService.listRemoteHosts.
  apply preserves_bind; [apply preserves_gets|]. intros c.
  destruct (negb c); [apply preserves_ret|].
  apply preserves_tryCatch; [|intros; apply preserves_ret].
  apply preserves_bind; [|intros; apply preserves_ret].
  apply onClient_reads, list_reads.
Qed.

Lemma mergeRemoteHistories_reads hosts : ∀ merged,
  preserves worldReads (SyncService.mergeRemoteHistories env hosts merged).
Proof.
  induction hosts as [|host rest IH]; intros merged; simpl; [apply preserves_ret|].
  destruct (String.eqb host (hostname env)); [apply IH|].
  apply preserves_bind; [|intros; apply IH].
  apply preserves_tryCatch; [|intros; apply preserves_ret].
  apply preserves_bind; [|intros; apply preserves_outcome].
  apply onClient_reads, download_reads.
Qed.

End Reads.

Lemma tryCatch_unit {S} (m : M S unit) (s : S) :
  tryCatch m (fun _ => ret tt) s = (Ok tt, exec (tryCatch m (fun _ => ret tt)) s).
Proof. unfold exec, tryCatch. by destruct (m s) as [[[]|e] s1]. Qed.

(** X19. [syncHistoryFile] reads the local history before its [try] block:
    when [history.jsonl] of the primary root is there and cannot be read (it
    is a directory), the call throws that error, with nothing sent.  When the
    local history is absent or a file, the call does not throw, and it sends
    this machine's history, as the local file holds it, before it reads any
    other host's: the only write of the call is that first PUT to
    [history.jsonl] under the own prefix, and it is left out when the local
    history is empty or absent; everything after it only reads the store.
    When that upload fails, the call ends there, with no host listed and no
    local file written. *)
Theorem syncHistoryFile_uploads_before_merging (env : Env) (w : World) (d : string) :
  client w = true →
  SyncService.primaryDir env = Some d → d ≠ "" →
  let p := path_join env d "history.jsonl" in
  let w' := exec (SyncService.syncHistoryFile env) w in
  (∀ names, fs w !! p = Some (Dir names) →
     SyncService.syncHistoryFile env w = (Throw (Error "EISDIR"), w))
  ∧ (∀ text,
       (Fs.existsSync (fs w) p = false ∧ text = "")
       ∨ (∃ mt, fs w !! p = Some (File text mt)) →
       let put := WebDavClient.upload (SyncService.hostPrefix env +:+ "/history.jsonl") text in
       result (SyncService.syncHistoryFile env) w = Ok tt
       ∧ (text = "" →
          ∃ evs, WebDavClient.trace (conn w') = WebDavClient.trace (conn w) ++ evs
                 ∧ Forall isRead evs)
       ∧ (text ≠ "" → ∀ e s1, put (conn w) = (Throw e, s1) → w' = set_conn (fun _ => s1) w)
       ∧ (text ≠ "" → ∀ s1, put (conn w) = (Ok tt, s1) →
          ∃ evs, WebDavClient.trace (conn w') = WebDavClient.trace s1 ++ evs
                 ∧ Forall isRead evs)).
Proof.
  intros Hc Hd Hne p w'.
  assert (Estart : ∀ r,
    (if Fs.existsSync (fs w) p then Fs.readFileSync (fs w) p else ret "") w = (r, w) →
    SyncService.syncHistoryFile env w
    = bind (fun s => (r, s))
        (fun localContent =>
           tryCatch
             (when (negb (String.eqb localContent ""))
                (onClient (WebDavClient.upload (SyncService.hostPrefix env +:+ "/history.jsonl")
                             localContent)) ;;
              let! hosts := SyncService.listRemoteHosts env in
              let! merged := SyncService.mergeRemoteHistories env hosts localContent in
              when (negb (String.eqb merged localContent)) (writeFileSync p merged))
             (fun _ => ret tt)) w).
  { intros r Er. unfold SyncService.syncHistoryFile.
    rewrite bind_gets, Hc. cbn [negb]. rewrite Hd. cbn [SyncService.truthy].
    apply String.eqb_neq in Hne. rewrite Hne. cbn [negb].
    change (default "" (Some d)) with d. fold p.
    rewrite bind_gets. unfold bind at 1 5. by rewrite Er. }
  split.
  { intros names Hdir. rewrite (Estart (Throw (Error "EISDIR"))); [done|].
    rewrite (existsSync_true _ _ _ Hdir). unfold Fs.readFileSync. by rewrite Hdir. }
  intros text Hlocal put.
  assert (Eread : (if Fs.existsSync (fs w) p then Fs.readFileSync (fs w) p else ret "") w
                  = (Ok text, w)).
  { destruct Hlocal as [[Hx ->]|[mt Hfile]].
    - by rewrite Hx.
    - rewrite (existsSync_true _ _ _ Hfile). unfold Fs.readFileSync. by rewrite Hfile. }
  set (rest := let! hosts := SyncService.listRemoteHosts env in
               let! merged := SyncService.mergeRemoteHistories env hosts text in
               when (negb (String.eqb merged text)) (writeFileSync p merged)).
  assert (Hrest : ∀ t0, preserves (worldReads t0) rest).
  { intros t0. unfold rest.
    apply preserves_bind; [apply listRemoteHosts_reads|]. intros hosts.
    apply preserves_bind; [apply mergeRemoteHistories_reads|]. intros merged.
    apply preserves_when, writeFileSync_reads. }
  assert (Erun : SyncService.syncHistoryFile env w
                 = tryCatch (when (negb (String.eqb text "")) (onClient put) ;; rest)
                     (fun _ => ret tt) w).
  { by rewrite (Estart _ Eread). }
  clear Estart.
  assert (Hnil : ∀ s, worldReads (WebDavClient.trace s) (set_conn (fun _ => s) w)).
  { intros s. exists []. by rewrite app_nil_r. }
  split_and!.
  - unfold result. rewrite Erun, tryCatch_unit. done.
  - intros ->. unfold w', exec. rewrite Erun. cbn [String.eqb negb when].
    assert (E0 : (ret tt ;; rest) = rest) by done. rewrite E0.
    apply (preserves_tryCatch (worldReads (WebDavClient.trace (conn w))) rest
             (fun _ => ret tt) (Hrest _) (fun _ => preserves_ret _ tt) w).
    exists []. by rewrite app_nil_r.
  - intros Hte e s1 Eput. apply String.eqb_neq in Hte.
    unfold w', exec. rewrite Erun, Hte. cbn [negb when]. unfold tryCatch.
    by rewrite (bind_Throw _ _ _ _ _ (onClient_eq _ _ _ _ Eput)).
  - intros Hte s1 Eput. apply String.eqb_neq in Hte.
    unfold w', exec. rewrite Erun, Hte. cbn [negb when]. unfold tryCatch.
    rewrite (bind_Ok _ _ _ _ _ (onClient_eq _ _ _ _ Eput)).
    pose proof (Hrest (WebDavClient.trace s1) (set_conn (fun _ => s1) w) (Hnil s1)) as H.
    unfold exec in H. by destruct (rest (set_conn (fun _ => s1) w)) as [[[]|e] w2].
Qed.

Lemma syncHistoryFile_witness :
  List.filter (fun mp => match fst mp with
                         | WebDavClient.GET | WebDavClient.PROPFIND => false
                         | _ => true
                         end)
    (map (fun x => (WebDavClient.method (fst x), WebDavClient.remotePath (fst x)))
         (fetches (WebDavClient.trace
                     (conn (exec (SyncService.syncHistoryFile Sample.env)
                              Sample.cycleWorld)))))
  = [(WebDavClient.PUT, "/hosts/H1/history.jsonl")]
  ∧ result (SyncService.syncHistoryFile Sample.env) Sample.cycleWorld = Ok tt.
Proof.
  assert (Hd : SyncService.primaryDir Sample.env = Some "/home/u/.claude")
    by (vm_compute; reflexivity).
  assert (Hne : "/home/u/.claude" ≠ "") by done.
  assert (Hlocal :
    (Fs.existsSync (fs Sample.cycleWorld)
       (path_join Sample.env "/home/u/.claude" "history.jsonl") = false
     ∧ Sample.historyLine "s1" "7" = "")
    ∨ (∃ mt, fs Sample.cycleWorld !! path_join Sample.env "/home/u/.claude" "history.jsonl"
             = Some (File (Sample.historyLine "s1" "7") mt))).
  { right. exists 1000. vm_compute. reflexivity. }
  destruct (syncHistoryFile_uploads_before_merging Sample.env Sample.cycleWorld
              "/home/u/.claude" eq_refl Hd Hne) as (_ & Hrun).
  destruct (Hrun (Sample.historyLine "s1" "7") Hlocal) as (Hres & _).
  split; [vm_compute; reflexivity|exact Hres].
Defined.

(** * Properties of the session parser *)

Section Encoding.
Import SessionParser.

(** No character of [s] passes [test]. *)
Fixpoint noneOf (test : ascii → bool) (s : string) : bool :=
  match s with
  | EmptyString => true
  | String a s' => negb (test a) && noneOf test s'
  end.

Lemma lacks_noneOf c s : Js.lacks c s = noneOf (fun a => Ascii.eqb a c) s.
Proof. induction s as [|a s IH]; simpl; [done|]. by rewrite IH. Qed.

Lemma noneOf_or t1 t2 s :
  noneOf (fun a => t1 a || t2 a) s = noneOf t1 s && noneOf t2 s.
Proof.
  induction s as [|a s IH]; simpl; [done|]. rewrite IH.
  destruct (t1 a), (t2 a), (noneOf t1 s), (noneOf t2 s); done.
Qed.

Lemma replaceAll_length test c s : String.length (replaceAll test c s) = String.length s.
Proof. induction s as [|a s IH]; simpl; [done|]. by rewrite IH. Qed.

Lemma replaceAll_noneOf test c s :
  test c = false → noneOf test (replaceAll test c s) = true.
Proof.
  intros Hc. induction s as [|a s IH]; simpl; [done|]. rewrite IH, andb_true_r.
  destruct (test a) eqn:E; by rewrite ?Hc, ?E.
Qed.

Lemma replaceAll_keeps test test' c s :
  test' c = false → noneOf test' s = true → noneOf test' (replaceAll test c s) = true.
Proof.
  intros Hc. induction s as [|a s IH]; simpl; [done|].
  intros [Ha Hs]%andb_true_iff. rewrite (IH Hs), andb_true_r.
  destruct (test a); [by rewrite Hc|done].
Qed.

Lemma replaceAll_id test c s : noneOf test s = true → replaceAll test c s = s.
Proof.
  induction s as [|a s IH]; simpl; [done|].
  intros [Ha Hs]%andb_true_iff. apply negb_true_iff in Ha. by rewrite Ha, (IH Hs).
Qed.

Lemma replaceAll_append test c s1 s2 :
  replaceAll test c (s1 +:+ s2) = replaceAll test c s1 +:+ replaceAll test c s2.
Proof.
  induction s1 as [|a s1 IH]; [done|]. rewrite append_cons. simpl.
  by rewrite IH, append_cons.
Qed.

Lemma lowerDrive_length p : String.length (lowerDrive p) = String.length p.
Proof.
  destruct p as [|d [|c rest]]; try done. unfold lowerDrive.
  by destruct (isUpper d && Ascii.eqb c ":").
Qed.

Lemma lowerDrive_id p : Js.lacks ":" p = true → lowerDrive p = p.
Proof.
  destruct p as [|d [|c rest]]; try done. unfold lowerDrive. simpl.
  intros [_ [Hc _]%andb_true_iff]%andb_true_iff. apply negb_true_iff in Hc.
  by rewrite Hc, andb_false_r.
Qed.

(** What [encodeProjectPath] leaves no trace of. *)
Lemma encodeProjectPath_clean p :
  noneOf (fun a => Ascii.eqb a ":") (encodeProjectPath p) = true
  ∧ noneOf (fun a => Ascii.eqb a "\" || Ascii.eqb a "/") (encodeProjectPath p) = true
  ∧ noneOf (fun a => Ascii.eqb a "_" || Ascii.eqb a ".") (encodeProjectPath p) = true.
Proof.
  unfold encodeProjectPath. split_and!.
  - apply replaceAll_keeps; [done|]. apply replaceAll_keeps; [done|].
    by apply replaceAll_noneOf.
  - apply replaceAll_keeps; [done|]. by apply replaceAll_noneOf.
  - by apply replaceAll_noneOf.
Qed.

End Encoding.

(** X20. [encodeProjectPath] keeps the length of the path and leaves no
    colon, slash, backslash, underscore or dot in it; encoding an encoded
    name changes nothing; and the two paths its comment gives are encoded as
    the comment says. *)
Theorem encodeProjectPath_leaves_no_separator (p : string) :
  let e := SessionParser.encodeProjectPath p in
  String.length e = String.length p
  ∧ Js.lacks ":" e = true ∧ Js.lacks "/" e = true ∧ Js.lacks "\" e = true
  ∧ Js.lacks "_" e = true ∧ Js.lacks "." e = true
  ∧ SessionParser.encodeProjectPath e = e
  ∧ SessionParser.encodeProjectPath "/Users/zoomin.hao/Documents/AI_Work"
    = "-Users-zoomin-hao-Documents-AI-Work"
  ∧ SessionParser.encodeProjectPath "C:\Work\AI_Work" = "c--Work-AI-Work".
Proof.
  intros e. destruct (encodeProjectPath_clean p) as (Hc & Hs & Hu). fold e in Hc, Hs, Hu.
  rewrite noneOf_or in Hs, Hu.
  apply andb_true_iff in Hs as [Hb Hsl]. apply andb_true_iff in Hu as [Hun Hdot].
  split_and!; rewrite ?lacks_noneOf; try done.
  - unfold e, SessionParser.encodeProjectPath.
    by rewrite !replaceAll_length, lowerDrive_length.
  - unfold SessionParser.encodeProjectPath at 1.
    rewrite (lowerDrive_id e) by (by rewrite lacks_noneOf).
    rewrite (replaceAll_id _ _ e Hc).
    rewrite (replaceAll_id _ _ e) by (by rewrite noneOf_or, Hb, Hsl).
    apply replaceAll_id. by rewrite noneOf_or, Hun, Hdot.
Qed.

Section Display.
Import SessionParser.

(** The last element that passes a test: nothing after it passes. *)
Lemma filter_last {A} (test : A → bool) (d : A) (l : list A) :
  List.filter test l ≠ [] →
  ∃ pre post, l = pre ++ List.last (List.filter test l) d :: post
    ∧ test (List.last (List.filter test l) d) = true
    ∧ Forall (fun y => test y = false) post.
Proof.
  induction l as [|a l IH]; [done|]. cbn [List.filter].
  destruct (List.filter test l) as [|x fl] eqn:E.
  - destruct (test a) eqn:Ea; [|done]. intros _.
    exists [], l. split_and!; [done|done|].
    apply List.Forall_forall. intros y Hy.
    destruct (test y) eqn:Ey; [|done].
    assert (In y (List.filter test l)) as Hin by (by apply filter_In).
    by rewrite E in Hin.
  - intros _. destruct (IH ltac:(done)) as (pre & post & -> & Ht & Hpost).
    exists (a :: pre), post.
    assert (List.last (if test a then a :: x :: fl else x :: fl) d = List.last (x :: fl) d)
      as -> by (by destruct (test a)).
    by split_and!.
Qed.

End Display.

(** X21. [resolveProjectDisplay] gives the last non-empty piece between
    hyphens: the pieces of the directory name are some pieces, then the
    result, which is not empty and has no hyphen, then empty pieces only.  A
    name with no such piece, the empty name or hyphens only, comes back as it
    is, and so does a name without a hyphen.  For
    [-Users-zoomin-hao-Documents-AI-Work] it gives [Work]. *)
Theorem resolveProjectDisplay_is_the_last_piece (raw : string) :
  let r := SessionParser.resolveProjectDisplay raw in
  ((∃ pre post, Js.split "-" raw = pre ++ r :: post
      ∧ r ≠ "" ∧ Js.lacks "-" r = true
      ∧ Forall (fun piece => piece = "") post)
   ∨ (r = raw ∧ ∀ piece, In piece (Js.split "-" raw) → piece = ""))
  ∧ (Js.lacks "-" raw = true → r = raw)
  ∧ SessionParser.resolveProjectDisplay "-Users-zoomin-hao-Documents-AI-Work" = "Work".
Proof.
  intros r. unfold r, SessionParser.resolveProjectDisplay. split_and!; [| |done].
  - cbv zeta.
    destruct (List.filter _ (Js.split "-" raw)) as [|x l] eqn:E.
    + right. split; [done|]. intros piece Hin.
      destruct (String.eqb piece "") eqn:Ep; [by apply String.eqb_eq|].
      assert (Hf : In piece (List.filter (fun s => negb (String.eqb s ""))
                               (Js.split "-" raw))).
      { apply filter_In. by rewrite Ep. }
      by rewrite E in Hf.
    + left.
      destruct (filter_last (fun s => negb (String.eqb s "")) raw (Js.split "-" raw))
        as (pre & post & Hsplit & Hne & Hpost); [by rewrite E|].
      rewrite E in Hsplit, Hne. exists pre, post.
      apply negb_true_iff, String.eqb_neq in Hne. split_and!; [done|done| |].
      * apply (split_lacks "-" raw). rewrite Hsplit. apply in_or_app. right. by left.
      * eapply Forall_impl; [exact Hpost|]. intros y Hy.
        by apply negb_false_iff, String.eqb_eq in Hy.
  - intros H. cbv zeta. rewrite (split_whole _ _ H). simpl.
    by destruct (String.eqb raw "").
Qed.

(** X22. [inferPlatform] answers [darwin], [linux], [win32] or the
    current platform.  On what [encodeProjectPath] makes of a path under
    [/Users/] it answers [darwin], and of a path under [/home/], [linux].  On
    what [encodeProjectPath] makes of a path with a drive letter, [X:...], it
    answers the current platform: the encoding starts with the lower-case
    letter, which the pattern for Windows does not take. *)
Theorem inferPlatform_of_an_encoded_path (current : string) :
  (∀ encoded,
     SessionParser.inferPlatform current encoded = "darwin"
     ∨ SessionParser.inferPlatform current encoded = "linux"
     ∨ SessionParser.inferPlatform current encoded = "win32"
     ∨ SessionParser.inferPlatform current encoded = current)
  ∧ (∀ rest,
       SessionParser.inferPlatform current
         (SessionParser.encodeProjectPath ("/Users/" +:+ rest)) = "darwin")
  ∧ (∀ rest,
       SessionParser.inferPlatform current
         (SessionParser.encodeProjectPath ("/home/" +:+ rest)) = "linux")
  ∧ (∀ d rest, SessionParser.isUpper d = true →
       SessionParser.inferPlatform current
         (SessionParser.encodeProjectPath (String d (String ":" rest))) = current).
Proof.
  split_and!.
  - intros encoded. unfold SessionParser.inferPlatform.
    destruct (Js.startsWith "-Users-" encoded); [by left|].
    destruct (Js.startsWith "-home-" encoded); [by right; left|].
    destruct encoded as [|d rest]; [by right; right; right|].
    destruct (_ && _); [by right; right; left|by right; right; right].
  - intros rest. unfold SessionParser.encodeProjectPath.
    change (SessionParser.lowerDrive ("/Users/" +:+ rest)) with ("/Users/" +:+ rest).
    rewrite !replaceAll_append.
    change (SessionParser.replaceAll _ "-" (SessionParser.replaceAll _ "-"
              (SessionParser.replaceAll _ "-" "/Users/"))) with "-Users-".
    unfold SessionParser.inferPlatform. by rewrite startsWith_prefix.
  - intros rest. unfold SessionParser.encodeProjectPath.
    change (SessionParser.lowerDrive ("/home/" +:+ rest)) with ("/home/" +:+ rest).
    rewrite !replaceAll_append.
    change (SessionParser.replaceAll _ "-" (SessionParser.replaceAll _ "-"
              (SessionParser.replaceAll _ "-" "/home/"))) with "-home-".
    unfold SessionParser.inferPlatform.
    assert (Js.startsWith "-Users-" ("-home-" +:+ SessionParser.replaceAll
              (fun a => Ascii.eqb a "_" || Ascii.eqb a ".") "-"
              (SessionParser.replaceAll (fun a => Ascii.eqb a "\" || Ascii.eqb a "/") "-"
                 (SessionParser.replaceAll (fun a => Ascii.eqb a ":") "-" rest))) = false)
      as -> by done.
    by rewrite startsWith_prefix.
  - intros d rest Hd. unfold SessionParser.encodeProjectPath, SessionParser.lowerDrive.
    rewrite Hd. cbn [Ascii.eqb Bool.eqb andb].
    cbn [SessionParser.replaceAll]. unfold SessionParser.inferPlatform.
    rewrite !startsWith_cons.
    destruct d as [[] [] [] [] [] [] [] []]; try discriminate Hd; reflexivity.
Qed.

(** X23. [addRuntimeSource] registers a root only when no root with the
    same directory is there: the roots already there stay, in their order and
    with their names, and the new root goes to the end; the directory is
    registered afterwards; adding it twice is adding it once; directories
    that were distinct stay distinct; and whatever root a search from the
    front found before, it finds after, so a runtime source never replaces
    the primary root. *)
Theorem addRuntimeSource_keeps_the_first_roots (d : ClaudeDir) (dirs : list ClaudeDir) :
  let dirs' := SessionParser.addRuntimeSource d dirs in
  (dirs' = dirs ∨ dirs' = dirs ++ [d])
  ∧ (∃ x, In x dirs' ∧ dir x = dir d)
  ∧ SessionParser.addRuntimeSource d dirs' = dirs'
  ∧ (NoDup (map dir dirs) → NoDup (map dir dirs'))
  ∧ (∀ test x, List.find test dirs = Some x → List.find test dirs' = Some x).
Proof.
  intros dirs'. unfold dirs', SessionParser.addRuntimeSource.
  destruct (existsb _ dirs) eqn:E.
  - split_and!; [by left| |by rewrite E|done|done].
    apply existsb_exists in E as (x & Hin & Hx). apply String.eqb_eq in Hx. eauto.
  - assert (E' : existsb (fun x => String.eqb (dir x) (dir d)) (dirs ++ [d]) = true).
    { rewrite existsb_app. simpl. by rewrite String.eqb_refl, orb_true_r. }
    split_and!.
    + by right.
    + exists d. split; [|done]. apply in_or_app. right. by left.
    + by rewrite E'.
    + intros Hnd. rewrite map_app. apply NoDup_app. split_and!; [done| |apply NoDup_singleton].
      intros y Hy ->%list_elem_of_singleton. apply list_elem_of_In, in_map_iff in Hy
        as (x & Hx & Hin).
      assert (existsb (fun x => String.eqb (dir x) (dir d)) dirs = true); [|congruence].
      apply existsb_exists. exists x. split; [done|]. by apply String.eqb_eq.
    + intros test x. clear. induction dirs as [|y l IH]; [done|]. simpl.
      destruct (test y); [done|apply IH].
Qed.

(** * What every request looks like *)

(** An event of a call sending [rq]: a timer set for a positive delay, or a
    fetch of exactly [rq]. *)
Definition sends (rq : WebDavClient.Request) (ev : WebDavClient.Event) : Prop :=
  match ev with
  | WebDavClient.Sleep ms => 0 < ms
  | WebDavClient.Fetch rq' _ => rq' = rq
  end.

Section Sending.
Import WebDavClient.

Lemma throttled_sends s rq :
  ∃ pre, trace (throttled s) = trace s ++ pre ∧ Forall (sends rq) pre.
Proof.
  unfold throttled, sleep. munfold.
  destruct (now s - lastRequestTime s <? minInterval s) eqn:E; simpl.
  - eexists. split; [done|]. constructor; [|constructor]. simpl. lia.
  - exists []. by rewrite app_nil_r.
Qed.

Lemma requestLoop_sends m p o maxRetries : ∀ remaining attempt s,
  ∃ evs,
    trace (exec (requestLoop m p o maxRetries remaining attempt) s) = trace s ++ evs
    ∧ Forall (sends (requestOf s m p o)) evs.
Proof.
  induction remaining as [|remaining IH]; intros attempt s.
  { exists []. by rewrite app_nil_r. }
  destruct (throttled_sends s (requestOf s m p o)) as (pre & Hpre & Hall).
  assert (Hrej : (∀ r rest, network s ≠ Answer r :: rest) →
    ∃ evs,
      trace (exec (requestLoop m p o maxRetries (S remaining) attempt) s) = trace s ++ evs
      ∧ Forall (sends (requestOf s m p o)) evs).
  { intros Hnet.
    destruct (requestLoop_reject m p o maxRetries remaining attempt s Hnet) as [e He].
    destruct (rejected_fields s (requestOf s m p o) e) as (_ & _ & _ & Ht).
    exists (pre ++ [Fetch (requestOf s m p o) (Rejected e)]).
    unfold exec. rewrite He. cbn [snd]. rewrite Ht, Hpre, <- app_assoc. split; [done|].
    apply Forall_app. split; [done|]. by repeat constructor. }
  destruct (network s) as [|[r|e] rest] eqn:Enet.
  - apply Hrej. intros ??. done.
  - destruct (decide (status r = 503 ∧ (attempt < maxRetries)%nat)) as [[H5 Hlt]|Hno].
    + destruct (backedOff_fields s (requestOf s m p o) r rest attempt)
        as (_ & _ & _ & Ha & Ht).
      destruct (IH (S attempt) (backedOff s (requestOf s m p o) r rest attempt))
        as (evs & Hevs & Hev).
      rewrite (requestOf_auth s _ m p o Ha) in Hev.
      exists (pre ++ [Fetch (requestOf s m p o) (Answer r);
                      Sleep (Z.min (3000 * 2 ^ Z.of_nat attempt) 30000)] ++ evs).
      unfold exec in *.
      rewrite (requestLoop_retry m p o maxRetries remaining attempt s r rest Enet H5 Hlt).
      rewrite Hevs, Ht, Hpre, <- !app_assoc. split; [done|].
      apply Forall_app. split; [done|]. apply Forall_app. split; [|done].
      constructor; [done|]. constructor; [|constructor]. simpl.
      assert (0 < 3000 * 2 ^ Z.of_nat attempt)
        by (apply Z.mul_pos_pos; [lia|apply Z.pow_pos_nonneg; lia]).
      lia.
    + destruct (returned_fields s (requestOf s m p o) r rest) as (_ & _ & _ & _ & Ht).
      exists (pre ++ [Fetch (requestOf s m p o) (Answer r)]).
      unfold exec. rewrite (requestLoop_return m p o maxRetries remaining attempt s r rest Enet).
      2:{ destruct (decide (status r = 503)); [right|left]; tauto. }
      cbn [snd]. rewrite Ht, Hpre, <- app_assoc. split; [done|].
      apply Forall_app. split; [done|]. by repeat constructor.
  - apply Hrej. intros ??. done.
Qed.

End Sending.

(** X24. Whatever a call of [request] sends, it sends the same request every
    time, retries included: the method asked for, the path made to start with
    a slash, the [Authorization] header of the client before the headers of
    the call, and the body of the call; and every timer it sets, to space or
    to back off, is set for a positive delay. *)
Theorem request_resends_the_same_request
    (m : WebDavClient.Method) (p : string) (o : WebDavClient.Options)
    (s : WebDavClient.State) :
  let rq := {| WebDavClient.method := m;
               WebDavClient.remotePath := WebDavClient.clean p;
               WebDavClient.headers :=
                 ("Authorization", WebDavClient.authHeader s) :: WebDavClient.opt_headers o;
               WebDavClient.body := WebDavClient.opt_body o |} in
  Js.startsWith "/" (WebDavClient.clean p) = true
  ∧ WebDavClient.clean (WebDavClient.clean p) = WebDavClient.clean p
  ∧ WebDavClient.authHeader (exec (WebDavClient.request m p o) s) = WebDavClient.authHeader s
  ∧ ∃ evs,
      WebDavClient.trace (exec (WebDavClient.request m p o) s) = WebDavClient.trace s ++ evs
      ∧ Forall (sends rq) evs.
Proof.
  intros rq.
  assert (Hclean : Js.startsWith "/" (WebDavClient.clean p) = true).
  { unfold WebDavClient.clean. destruct (Js.startsWith "/" p) eqn:E; [done|].
    by rewrite append_cons, startsWith_cons. }
  split_and!.
  - exact Hclean.
  - unfold WebDavClient.clean at 1. by rewrite Hclean.
  - by destruct (request_shape m p o s) as (_ & Ha & _).
  - apply (requestLoop_sends m p o).
Qed.
